(** * recurrenceConverters: a shallow embedding and its verification

    The program under study is [src/recurrenceConverters.ts]: a parser for
    weekly recurrence strings such as ["TR 11am-12:15pm"] and two
    formatters, [parseTo5545] (iCalendar text) and [parseTo8984] (a JSON
    object).  The TypeScript code leans on four pieces of the JavaScript
    run time, which are embedded here following ECMA-262:

    - strings (sequences of UTF-16 code units) and the String methods the
      code calls ([trim], [toLowerCase], [includes], [split], [replace],
      [padStart], [join]);
    - regular expressions (the backtracking matcher of ECMA-262, written
      in list-of-successes style: the matcher returns every end state in
      the priority order in which backtracking would try them);
    - numbers, which in this program are integers or NaN;
    - [Date] (a time value in milliseconds since the epoch, or NaN), with
      the host's local time zone as a parameter.

    The file has four parts: the embedding (run time, then the program,
    function by function); the vocabulary of the statements and the facts
    about the run time, the two patterns and the parser; the ten
    properties C1 to C10 of the specification; and further properties of
    the program, X1 to X12, read off the code.  Where the code departs
    from a property as the specification words it, the property is proved
    in an amended form and a counterexample to the original wording is
    given next to it. *)

From Stdlib Require Import Ascii String.
From Stdlib Require Import ZArith List Bool Lia.
Import ListNotations.

Open Scope Z_scope.

(* ================================================================== *)
(** * JavaScript values *)
(* ================================================================== *)

(** A UTF-16 code unit. *)
Definition char := Z.

(** A JavaScript string. *)
Definition jsstring := list char.

(** An ASCII character of the source, as a code unit. *)
Definition chr (a : ascii) : char := Z.of_N (N_of_ascii a).

(** An ASCII literal of the source, as a JavaScript string. *)
Definition str (s : string) : jsstring :=
  map chr (list_ascii_of_string s).

(** A JavaScript number.  Every number this program computes is an integer
    far below 2^53 in absolute value, or NaN. *)
Inductive number : Type :=
| Num (z : Z)
| NaN.

(** What a [throw] carries: [new Error(msg)] in the source, the
    [RangeError] that [Date.prototype.toISOString] raises, and the
    [TypeError] of a method call on [undefined]. *)
Inductive exn : Type :=
| Error (msg : jsstring)
| RangeError
| TypeError.

(** A computation that returns or throws. *)
Inductive result (A : Type) : Type :=
| Ok (a : A)
| Throw (e : exn).
Arguments Ok {A} a.
Arguments Throw {A} e.

Definition bind {A B : Type} (m : result A) (k : A -> result B) : result B :=
  match m with
  | Ok a => k a
  | Throw e => Throw e
  end.

Notation "'let*' x ':=' m 'in' k" := (bind m (fun x => k))
  (at level 10, x name, m at level 100, k at level 200).

(* ================================================================== *)
(** * Characters *)
(* ================================================================== *)

Module Chr.

Definition tab : char := 9.
Definition newline : char := 10.
Definition space : char := 32.
Definition plus : char := 43.
Definition comma : char := 44.
Definition hyphen : char := 45.
Definition zero : char := 48.
Definition colon : char := 58.
Definition endash : char := 8211.

(** WhiteSpace and LineTerminator code points of ECMA-262 (the set behind
    [\s] and behind [String.prototype.trim]). *)
Definition whiteSpace : list char :=
  [9; 10; 11; 12; 13; 32; 160; 5760;
   8192; 8193; 8194; 8195; 8196; 8197; 8198; 8199; 8200; 8201; 8202;
   8232; 8233; 8239; 8287; 12288; 65279].

Definition isSpace (c : char) : bool := existsb (Z.eqb c) whiteSpace.

Definition isDigit (c : char) : bool := (48 <=? c) && (c <=? 57).

Definition digitValue (c : char) : Z := c - 48.

Definition digitChar (d : Z) : char := 48 + d.

(** Lower-casing of one code unit.  Only the ASCII letters are mapped;
    the strings this program lower-cases are regular-expression captures
    made of digits, [:], white space and the letters a, m, p. *)
Definition toLower (c : char) : char :=
  if (65 <=? c) && (c <=? 90) then c + 32 else c.

(** Canonicalize of ECMA-262 (22.2.5.6) for a pattern without the [u]
    flag: upper-casing when [ignoreCase] is set.  A code unit above 127
    never canonicalizes to an ASCII one, so on the ASCII pattern
    characters of this program only the ASCII letters matter. *)
Definition canonicalize (ignoreCase : bool) (c : char) : char :=
  if ignoreCase && (97 <=? c) && (c <=? 122) then c - 32 else c.

End Chr.

(* ================================================================== *)
(** * String methods *)
(* ================================================================== *)

Module Str.

Fixpoint dropWhile (p : char -> bool) (s : jsstring) : jsstring :=
  match s with
  | [] => []
  | c :: s' => if p c then dropWhile p s' else s
  end.

Fixpoint takeWhile (p : char -> bool) (s : jsstring) : jsstring :=
  match s with
  | [] => []
  | c :: s' => if p c then c :: takeWhile p s' else []
  end.

Definition trimStart (s : jsstring) : jsstring := dropWhile Chr.isSpace s.

Definition trimEnd (s : jsstring) : jsstring :=
  rev (dropWhile Chr.isSpace (rev s)).

(** [String.prototype.trim] *)
Definition trim (s : jsstring) : jsstring := trimEnd (trimStart s).

(** [String.prototype.toLowerCase] *)
Definition toLowerCase (s : jsstring) : jsstring := map Chr.toLower s.

Fixpoint startsWith (p s : jsstring) : bool :=
  match p, s with
  | [], _ => true
  | _ :: _, [] => false
  | a :: p', c :: s' => (a =? c) && startsWith p' s'
  end.

(** [String.prototype.includes] *)
Fixpoint includes (s p : jsstring) : bool :=
  startsWith p s ||
  match s with
  | [] => false
  | _ :: s' => includes s' p
  end.

(** Splitting on a non-empty separator; [skip] counts the code units of a
    separator occurrence that are still to be passed over. *)
Fixpoint splitFrom (sep : jsstring) (skip : nat) (s : jsstring)
  : list jsstring :=
  match s with
  | [] => [[]]
  | c :: s' =>
    match skip with
    | S k => splitFrom sep k s'
    | O =>
      if startsWith sep s
      then [] :: splitFrom sep (length sep - 1) s'
      else match splitFrom sep 0 s' with
           | p :: ps => (c :: p) :: ps
           | [] => [[c]]
           end
    end
  end.

(** [String.prototype.split] with a string separator and no limit: the
    empty separator splits into code units. *)
Definition split (s sep : jsstring) : list jsstring :=
  match sep with
  | [] => map (fun c => [c]) s
  | _ :: _ => splitFrom sep 0 s
  end.

(** [Array.prototype.join] on an array of strings. *)
Fixpoint join (l : list jsstring) (sep : jsstring) : jsstring :=
  match l with
  | [] => []
  | [x] => x
  | x :: l' => x ++ sep ++ join l' sep
  end.

(** [String.prototype.padStart] *)
Definition padStart (s : jsstring) (maxLength : nat) (fill : jsstring)
  : jsstring :=
  if (maxLength <=? length s)%nat then s
  else match fill with
       | [] => s
       | _ :: _ =>
         let fillLen := (maxLength - length s)%nat in
         firstn fillLen (concat (repeat fill fillLen)) ++ s
       end.

End Str.

(* ================================================================== *)
(** * Numbers as text *)
(* ================================================================== *)

Module Number.

(** Decimal value of a run of digits, most significant first. *)
Definition decimal (ds : jsstring) : Z :=
  fold_left (fun acc c => 10 * acc + Chr.digitValue c) ds 0.

(** [parseInt(s, 10)]: leading white space is skipped, a sign is read,
    then the longest run of digits; no digit at all gives NaN. *)
Definition parseInt (s : jsstring) : number :=
  let s1 := Str.trimStart s in
  let '(sign, s2) :=
    match s1 with
    | c :: s' => if c =? Chr.hyphen then (-1, s')
                 else if c =? Chr.plus then (1, s')
                 else (1, s1)
    | [] => (1, s1)
    end in
  match Str.takeWhile Chr.isDigit s2 with
  | [] => NaN
  | ds => Num (sign * decimal ds)
  end.

(** Digits of a non-negative integer.  The fuel bounds the number of
    digits: [n < 10 ^ fuel] is enough. *)
Fixpoint digits (fuel : nat) (n : Z) : jsstring :=
  match fuel with
  | O => []
  | S fuel' =>
    if n <? 10 then [Chr.digitChar n]
    else digits fuel' (n / 10) ++ [Chr.digitChar (n mod 10)]
  end.

Definition digitsFuel (n : Z) : nat := S (Z.to_nat (Z.log2 n)).

(** [Number.prototype.toString()] on an integer below 10^21 in absolute
    value, and on NaN. *)
Definition toString (n : number) : jsstring :=
  match n with
  | NaN => str "NaN"
  | Num z =>
    if z <? 0 then Chr.hyphen :: digits (digitsFuel (- z)) (- z)
    else digits (digitsFuel z) z
  end.

End Number.

(* ================================================================== *)
(** * Regular expressions *)
(* ================================================================== *)

Module Regex.

(** A set of characters: one atom of a pattern that consumes one code
    unit. *)
Inductive cset : Type :=
| CLit (c : char)          (* a pattern character *)
| CSet (cs : list char)    (* [...] *)
| CDigit                   (* \d *)
| CSpace.                  (* \s *)

(** The patterns of the program use no more than this. *)
Inductive regex : Type :=
| RChar (c : cset)
| RSeq (r1 r2 : regex)
| RAlt (r1 r2 : regex)                                (* r1|r2 *)
| RQuant (min : nat) (max : option nat) (r : regex)   (* greedy r{min,max} *)
| RGroup (i : nat) (r : regex)                        (* capturing group i *)
| RBol.                                               (* ^ *)

Declare Scope regex_scope.
Delimit Scope regex_scope with re.
Notation "a ;; b" := (RSeq a b) (at level 61, right associativity)
  : regex_scope.
Notation "a <|> b" := (RAlt a b) (at level 62, right associativity)
  : regex_scope.

(** r?  r+  r{n}  r{n,m} *)
Definition opt (r : regex) : regex := RQuant 0 (Some 1%nat) r.
Definition plus (r : regex) : regex := RQuant 1 None r.
Definition times (n : nat) (r : regex) : regex := RQuant n (Some n) r.
Definition between (n m : nat) (r : regex) : regex := RQuant n (Some m) r.
Definition lit (c : char) : regex := RChar (CLit c).

(** The matcher's state: the index reached in the input, the input from
    there on, and the captures made so far (latest first). *)
Record state : Type := mkState {
  pos : nat;
  rest : jsstring;
  caps : list (nat * jsstring)
}.

Definition csetMatch (ignoreCase : bool) (cs : cset) (c : char) : bool :=
  match cs with
  | CLit a => Chr.canonicalize ignoreCase a =? Chr.canonicalize ignoreCase c
  | CSet l =>
    existsb (fun a => Chr.canonicalize ignoreCase a
                      =? Chr.canonicalize ignoreCase c) l
  | CDigit => Chr.isDigit c
  | CSpace => Chr.isSpace c
  end.

(** RepeatMatcher of ECMA-262 (22.2.2.3.1) for a greedy quantifier: [m] is
    the matcher of the quantified atom, and an iteration that consumes
    nothing once [min] is reached is cut off.  The end states come in
    backtracking order: the longer repetitions first. *)
Fixpoint repeatMatcher (m : state -> list state) (fuel min : nat)
  (max : option nat) (x : state) : list state :=
  match max with
  | Some O => [x]
  | _ =>
    match fuel with
    | O => []
    | S fuel' =>
      let d (y : state) :=
        if (min =? 0)%nat && (pos y =? pos x)%nat then []
        else repeatMatcher m fuel' (pred min) (option_map pred max) y in
      let z := flat_map d (m x) in
      if (min =? 0)%nat then z ++ [x] else z
    end
  end.

(** Iterations a quantifier can make from [x]: [max] of them when it is
    bounded; otherwise [min] and then one per code unit left, because of
    the cut on empty iterations. *)
Definition quantFuel (min : nat) (max : option nat) (x : state) : nat :=
  match max with
  | Some n => n
  | None => S (min + length (rest x))
  end.

(** All the ways [r] matches from [x], best first. *)
Fixpoint run (ignoreCase : bool) (r : regex) (x : state) : list state :=
  match r with
  | RChar cs =>
    match rest x with
    | c :: s =>
      if csetMatch ignoreCase cs c then [mkState (S (pos x)) s (caps x)]
      else []
    | [] => []
    end
  | RSeq r1 r2 => flat_map (run ignoreCase r2) (run ignoreCase r1 x)
  | RAlt r1 r2 => run ignoreCase r1 x ++ run ignoreCase r2 x
  | RQuant min max r1 =>
    repeatMatcher (run ignoreCase r1) (quantFuel min max x) min max x
  | RGroup i r1 =>
    map (fun y => mkState (pos y) (rest y)
                    ((i, firstn (pos y - pos x) (rest x)) :: caps y))
        (run ignoreCase r1 x)
  | RBol => if (pos x =? 0)%nat then [x] else []
  end.

(** A pattern with its flags. *)
Record RegExp : Type := mkRegExp {
  source : regex;
  ignoreCase : bool
}.

(** What [exec] returns on success. *)
Record matchArray : Type := mkMatch {
  index : nat;
  matched : jsstring;                (* element 0 *)
  captures : list (nat * jsstring)   (* elements 1, 2, ... *)
}.

(** The search loop of RegExpBuiltinExec for a pattern that is neither
    global nor sticky: the matcher is tried at index 0, 1, ... up to the
    length of the input, and the first success wins.  [s] is the input
    from index [i] on. *)
Fixpoint execFrom (re : RegExp) (i : nat) (s : jsstring)
  : option matchArray :=
  match run (ignoreCase re) (source re) (mkState i s []) with
  | y :: _ => Some (mkMatch i (firstn (pos y - i) s) (caps y))
  | [] =>
    match s with
    | [] => None
    | _ :: s' => execFrom re (S i) s'
    end
  end.

(** [String.prototype.match] with such a pattern ([null] is [None]). *)
Definition exec (s : jsstring) (re : RegExp) : option matchArray :=
  execFrom re 0 s.

(** Element [i] of a match array, for [i] from 1 on. *)
Fixpoint assoc (i : nat) (l : list (nat * jsstring)) : option jsstring :=
  match l with
  | [] => None
  | (j, v) :: l' => if (i =? j)%nat then Some v else assoc i l'
  end.

Definition group (m : matchArray) (i : nat) : option jsstring :=
  assoc i (captures m).

(** [String.prototype.replace] with such a pattern and a replacement text
    free of [$]: the first match is replaced. *)
Definition replace (s : jsstring) (re : RegExp) (by_ : jsstring)
  : jsstring :=
  match exec s re with
  | None => s
  | Some m =>
    firstn (index m) s ++ by_ ++ skipn (index m + length (matched m)) s
  end.

End Regex.

(* ================================================================== *)
(** * Dates (ECMA-262, 21.4.1) *)
(* ================================================================== *)

Module Date.

Definition msPerSecond : Z := 1000.
Definition msPerMinute : Z := 60000.
Definition msPerHour : Z := 3600000.
Definition msPerDay : Z := 86400000.

Definition Day (t : Z) : Z := t / msPerDay.
Definition TimeWithinDay (t : Z) : Z := t mod msPerDay.

Definition DaysInYear (y : Z) : Z :=
  if negb (y mod 4 =? 0) then 365
  else if negb (y mod 100 =? 0) then 366
  else if negb (y mod 400 =? 0) then 365
  else 366.

Definition DayFromYear (y : Z) : Z :=
  365 * (y - 1970) + (y - 1969) / 4 - (y - 1901) / 100 + (y - 1601) / 400.

Definition TimeFromYear (y : Z) : Z := msPerDay * DayFromYear y.

(** The largest [y] with [TimeFromYear y <= t]: an estimate from the mean
    length of a year, which is off by one at most, then the adjustment. *)
Definition YearFromTime (t : Z) : Z :=
  let y := 1970 + (Day t * 400) / 146097 in
  if Day t <? DayFromYear y then y - 1
  else if DayFromYear (y + 1) <=? Day t then y + 1
  else y.

Definition InLeapYear (t : Z) : Z :=
  if DaysInYear (YearFromTime t) =? 366 then 1 else 0.

Definition DayWithinYear (t : Z) : Z := Day t - DayFromYear (YearFromTime t).

Definition MonthFromTime (t : Z) : Z :=
  let d := DayWithinYear t in
  let leap := InLeapYear t in
  if d <? 31 then 0
  else if d <? 59 + leap then 1
  else if d <? 90 + leap then 2
  else if d <? 120 + leap then 3
  else if d <? 151 + leap then 4
  else if d <? 181 + leap then 5
  else if d <? 212 + leap then 6
  else if d <? 243 + leap then 7
  else if d <? 273 + leap then 8
  else if d <? 304 + leap then 9
  else if d <? 334 + leap then 10
  else 11.

Definition DateFromTime (t : Z) : Z :=
  let d := DayWithinYear t in
  let leap := InLeapYear t in
  match MonthFromTime t with
  | 0 => d + 1
  | 1 => d - 30
  | 2 => d - 58 - leap
  | 3 => d - 89 - leap
  | 4 => d - 119 - leap
  | 5 => d - 150 - leap
  | 6 => d - 180 - leap
  | 7 => d - 211 - leap
  | 8 => d - 242 - leap
  | 9 => d - 272 - leap
  | 10 => d - 303 - leap
  | _ => d - 333 - leap
  end.

Definition HourFromTime (t : Z) : Z := (t / msPerHour) mod 24.
Definition MinFromTime (t : Z) : Z := (t / msPerMinute) mod 60.
Definition SecFromTime (t : Z) : Z := (t / msPerSecond) mod 60.
Definition msFromTime (t : Z) : Z := t mod msPerSecond.

Definition MakeTime (hour min sec ms : number) : number :=
  match hour, min, sec, ms with
  | Num h, Num m, Num s, Num milli =>
    Num (h * msPerHour + m * msPerMinute + s * msPerSecond + milli)
  | _, _, _, _ => NaN
  end.

Definition MakeDate (day : Z) (time : number) : number :=
  match time with
  | Num tm => Num (day * msPerDay + tm)
  | NaN => NaN
  end.

Definition maxTime : Z := 8640000000000000.

Definition TimeClip (time : number) : number :=
  match time with
  | Num t => if maxTime <? Z.abs t then NaN else Num t
  | NaN => NaN
  end.

(** A Date object is its time value; the program never shares one that it
    mutates ([setTime] works on its own copy). *)
Definition Date := number.

(** [new Date(date)] *)
Definition copy (d : Date) : Date := TimeClip d.

Definition getter (f : Z -> Z) (d : Date) : number :=
  match d with
  | Num t => Num (f t)
  | NaN => NaN
  end.

Definition getUTCFullYear : Date -> number := getter YearFromTime.
Definition getUTCMonth : Date -> number := getter MonthFromTime.
Definition getUTCDate : Date -> number := getter DateFromTime.
Definition getUTCHours : Date -> number := getter HourFromTime.
Definition getUTCMinutes : Date -> number := getter MinFromTime.
Definition getUTCSeconds : Date -> number := getter SecFromTime.

(** Days before each month of a common year, for [MakeDay]. *)
Definition daysBeforeMonth (leap m : Z) : Z :=
  match m with
  | 0 => 0
  | 1 => 31
  | 2 => 59 + leap
  | 3 => 90 + leap
  | 4 => 120 + leap
  | 5 => 151 + leap
  | 6 => 181 + leap
  | 7 => 212 + leap
  | 8 => 243 + leap
  | 9 => 273 + leap
  | 10 => 304 + leap
  | _ => 334 + leap
  end.

Definition MakeDay (year month date : Z) : Z :=
  let ym := year + month / 12 in
  let mn := month mod 12 in
  let leap := if DaysInYear ym =? 366 then 1 else 0 in
  DayFromYear ym + daysBeforeMonth leap mn + date - 1.

(** [new Date(Date.UTC(year, month, date, hours, minutes, seconds))],
    which is also what [new Date('YYYY-MM-DDTHH:mm:ssZ')] denotes
    ([month] counts from 0). *)
Definition utc (year month date hours minutes seconds : Z) : Date :=
  TimeClip (MakeDate (MakeDay year month date)
              (MakeTime (Num hours) (Num minutes) (Num seconds) (Num 0))).

Section Host.

(** The host's time zone: [LocalTZA t isUTC] is the offset of local time
    from UTC in milliseconds, at UTC time [t] when [isUTC] holds and at
    local time [t] otherwise. *)
Variable LocalTZA : Z -> bool -> Z.

Definition LocalTime (t : Z) : Z := t + LocalTZA t true.
Definition UTC (t : Z) : Z := t - LocalTZA t false.

(** [d.setHours(hour, min, sec, ms)]: the new time value of [d]. *)
Definition setHours (d : Date) (hour min sec ms : number) : Date :=
  match d with
  | NaN => NaN
  | Num t0 =>
    let t := LocalTime t0 in
    match MakeDate (Day t) (MakeTime hour min sec ms) with
    | NaN => NaN
    | Num date => TimeClip (Num (UTC date))
    end
  end.

End Host.

(** A host whose local time is UTC. *)
Definition utcHost : Z -> bool -> Z := fun _ _ => 0.

(** A host at a fixed offset of [h] hours from UTC. *)
Definition fixedOffsetHost (h : Z) : Z -> bool -> Z :=
  fun _ _ => h * msPerHour.

Definition pad (width : nat) (n : Z) : jsstring :=
  Str.padStart (Number.toString (Num n)) width (str "0").

(** [d.toISOString()]: YYYY-MM-DDTHH:mm:ss.sssZ, the year with a sign and
    six digits outside 0..9999; a RangeError on an invalid date. *)
Definition toISOString (d : Date) : result jsstring :=
  match d with
  | NaN => Throw RangeError
  | Num t =>
    let y := YearFromTime t in
    let year :=
      if (0 <=? y) && (y <=? 9999) then pad 4 y
      else (if y <? 0 then Chr.hyphen else Chr.plus) :: pad 6 (Z.abs y) in
    Ok (year ++ str "-" ++ pad 2 (MonthFromTime t + 1)
             ++ str "-" ++ pad 2 (DateFromTime t)
             ++ str "T" ++ pad 2 (HourFromTime t)
             ++ str ":" ++ pad 2 (MinFromTime t)
             ++ str ":" ++ pad 2 (SecFromTime t)
             ++ str "." ++ pad 3 (msFromTime t) ++ str "Z")
  end.

End Date.

(* ================================================================== *)
(** * The program: [src/recurrenceConverters.ts] *)
(* ================================================================== *)

Import Regex.
Open Scope regex_scope.

(** Number operators the program applies to [hours]. *)
Definition lt (a b : number) : bool :=
  match a, b with
  | Num x, Num y => x <? y
  | _, _ => false
  end.

Definition strictEq (a b : number) : bool :=
  match a, b with
  | Num x, Num y => x =? y
  | _, _ => false
  end.

Definition add (a b : number) : number :=
  match a, b with
  | Num x, Num y => Num (x + y)
  | _, _ => NaN
  end.

Fixpoint strEq (a b : jsstring) : bool :=
  match a, b with
  | [], [] => true
  | x :: a', y :: b' => (x =? y) && strEq a' b'
  | _, _ => false
  end.

(** An object literal with string values, and [o[k]] on it ([undefined]
    is [None]); no key the program looks up is on [Object.prototype]. *)
Definition object := list (jsstring * jsstring).

Fixpoint get (o : object) (k : jsstring) : option jsstring :=
  match o with
  | [] => None
  | (k', v) :: o' => if strEq k k' then Some v else get o' k
  end.

(** Mapping for days letters to RFC-compliant two-letter codes. *)
Definition dayMap : object :=
  [ (str "M", str "MO");
    (str "T", str "TU");
    (str "W", str "WE");
    (str "R", str "TH");
    (str "F", str "FR");
    (str "S", str "SA");
    (str "U", str "SU") ].

Record clock : Type := mkClock {
  hours : number;
  minutes : number
}.

Record RecurrencePattern : Type := mkPattern {
  days : list jsstring;
  startTime : clock;
  endTime : clock
}.

(** [/^([MTWRFSU]+)\s/] *)
Definition dayRe : RegExp :=
  mkRegExp (RBol ;; RGroup 1 (plus (RChar (CSet (str "MTWRFSU"))))
                 ;; RChar CSpace)
           false.

(** [(?:am|pm)] *)
Definition amOrPm : regex :=
  (lit (chr "a") ;; lit (chr "m")) <|> (lit (chr "p") ;; lit (chr "m")).

(** [\d{1,2}(?::\d{2})?\s?(?:am|pm)?] *)
Definition clockText : regex :=
  between 1 2 (RChar CDigit)
  ;; opt (lit Chr.colon ;; times 2 (RChar CDigit))
  ;; opt (RChar CSpace)
  ;; opt amOrPm.

(** [(\d{1,2}(?::\d{2})?\s?(?:am|pm)?)] as group [i] *)
Definition timeToken (i : nat) : regex := RGroup i clockText.

(** [/(\d{1,2}(?::\d{2})?\s?(?:am|pm)?)[-–](\d{1,2}(?::\d{2})?\s?(?:am|pm)?)/i] *)
Definition timeRe : RegExp :=
  mkRegExp (timeToken 1 ;; RChar (CSet [Chr.hyphen; Chr.endash])
                        ;; timeToken 2)
           true.

(** [/\s?(am|pm)/] *)
Definition periodRe : RegExp :=
  mkRegExp (opt (RChar CSpace) ;; RGroup 1 amOrPm) false.

(** [s.m(...)] where [s] may be [undefined]. *)
Definition defined (s : option jsstring) : result jsstring :=
  match s with
  | Some v => Ok v
  | None => Throw TypeError
  end.

(** [parts[1] ? parseInt(parts[1], 10) : 0] *)
Definition minutesOf (parts : list jsstring) : number :=
  match nth_error parts 1 with
  | Some ((_ :: _) as p) => Number.parseInt p
  | _ => Num 0
  end.

(** [parseInt(parts[0], 10)] *)
Definition hoursOf (parts : list jsstring) : number :=
  match nth_error parts 0 with
  | Some p => Number.parseInt p
  | None => NaN
  end.

Definition parseTime (timeStr : jsstring) : clock :=
  let timeStr := Str.toLowerCase (Str.trim timeStr) in
  if Str.includes timeStr (str "am") || Str.includes timeStr (str "pm")
  then
    (* Remove the am/pm suffix and note the period. *)
    let pm := Str.includes timeStr (str "pm") in
    let timeStr := Regex.replace timeStr periodRe [] in
    let parts := Str.split timeStr (str ":") in
    let hours := hoursOf parts in
    let minutes := minutesOf parts in
    (* Convert to 24-hour format. *)
    let hours := if pm && lt hours (Num 12) then add hours (Num 12)
                 else hours in
    let hours := if negb pm && strictEq hours (Num 12) then Num 0
                 else hours in
    mkClock hours minutes
  else
    (* Assume 24-hour time. *)
    let parts := Str.split timeStr (str ":") in
    mkClock (hoursOf parts) (minutesOf parts).

(** The callback of [daysStr.split('').map(...)]. *)
Definition dayCode (letter : jsstring) : result jsstring :=
  match get dayMap letter with
  | Some ((_ :: _) as code) => Ok code
  | _ => Throw (Error (str "Unsupported day letter: " ++ letter))
  end.

(** [Array.prototype.map] with a callback that may throw. *)
Fixpoint mapM {A B : Type} (f : A -> result B) (l : list A)
  : result (list B) :=
  match l with
  | [] => Ok []
  | a :: l' =>
    let* b := f a in
    let* bs := mapM f l' in
    Ok (b :: bs)
  end.

Definition parseRecurrenceString (recurrence : jsstring)
  : result RecurrencePattern :=
  (* Match the day letters at the beginning. *)
  match Regex.exec recurrence dayRe with
  | None => Throw (Error (str "Invalid recurrence string: days not found"))
  | Some dayMatch =>
    let* daysStr := defined (group dayMatch 1) in
    (* Map each letter to its RFC representation. *)
    let* days := mapM dayCode (Str.split daysStr []) in
    (* Match the time range. *)
    match Regex.exec recurrence timeRe with
    | None =>
      Throw (Error (str "Invalid recurrence string: times not found"))
    | Some timeMatch =>
      let* t1 := defined (group timeMatch 1) in
      let startTime := parseTime t1 in
      let* t2 := defined (group timeMatch 2) in
      let endTime := parseTime t2 in
      Ok (mkPattern days startTime endTime)
    end
  end.

(** [const pad = (n: number) => n.toString().padStart(2, '0')] *)
Definition pad (n : number) : jsstring :=
  Str.padStart (Number.toString n) 2 (str "0").

(** Utility to format a Date into a string like "YYYYMMDDTHHmmss" (UTC) *)
Definition formatDateTo5545 (date : Date.Date) : jsstring :=
  Number.toString (Date.getUTCFullYear date)
  ++ pad (add (Date.getUTCMonth date) (Num 1))
  ++ pad (Date.getUTCDate date)
  ++ str "T"
  ++ pad (Date.getUTCHours date)
  ++ pad (Date.getUTCMinutes date)
  ++ pad (Date.getUTCSeconds date)
  ++ str "Z".

(** The JSON object [parseTo8984] builds. *)
Record recurrenceRule : Type := mkRule {
  frequency : jsstring;
  byDay : list jsstring;
  until : jsstring
}.

Record event8984 : Type := mkEvent {
  dtstart : jsstring;
  dtend : jsstring;
  recurrence : recurrenceRule
}.

Section Host.

Variable LocalTZA : Z -> bool -> Z.

(** Given a base date, return a new Date with the same date but with time
    set to given hours and minutes. *)
Definition setTime (date : Date.Date) (hours minutes : number) : Date.Date :=
  let newDate := Date.copy date in
  Date.setHours LocalTZA newDate hours minutes (Num 0) (Num 0).

(** The template literal bound to [rrule] in [parseTo5545]: FREQ=WEEKLY,
    the days as BYDAY, the end of the period as UNTIL. *)
Definition rruleLine (pattern : RecurrencePattern) (endDate : Date.Date)
  : jsstring :=
  str "RRULE:FREQ=WEEKLY;BYDAY=" ++ Str.join (days pattern) (str ",")
  ++ str ";UNTIL=" ++ formatDateTo5545 endDate.

Definition parseTo5545 (startDate endDate : Date.Date)
  (recurrenceString : jsstring) : result jsstring :=
  let* pattern := parseRecurrenceString recurrenceString in
  let dtStart := setTime startDate (hours (startTime pattern))
                                   (minutes (startTime pattern)) in
  let dtEnd := setTime startDate (hours (endTime pattern))
                                 (minutes (endTime pattern)) in
  let rrule := rruleLine pattern endDate in
  let icalString :=
    Str.join [ str "BEGIN:VEVENT";
               str "DTSTART:" ++ formatDateTo5545 dtStart;
               str "DTEND:" ++ formatDateTo5545 dtEnd;
               rrule;
               str "END:VEVENT" ]
             [Chr.newline] in
  Ok icalString.

Definition parseTo8984 (startDate endDate : Date.Date)
  (recurrenceString : jsstring) : result event8984 :=
  let* pattern := parseRecurrenceString recurrenceString in
  let eventStart := setTime startDate (hours (startTime pattern))
                                      (minutes (startTime pattern)) in
  let eventEnd := setTime startDate (hours (endTime pattern))
                                    (minutes (endTime pattern)) in
  let* dtstart := Date.toISOString eventStart in
  let* dtend := Date.toISOString eventEnd in
  let* until := Date.toISOString endDate in
  Ok (mkEvent dtstart dtend (mkRule (str "WEEKLY") (days pattern) until)).

End Host.

(** The period of the example at the end of the source (and of the test
    file): 2025-03-10T00:00:00Z to 2025-06-10T23:59:59Z. *)
Definition startDate : Date.Date := Date.utc 2025 2 10 0 0 0.
Definition endDate : Date.Date := Date.utc 2025 5 10 23 59 59.

(* ================================================================== *)
(** * Specification vocabulary *)
(* ================================================================== *)

(** ** The language of a pattern

    [lang ic r w]: the pattern [r] can consume exactly the word [w]
    (captures and priorities left aside; [^] consumes nothing). *)

Fixpoint power (L : jsstring -> Prop) (n : nat) (w : jsstring) : Prop :=
  match n with
  | O => w = []
  | S n' => exists w1 w2, w = w1 ++ w2 /\ L w1 /\ power L n' w2
  end.

Definition countOk (min : nat) (max : option nat) (n : nat) : Prop :=
  match max with
  | Some mx => (Nat.min min mx <= n <= mx)%nat
  | None => (min <= n)%nat
  end.

Fixpoint lang (ic : bool) (r : regex) (w : jsstring) : Prop :=
  match r with
  | RChar cs => exists c, w = [c] /\ csetMatch ic cs c = true
  | RSeq r1 r2 =>
    exists w1 w2, w = w1 ++ w2 /\ lang ic r1 w1 /\ lang ic r2 w2
  | RAlt r1 r2 => lang ic r1 w \/ lang ic r2 w
  | RQuant min max r1 =>
    exists n, countOk min max n /\ power (lang ic r1) n w
  | RGroup _ r1 => lang ic r1 w
  | RBol => w = []
  end.

(** [y] is reached from [x] by consuming [w]. *)
Definition consumes (x y : state) (w : jsstring) : Prop :=
  rest x = w ++ rest y /\ pos y = (pos x + length w)%nat.

Fixpoint groupFree (r : regex) : bool :=
  match r with
  | RChar _ | RBol => true
  | RSeq r1 r2 | RAlt r1 r2 => groupFree r1 && groupFree r2
  | RQuant _ _ r1 => groupFree r1
  | RGroup _ _ => false
  end.

Fixpoint anchorFree (r : regex) : bool :=
  match r with
  | RChar _ => true
  | RBol => false
  | RSeq r1 r2 | RAlt r1 r2 => anchorFree r1 && anchorFree r2
  | RQuant _ _ r1 | RGroup _ r1 => anchorFree r1
  end.


(** What a greedy, unbounded repetition of a one-character atom yields:
    the end states after the whole run of matching characters, then after
    one less, ..., down to none. *)
Fixpoint greedy (p : char -> bool) (i : nat) (s : jsstring)
  (c : list (nat * jsstring)) : list state :=
  match s with
  | a :: s' =>
    if p a then greedy p (S i) s' c ++ [mkState i s c]
    else [mkState i s c]
  | [] => [mkState i [] c]
  end.

(** ** The shape of a time token *)

Definition isDash (c : char) : bool :=
  (c =? Chr.hyphen) || (c =? Chr.endash).

(** One or two digits. *)
Definition isHourText (h : jsstring) : Prop :=
  (exists a, h = [a] /\ Chr.isDigit a = true) \/
  (exists a b, h = [a; b] /\ Chr.isDigit a = true /\ Chr.isDigit b = true).

(** Nothing, or a colon and two digits; [m] is the digits. *)
Definition isMinuteText (mm m : jsstring) : Prop :=
  (mm = [] /\ m = []) \/
  (exists a b, mm = [Chr.colon; a; b] /\ m = [a; b] /\
               Chr.isDigit a = true /\ Chr.isDigit b = true).

(** Nothing, or one white-space character. *)
Definition isGap (g : jsstring) : Prop :=
  g = [] \/ exists w, g = [w] /\ Chr.isSpace w = true.

(** The am/pm markers, in any mix of cases. *)
Inductive period : Type := AM | PM.

(** The lower-case ASCII letter [l], in either case. *)
Definition isLetter (l c : char) : Prop := c = l \/ c = l - 32.

Definition isMarker (p : period) (k : jsstring) : Prop :=
  exists a m, k = [a; m] /\
    isLetter (match p with AM => chr "a" | PM => chr "p" end) a /\
    isLetter (chr "m") m.

(** A time token: hour digits [h], minute digits [m] (none when the
    token has no minutes) and the marker [k], if any. *)
Definition tokenShape (tok h m : jsstring) (k : option period) : Prop :=
  exists mm g kk,
    tok = h ++ mm ++ g ++ kk /\ isHourText h /\ isMinuteText mm m /\
    isGap g /\
    match k with
    | Some p => isMarker p kk
    | None => kk = []
    end.

(** A character of the hours and minutes of a token. *)
Definition isNumeric (c : char) : Prop :=
  Chr.isDigit c = true \/ c = Chr.colon.

(** The markers in lower case. *)
Definition lowerMarker (p : period) : jsstring :=
  match p with
  | AM => str "am"
  | PM => str "pm"
  end.

(** The hour on the 24-hour clock that the 12-hour clock reading [h]
    with marker [p] stands for: pm adds 12 below 12, 12 am is 0. *)
Definition to24 (p : period) (h : Z) : Z :=
  match p with
  | PM => if h <? 12 then h + 12 else h
  | AM => if h =? 12 then 0 else h
  end.

(** Minutes default to 0. *)
Definition minuteValue (m : jsstring) : Z :=
  match m with
  | [] => 0
  | _ => Number.decimal m
  end.

(** The code's test for a marker in a token. *)
Definition hasMarker (tok : jsstring) : bool :=
  let t := Str.toLowerCase (Str.trim tok) in
  Str.includes t (str "am") || Str.includes t (str "pm").

(** ** Days *)

Definition isDayLetter (c : char) : bool :=
  existsb (Z.eqb c) (str "MTWRFSU").

(** The Day Code Table translation of a letter. *)
Definition translate (c : char) : jsstring :=
  match get dayMap [c] with
  | Some code => code
  | None => []
  end.


(** ** Text *)

Definition lines (text : jsstring) : list jsstring :=
  Str.split text [Chr.newline].

Definition noNewline (s : jsstring) : Prop := ~ In Chr.newline s.

(** The five lines of the iCalendar block. *)
Definition block (LocalTZA : Z -> bool -> Z) (startDate endDate : Date.Date)
  (p : RecurrencePattern) : list jsstring :=
  [ str "BEGIN:VEVENT";
    str "DTSTART:"
    ++ formatDateTo5545 (setTime LocalTZA startDate (hours (startTime p))
                           (minutes (startTime p)));
    str "DTEND:"
    ++ formatDateTo5545 (setTime LocalTZA startDate (hours (endTime p))
                           (minutes (endTime p)));
    rruleLine p endDate;
    str "END:VEVENT" ].

(** Two decimal digits. *)
Definition two (n : Z) : jsstring :=
  [Chr.digitChar (n / 10); Chr.digitChar (n mod 10)].

(** Four decimal digits. *)
Definition four (n : Z) : jsstring :=
  [Chr.digitChar (n / 1000); Chr.digitChar (n / 100 mod 10);
   Chr.digitChar (n / 10 mod 10); Chr.digitChar (n mod 10)].


(** The three messages of the parser. *)
Definition daysNotFound : exn :=
  Error (str "Invalid recurrence string: days not found").
Definition timesNotFound : exn :=
  Error (str "Invalid recurrence string: times not found").
Definition unsupportedDayLetter (letter : jsstring) : exn :=
  Error (str "Unsupported day letter: " ++ letter).

(** A Date that holds a time value. *)
Definition validDate (d : Date.Date) : Prop := d <> NaN.

(** ** The test file

    The recurrence strings of [recurrenceConverters.test.ts], and what its
    two tests expect of each of them. *)
Definition testRecurrenceStrings : list jsstring :=
  map str
    [ "TR 11am-12:15pm"; "TR 2pm-3:15pm"; "M 8am-9:40am"; "M 10am-11:40am";
      "M 12pm-1:40pm"; "M 2pm-3:40pm"; "M 4pm-5:40pm"; "T 8am-9:40am";
      "T 10am-11:40am"; "T 12pm-1:40pm"; "T 2pm-3:40pm"; "T 4pm-5:40pm";
      "W 8am-9:40am"; "W 10am-11:40am"; "W 12pm-1:40pm"; "W 2pm-3:40pm";
      "R 8am-9:40am"; "R 10am-11:40am"; "R 12pm-1:40pm"; "R 2pm-3:40pm";
      "R 4pm-5:40pm"; "F 8am-9:40am"; "F 10am-11:40am"; "F 12pm-1:40pm";
      "W 4pm-5:40pm"; "M 12pm-1:40pm"; "M 2pm-3:40pm"; "T 10am-11:50am";
      "W 12pm-1:40pm"; "TR 2pm-3:15pm"; "TR 11am-12:15pm"; "F 1pm-3:50pm";
      "W 4pm-6:50pm"; "M 2pm-3:15pm" ]%string.

Definition test5545 (LocalTZA : Z -> bool -> Z) (r : jsstring) : bool :=
  match parseTo5545 LocalTZA startDate endDate r with
  | Ok output =>
    forallb (Str.includes output)
      [ str "BEGIN:VEVENT"; str "DTSTART:"; str "DTEND:"; str "RRULE:";
        str "UNTIL="; str "END:VEVENT" ]
  | Throw _ => false
  end.

Definition test8984 (LocalTZA : Z -> bool -> Z) (r : jsstring) : bool :=
  match parseTo8984 LocalTZA startDate endDate r with
  | Ok output => strEq (frequency (recurrence output)) (str "WEEKLY")
  | Throw _ => false
  end.

(** ** Vocabulary of the further properties *)

(** ** Patterns whose matcher finds every word of the language *)

(** [r] can match without consuming anything. *)
Fixpoint nullable (r : regex) : bool :=
  match r with
  | RChar _ => false
  | RSeq r1 r2 => nullable r1 && nullable r2
  | RAlt r1 r2 => nullable r1 || nullable r2
  | RQuant min max r1 =>
    (min =? 0)%nat
    || match max with Some O => true | _ => false end
    || nullable r1
  | RGroup _ r1 => nullable r1
  | RBol => true
  end.

(** No quantified atom of [r] can match without consuming anything (so
    the cut on empty iterations never fires), and the bounds of every
    quantifier are in order. *)
Fixpoint quantOk (r : regex) : bool :=
  match r with
  | RChar _ | RBol => true
  | RSeq r1 r2 | RAlt r1 r2 => quantOk r1 && quantOk r2
  | RQuant min max r1 =>
    negb (nullable r1) && quantOk r1
    && match max with Some mx => (min <=? mx)%nat | None => true end
  | RGroup _ r1 => quantOk r1
  end.

(** A time range: two time tokens around a hyphen or an en-dash. *)
Definition isTimeRange (w : jsstring) : Prop :=
  exists t1 d t2 h1 m1 k1 h2 m2 k2,
    w = t1 ++ d :: t2 /\ tokenShape t1 h1 m1 k1 /\ isDash d = true /\
    tokenShape t2 h2 m2 k2.

(** [s] has a time range somewhere. *)
Definition hasTimeRange (s : jsstring) : Prop :=
  exists pre w post, s = pre ++ w ++ post /\ isTimeRange w.

(** [s] starts with a run of day letters that white space follows. *)
Definition hasDayPrefix (s : jsstring) : Prop :=
  exists d w post,
    s = d ++ w :: post /\ d <> [] /\
    Forall (fun c => isDayLetter c = true) d /\ Chr.isSpace w = true.

(** The seven day codes. *)
Definition dayCodes : list jsstring := map snd dayMap.

(** ** The match the search takes *)

(** The text [r] does not start with a character of the class [p]. *)
Definition startsOff (p : char -> bool) (r : jsstring) : Prop :=
  match r with
  | [] => True
  | c :: _ => p c = false
  end.

(** A character that could carry a time token on: a digit, a colon, a
    white-space character, or the first letter of am or pm. *)
Definition carriesOn (c : char) : bool :=
  Chr.isDigit c || (c =? Chr.colon) || Chr.isSpace c
  || (c =? chr "a") || (c =? chr "A") || (c =? chr "p") || (c =? chr "P").

(** The clock reading of a token with hour digits [h], minute digits [m]
    and marker [k]. *)
Definition clockOf (h m : jsstring) (k : option period) : clock :=
  mkClock (Num (match k with
                | Some p => to24 p (Number.decimal h)
                | None => Number.decimal h
                end))
          (Num (minuteValue m)).

(** ** Hosts *)

(** A host whose local time is at the constant offset [o] (in
    milliseconds) from UTC. *)
Definition constantOffset (LocalTZA : Z -> bool -> Z) (o : Z) : Prop :=
  forall t isUTC, LocalTZA t isUTC = o.

(** A host whose offset from UTC never exceeds a day. *)
Definition offsetWithinADay (LocalTZA : Z -> bool -> Z) : Prop :=
  forall t isUTC, - Date.msPerDay <= LocalTZA t isUTC <= Date.msPerDay.

(** The characters a compact timestamp is made of: digits, the sign of a
    negative year, T and Z, and the letters of NaN. *)
Definition timestampChar (c : char) : bool :=
  Chr.isDigit c || existsb (Z.eqb c) (str "-TZNa").

(** An ISO text YYYY-MM-DDTHH:mm:ss.sssZ without its punctuation and its
    milliseconds: YYYYMMDDTHHmmssZ. *)
Definition compact (iso : jsstring) : jsstring :=
  firstn 4 iso ++ firstn 2 (skipn 5 iso) ++ firstn 2 (skipn 8 iso)
  ++ str "T" ++ firstn 2 (skipn 11 iso) ++ firstn 2 (skipn 14 iso)
  ++ firstn 2 (skipn 17 iso) ++ str "Z".

(** A time value whose UTC year is written with four digits. *)
Definition fourDigitYear (t : Z) : Prop :=
  1000 <= Date.YearFromTime t <= 9999.

(* ================================================================== *)
(** * Facts about lists and strings *)
(* ================================================================== *)

Lemma flat_map_single {A B : Type} (f : A -> list B) (a : A) :
  flat_map f [a] = f a.
Proof. simpl. apply app_nil_r. Qed.

Lemma in_single {A : Type} (a b : A) : In a [b] -> a = b.
Proof. intros [H | []]. now symmetry. Qed.

(* ================================================================== *)
(** * Facts about the matcher *)
(* ================================================================== *)

Lemma succ_neqb (i : nat) : (S i =? i)%nat = false.
Proof. apply Nat.eqb_neq. lia. Qed.

(** The defining equations of [run], for rewriting. *)
Section Equations.

Variable ic : bool.

Lemma run_char (cs : cset) (i : nat) (c : char) (s : jsstring) k :
  run ic (RChar cs) (mkState i (c :: s) k)
  = if csetMatch ic cs c then [mkState (S i) s k] else [].
Proof. reflexivity. Qed.

Lemma run_seq (r1 r2 : regex) (x : state) :
  run ic (RSeq r1 r2) x = flat_map (run ic r2) (run ic r1 x).
Proof. reflexivity. Qed.

Lemma run_alt (r1 r2 : regex) (x : state) :
  run ic (RAlt r1 r2) x = run ic r1 x ++ run ic r2 x.
Proof. reflexivity. Qed.

Lemma run_group (i : nat) (r : regex) (x : state) :
  run ic (RGroup i r) x
  = map (fun y => mkState (pos y) (rest y)
                    ((i, firstn (pos y - pos x) (rest x)) :: caps y))
        (run ic r x).
Proof. reflexivity. Qed.

Lemma run_opt (r : regex) (x : state) :
  run ic (opt r) x
  = flat_map (fun y => if (pos y =? pos x)%nat then [] else [y]) (run ic r x)
    ++ [x].
Proof. reflexivity. Qed.

Lemma run_opt_char (cs : cset) (i : nat) (c : char) (s : jsstring) k :
  run ic (opt (RChar cs)) (mkState i (c :: s) k)
  = if csetMatch ic cs c
    then [mkState (S i) s k; mkState i (c :: s) k]
    else [mkState i (c :: s) k].
Proof.
  rewrite run_opt, run_char. destruct (csetMatch ic cs c); [| reflexivity].
  cbn [flat_map pos app]. now rewrite succ_neqb.
Qed.

(** A literal word at the head of the input. *)
Lemma run_lit2 (a b : char) (i : nat) (c d : char) (s : jsstring) k :
  run ic (lit a ;; lit b) (mkState i (c :: d :: s) k)
  = if csetMatch ic (CLit a) c && csetMatch ic (CLit b) d
    then [mkState (S (S i)) s k] else [].
Proof.
  rewrite run_seq. unfold lit. rewrite run_char.
  destruct (csetMatch ic (CLit a) c); [| reflexivity].
  rewrite flat_map_single, run_char. reflexivity.
Qed.

End Equations.

Section Soundness.

Variable ic : bool.

(** Whatever the matcher of a quantified atom yields, the repetition
    yields a number of iterations within the bounds. *)
Lemma repeatMatcher_sound (m : state -> list state) (L : jsstring -> Prop) :
  (forall x y, In y (m x) -> exists w, L w /\ consumes x y w /\ caps y = caps x) ->
  forall fuel min max x y,
    In y (repeatMatcher m fuel min max x) ->
    exists n w, countOk min max n /\ power L n w /\ consumes x y w
                /\ caps y = caps x.
Proof.
  intros Hm. induction fuel as [| fuel IH]; intros min max x y Hy.
  - destruct max as [[| mx] |]; simpl in Hy; try contradiction.
    apply in_single in Hy. subst y. exists 0%nat, []. unfold consumes.
    simpl. repeat split; lia.
  - assert (Hstop : y = x -> min = 0%nat \/ max = Some 0%nat ->
              exists n w, countOk min max n /\ power L n w /\ consumes x y w
                          /\ caps y = caps x).
    { intros -> Hc. exists 0%nat, []. unfold consumes. simpl.
      repeat split; try lia.
      destruct Hc as [-> | ->]; simpl; [destruct max; simpl; lia |].
      rewrite Nat.min_0_r. lia. }
    assert (Hiter : forall y1, In y1 (m x) -> max <> Some 0%nat ->
              In y (repeatMatcher m fuel (pred min) (option_map pred max) y1) ->
              exists n w, countOk min max n /\ power L n w /\ consumes x y w
                          /\ caps y = caps x).
    { intros y1 H1 Hmax H2.
      destruct (Hm _ _ H1) as (w1 & HL & [Hr1 Hp1] & Hc1).
      destruct (IH _ _ _ _ H2) as (n & w2 & Hn & Hpw & [Hr2 Hp2] & Hc2).
      exists (S n), (w1 ++ w2). repeat split.
      - destruct max as [[| mx] |]; simpl in *; try congruence; lia.
      - simpl. now exists w1, w2.
      - now rewrite Hr1, Hr2, app_assoc.
      - rewrite Hp2, Hp1, length_app. lia.
      - congruence. }
    assert (Hz : In y (flat_map
                (fun y1 => if (min =? 0)%nat && (pos y1 =? pos x)%nat then []
                           else repeatMatcher m fuel (pred min)
                                  (option_map pred max) y1) (m x)) ->
              max <> Some 0%nat ->
              exists n w, countOk min max n /\ power L n w /\ consumes x y w
                          /\ caps y = caps x).
    { intros Hin Hmax. apply in_flat_map in Hin. destruct Hin as (y1 & H1 & H2).
      destruct ((min =? 0)%nat && (pos y1 =? pos x)%nat); [contradiction |].
      eauto. }
    destruct max as [[| mx] |]; simpl in Hy.
    + apply in_single in Hy. auto.
    + destruct (Nat.eqb_spec min 0).
      * apply in_app_or in Hy. destruct Hy as [Hy | Hy].
        -- apply Hz; [exact Hy | discriminate].
        -- apply in_single in Hy. auto.
      * apply Hz; [exact Hy | discriminate].
    + destruct (Nat.eqb_spec min 0).
      * apply in_app_or in Hy. destruct Hy as [Hy | Hy].
        -- apply Hz; [exact Hy | discriminate].
        -- apply in_single in Hy. auto.
      * apply Hz; [exact Hy | discriminate].
Qed.

(** Every end state of a group-free pattern is reached by consuming a
    word of its language, and carries the captures it started with. *)
Lemma run_sound (r : regex) :
  groupFree r = true ->
  forall x y, In y (run ic r x) ->
    exists w, lang ic r w /\ consumes x y w /\ caps y = caps x.
Proof.
  unfold consumes.
  induction r as [cs | r1 IH1 r2 IH2 | r1 IH1 r2 IH2 | min max r1 IH1
                  | i r1 IH1 |]; simpl; intros Hg x y Hy.
  - destruct (rest x) as [| c s] eqn:E; [contradiction |].
    destruct (csetMatch ic cs c) eqn:Ec; [| contradiction].
    apply in_single in Hy. subst y. simpl. exists [c].
    split; [exists c; auto | split; [split; [reflexivity | simpl; lia] | reflexivity]].
  - apply andb_true_iff in Hg. destruct Hg as [G1 G2].
    apply in_flat_map in Hy. destruct Hy as (y1 & H1 & H2).
    destruct (IH1 G1 _ _ H1) as (w1 & L1 & [R1 P1] & C1).
    destruct (IH2 G2 _ _ H2) as (w2 & L2 & [R2 P2] & C2).
    exists (w1 ++ w2). repeat split.
    + now exists w1, w2.
    + now rewrite R1, R2, app_assoc.
    + rewrite P2, P1, length_app. lia.
    + congruence.
  - apply andb_true_iff in Hg. destruct Hg as [G1 G2].
    apply in_app_or in Hy. destruct Hy as [Hy | Hy].
    + destruct (IH1 G1 _ _ Hy) as (w & ? & ? & ?). exists w. auto.
    + destruct (IH2 G2 _ _ Hy) as (w & ? & ? & ?). exists w. auto.
  - destruct (repeatMatcher_sound (run ic r1) (lang ic r1) (IH1 Hg)
                _ _ _ _ _ Hy) as (n & w & Hn & Hp & Hc & Hcaps).
    exists w. repeat split; try apply Hc; eauto.
  - discriminate.
  - destruct (pos x =? 0)%nat; [| contradiction].
    apply in_single in Hy. subst y. exists []. simpl. repeat split. lia.
Qed.

End Soundness.

(* ================================================================== *)
(** * Facts about characters and String methods *)
(* ================================================================== *)

Section CharFacts.

Lemma isSpace_cases (c : char) :
  Chr.isSpace c = true -> In c Chr.whiteSpace.
Proof.
  unfold Chr.isSpace. intros H. apply existsb_exists in H.
  destruct H as (k & Hk & E). apply Z.eqb_eq in E. now subst.
Qed.

Lemma isDigit_range (c : char) : Chr.isDigit c = true <-> 48 <= c <= 57.
Proof. unfold Chr.isDigit. rewrite andb_true_iff, !Z.leb_le. tauto. Qed.

Lemma not_space (c : char) :
  ~ In c Chr.whiteSpace -> Chr.isSpace c = false.
Proof.
  intros H. destruct (Chr.isSpace c) eqn:E; [| reflexivity].
  now apply isSpace_cases in E.
Qed.

Lemma ascii_not_space (c : char) : 33 <= c <= 159 -> Chr.isSpace c = false.
Proof.
  intros H. apply not_space. unfold Chr.whiteSpace. simpl.
  intros K. repeat (destruct K as [K | K]; [lia |]). exact K.
Qed.

Lemma digit_not_space (c : char) :
  Chr.isDigit c = true -> Chr.isSpace c = false.
Proof. rewrite isDigit_range. intros H. apply ascii_not_space. lia. Qed.

Lemma space_not_digit (c : char) :
  Chr.isSpace c = true -> Chr.isDigit c = false.
Proof.
  intros H. destruct (Chr.isDigit c) eqn:E; [| reflexivity].
  apply digit_not_space in E. congruence.
Qed.

Lemma space_range (c : char) :
  Chr.isSpace c = true -> c <= 32 \/ 160 <= c.
Proof.
  intros H. destruct (Z_le_gt_dec c 32); [now left |].
  destruct (Z_le_gt_dec 160 c); [now right |].
  rewrite ascii_not_space in H by lia. discriminate.
Qed.

Lemma toLower_id (c : char) : c < 65 \/ 90 < c -> Chr.toLower c = c.
Proof.
  unfold Chr.toLower. intros H.
  destruct (65 <=? c) eqn:A; destruct (c <=? 90) eqn:B; simpl; try reflexivity.
  apply Z.leb_le in A, B. lia.
Qed.

Lemma canonicalize_false (c : char) : Chr.canonicalize false c = c.
Proof. reflexivity. Qed.

Lemma canonicalize_true_id (c : char) :
  c < 97 \/ 122 < c -> Chr.canonicalize true c = c.
Proof.
  unfold Chr.canonicalize. intros H. simpl.
  destruct (97 <=? c) eqn:A; destruct (c <=? 122) eqn:B; simpl; try reflexivity.
  apply Z.leb_le in A, B. lia.
Qed.

(** With [ignoreCase], a lower-case pattern letter matches itself and its
    capital, nothing else. *)
Lemma canonicalize_letter (l c : char) :
  97 <= l <= 122 ->
  (Chr.canonicalize true l =? Chr.canonicalize true c) = true ->
  isLetter l c.
Proof.
  unfold Chr.canonicalize, isLetter. simpl. intros Hl H.
  apply Z.eqb_eq in H.
  destruct (97 <=? l) eqn:A; destruct (l <=? 122) eqn:B;
    try (apply Z.leb_gt in A; lia); try (apply Z.leb_gt in B; lia).
  simpl in H.
  destruct (97 <=? c) eqn:C; destruct (c <=? 122) eqn:D; simpl in H; lia.
Qed.

(** Any other pattern character matches itself only. *)
Lemma canonicalize_other (l c : char) :
  l < 65 \/ 122 < l ->
  (Chr.canonicalize true l =? Chr.canonicalize true c) = true -> c = l.
Proof.
  unfold Chr.canonicalize. simpl. intros Hl H. apply Z.eqb_eq in H.
  destruct (97 <=? l) eqn:A; destruct (l <=? 122) eqn:B; simpl in H;
    try (apply Z.leb_le in A; apply Z.leb_le in B; lia);
    destruct (97 <=? c) eqn:C; destruct (c <=? 122) eqn:D; simpl in H;
    try lia; apply Z.leb_le in C; apply Z.leb_le in D; lia.
Qed.

End CharFacts.

Section StringFacts.

Lemma trimStart_keep (c : char) (s : jsstring) :
  Chr.isSpace c = false -> Str.trimStart (c :: s) = c :: s.
Proof. unfold Str.trimStart. simpl. now intros ->. Qed.

Lemma trimEnd_keep (c : char) (s : jsstring) :
  Chr.isSpace c = false -> Str.trimEnd (s ++ [c]) = s ++ [c].
Proof.
  unfold Str.trimEnd. intros H. rewrite rev_app_distr. simpl. rewrite H.
  simpl. now rewrite rev_involutive.
Qed.

Lemma trimEnd_drop (w : char) (s : jsstring) :
  Chr.isSpace w = true -> Str.trimEnd (s ++ [w]) = Str.trimEnd s.
Proof.
  unfold Str.trimEnd. intros H. rewrite rev_app_distr. simpl. now rewrite H.
Qed.

Lemma toLowerCase_app (a b : jsstring) :
  Str.toLowerCase (a ++ b) = Str.toLowerCase a ++ Str.toLowerCase b.
Proof. apply map_app. Qed.

Lemma toLowerCase_id (s : jsstring) :
  Forall (fun c => c < 65 \/ 90 < c) s -> Str.toLowerCase s = s.
Proof.
  induction 1 as [| c s Hc _ IH]; simpl; [reflexivity |].
  now rewrite toLower_id, IH.
Qed.

(** A character that is not the first one of [p] cannot start an
    occurrence of [p]. *)
Lemma includes_skip (c p0 : char) (s p : jsstring) :
  p0 <> c -> Str.includes (c :: s) (p0 :: p) = Str.includes s (p0 :: p).
Proof.
  intros H. simpl. apply Z.eqb_neq in H. now rewrite H.
Qed.

Lemma includes_skip_all (pre s p : jsstring) (p0 : char) :
  ~ In p0 pre ->
  Str.includes (pre ++ s) (p0 :: p) = Str.includes s (p0 :: p).
Proof.
  induction pre as [| c pre IH]; intros H; [reflexivity |].
  rewrite <- app_comm_cons, includes_skip.
  - apply IH. intros K. apply H. now right.
  - intros ->. apply H. now left.
Qed.

Lemma splitFrom_no_sep (c : char) (s : jsstring) :
  ~ In c s -> Str.splitFrom [c] 0 s = [s].
Proof.
  induction s as [| a s IH]; intros H; [reflexivity |].
  simpl. assert (E : (c =? a) = false).
  { apply Z.eqb_neq. intros ->. apply H. now left. }
  rewrite E. simpl. rewrite IH; [reflexivity |].
  intros K. apply H. now right.
Qed.

Lemma splitFrom_at_sep (c : char) (a b : jsstring) :
  ~ In c a ->
  Str.splitFrom [c] 0 (a ++ c :: b) = a :: Str.splitFrom [c] 0 b.
Proof.
  induction a as [| x a IH]; intros H.
  - simpl. rewrite Z.eqb_refl. reflexivity.
  - rewrite <- app_comm_cons.
    assert (E : (c =? x) = false).
    { apply Z.eqb_neq. intros ->. apply H. now left. }
    change (Str.splitFrom [c] 0 (x :: a ++ c :: b))
      with (if Str.startsWith [c] (x :: a ++ c :: b)
            then [] :: Str.splitFrom [c] (length [c] - 1) (a ++ c :: b)
            else match Str.splitFrom [c] 0 (a ++ c :: b) with
                 | p :: ps => (x :: p) :: ps
                 | [] => [[x]]
                 end).
    simpl Str.startsWith. rewrite E. simpl andb. cbv iota.
    rewrite IH; [reflexivity |]. intros K. apply H. now right.
Qed.

Lemma takeWhile_all (p : char -> bool) (s : jsstring) :
  Forall (fun c => p c = true) s -> Str.takeWhile p s = s.
Proof.
  induction 1 as [| c s Hc _ IH]; simpl; [reflexivity |].
  now rewrite Hc, IH.
Qed.

(** [parseInt] on a non-empty run of digits. *)
Lemma parseInt_digits (d : char) (s : jsstring) :
  Forall (fun c => Chr.isDigit c = true) (d :: s) ->
  Number.parseInt (d :: s) = Num (Number.decimal (d :: s)).
Proof.
  intros H. pose proof (Forall_inv H) as Hd.
  unfold Number.parseInt. rewrite trimStart_keep by now apply digit_not_space.
  apply isDigit_range in Hd.
  unfold Chr.hyphen, Chr.plus.
  destruct (Z.eqb_spec d 45); [lia |]. destruct (Z.eqb_spec d 43); [lia |].
  rewrite takeWhile_all by exact H.
  f_equal. destruct (Number.decimal (d :: s)); reflexivity.
Qed.

End StringFacts.

(* ================================================================== *)
(** * The time token and the am/pm pattern *)
(* ================================================================== *)

Section TokenLanguage.

Variable ic : bool.

Lemma lang_opt (r : regex) (w : jsstring) :
  lang ic (opt r) w -> w = [] \/ lang ic r w.
Proof.
  intros (n & Hn & Hp). simpl in Hn.
  destruct n as [| [| n]]; try lia.
  - now left.
  - right. destruct Hp as (w1 & w2 & -> & H1 & ->). now rewrite app_nil_r.
Qed.

Lemma lang_between12 (r : regex) (w : jsstring) :
  lang ic (between 1 2 r) w ->
  lang ic r w \/ exists w1 w2, w = w1 ++ w2 /\ lang ic r w1 /\ lang ic r w2.
Proof.
  intros (n & Hn & Hp). simpl in Hn.
  destruct n as [| [| [| n]]]; try lia.
  - left. destruct Hp as (w1 & w2 & -> & H1 & ->). now rewrite app_nil_r.
  - right. destruct Hp as (w1 & w2 & -> & H1 & w3 & w4 & -> & H3 & ->).
    rewrite app_nil_r. eauto.
Qed.

Lemma lang_times2 (r : regex) (w : jsstring) :
  lang ic (times 2 r) w ->
  exists w1 w2, w = w1 ++ w2 /\ lang ic r w1 /\ lang ic r w2.
Proof.
  intros (n & Hn & Hp). simpl in Hn.
  destruct n as [| [| [| n]]]; try lia.
  destruct Hp as (w1 & w2 & -> & H1 & w3 & w4 & -> & H3 & ->).
  rewrite app_nil_r. eauto.
Qed.

End TokenLanguage.

Lemma lang_amOrPm (w : jsstring) :
  lang true amOrPm w -> isMarker AM w \/ isMarker PM w.
Proof.
  unfold amOrPm, lit. cbn [lang].
  intros [H | H]; [left | right];
    destruct H as (w1 & w2 & -> & (a & -> & Ha) & (m & -> & Hm));
    exists a, m; (split; [reflexivity |]);
    unfold csetMatch in Ha, Hm;
    apply canonicalize_letter in Ha; try (vm_compute; split; congruence);
    apply canonicalize_letter in Hm; try (vm_compute; split; congruence);
    auto.
Qed.


Lemma clockText_shape (w : jsstring) :
  lang true clockText w -> exists h m k, tokenShape w h m k.
Proof.
  unfold clockText. cbn [lang].
  intros (h & w1 & -> & Hh & mm & w2 & -> & Hm & g & kk & -> & Hg & Hk).
  assert (Hh' : isHourText h).
  { apply lang_between12 in Hh. destruct Hh as [H | (a & b & -> & Ha & Hb)].
    - left. exact H.
    - right. destruct Ha as (a' & -> & Ha). destruct Hb as (b' & -> & Hb).
      exists a', b'. auto. }
  assert (Hm' : exists m, isMinuteText mm m).
  { apply lang_opt in Hm. destruct Hm as [-> | Hm].
    - exists []. now left.
    - cbn [lang] in Hm. destruct Hm as (c & dd & -> & (c' & -> & Hc) & Hdd).
      apply lang_times2 in Hdd.
      destruct Hdd as (a & b & -> & (a' & -> & Ha) & (b' & -> & Hb)).
      exists [a'; b']. right. exists a', b'.
      apply canonicalize_other in Hc; [| unfold Chr.colon; lia].
      subst c'. auto. }
  destruct Hm' as (m & Hm').
  assert (Hg' : isGap g).
  { apply lang_opt in Hg. destruct Hg as [-> | Hg]; [now left | right].
    exact Hg. }
  apply lang_opt in Hk.
  destruct Hk as [-> | Hk].
  - exists h, m, None, mm, g, []. auto.
  - apply lang_amOrPm in Hk. destruct Hk as [Hk | Hk].
    + exists h, m, (Some AM), mm, g, kk. auto.
    + exists h, m, (Some PM), mm, g, kk. auto.
Qed.

Lemma periodRe_skip (c : char) (s : jsstring) (i : nat) :
  Chr.isSpace c = false -> c <> chr "a" -> c <> chr "p" ->
  run false (source periodRe) (mkState i (c :: s) []) = [].
Proof.
  intros Hs Ha Hp. 
  assert (Ea : (97 =? c) = false) by (apply Z.eqb_neq; intros <-; now apply Ha).
  assert (Ep : (112 =? c) = false) by (apply Z.eqb_neq; intros <-; now apply Hp).
  unfold periodRe, source. rewrite run_seq, run_opt_char.
  unfold csetMatch at 1. rewrite Hs, flat_map_single, run_group.
  unfold amOrPm, lit. rewrite run_alt, !run_seq, !run_char.
  unfold csetMatch. rewrite !canonicalize_false.
  change (chr "a") with 97. change (chr "p") with 112.
  rewrite Ea, Ep. reflexivity.
Qed.

Lemma periodRe_hit (p : period) (s : jsstring) (i : nat) :
  exists c, run false (source periodRe) (mkState i (lowerMarker p ++ s) [])
  = [mkState (2 + i) s c].
Proof.
  destruct p; eexists; reflexivity.
Qed.

Lemma periodRe_hit_gap (p : period) (w : char) (s : jsstring) (i : nat) :
  Chr.isSpace w = true ->
  exists c tl, run false (source periodRe) (mkState i (w :: lowerMarker p ++ s) [])
  = mkState (3 + i) s c :: tl.
Proof.
  intros Hw. unfold periodRe, source. rewrite run_seq, run_opt_char.
  unfold csetMatch at 1. rewrite Hw.
  destruct p; do 2 eexists; reflexivity.
Qed.

(* ================================================================== *)
(** * The closure [parseTime] on time tokens *)
(* ================================================================== *)

Section ParseTime.

Lemma numeric_range (c : char) : isNumeric c -> 48 <= c <= 58.
Proof.
  intros [H | ->]; [apply isDigit_range in H; lia | unfold Chr.colon; lia].
Qed.

Lemma hour_minute_numeric (h mm m : jsstring) :
  isHourText h -> isMinuteText mm m -> Forall isNumeric (h ++ mm).
Proof.
  intros Hh Hm. apply Forall_app. split.
  - destruct Hh as [(a & -> & Ha) | (a & b & -> & Ha & Hb)];
      repeat apply Forall_cons; try apply Forall_nil; now left.
  - destruct Hm as [[-> _] | (a & b & -> & _ & Ha & Hb)];
      repeat apply Forall_cons; try apply Forall_nil;
      (now left) || (now right).
Qed.

Lemma hour_digits (h : jsstring) :
  isHourText h ->
  exists d s, h = d :: s /\ Forall (fun c => Chr.isDigit c = true) (d :: s).
Proof.
  intros [(a & -> & Ha) | (a & b & -> & Ha & Hb)]; do 2 eexists;
    (split; [reflexivity | repeat constructor; assumption]).
Qed.

(** The text [h ++ mm] ends with a digit. *)
Lemma hour_minute_last (h mm m : jsstring) :
  isHourText h -> isMinuteText mm m ->
  exists s d, h ++ mm = s ++ [d] /\ Chr.isDigit d = true.
Proof.
  intros Hh Hm.
  destruct Hm as [[-> _] | (a & b & -> & _ & Ha & Hb)].
  - rewrite app_nil_r.
    destruct Hh as [(a & -> & Ha) | (a & b & -> & Ha & Hb)].
    + now exists [], a.
    + now exists [a], b.
  - exists (h ++ [Chr.colon; a]), b. split; [| assumption].
    now rewrite <- app_assoc.
Qed.

Lemma execFrom_step (re : RegExp) (i : nat) (c : char) (s : jsstring) :
  run (ignoreCase re) (source re) (mkState i (c :: s) []) = [] ->
  execFrom re i (c :: s) = execFrom re (S i) s.
Proof. intros H. simpl. now rewrite H. Qed.

Lemma execFrom_hit (re : RegExp) (i : nat) (s : jsstring) (y : state) tl :
  run (ignoreCase re) (source re) (mkState i s []) = y :: tl ->
  execFrom re i s = Some (mkMatch i (firstn (pos y - i) s) (caps y)).
Proof. intros H. destruct s; simpl; now rewrite H. Qed.

(** The am/pm pattern finds nothing in hours and minutes. *)
Lemma periodRe_numeric (n s : jsstring) (i : nat) :
  Forall isNumeric n ->
  execFrom periodRe i (n ++ s) = execFrom periodRe (length n + i) s.
Proof.
  intros H. revert i. induction H as [| c n Hc _ IH]; intros i; [reflexivity |].
  apply numeric_range in Hc.
  rewrite <- app_comm_cons, execFrom_step.
  - rewrite IH. simpl. f_equal. lia.
  - apply periodRe_skip.
    + apply ascii_not_space. lia.
    + change (chr "a") with 97. lia.
    + change (chr "p") with 112. lia.
Qed.

Lemma firstn_exact {A : Type} (a b : list A) : firstn (length a) (a ++ b) = a.
Proof.
  rewrite firstn_app, Nat.sub_diag, firstn_all. simpl. apply app_nil_r.
Qed.

Lemma skipn_exact {A : Type} (a b : list A) : skipn (length a) (a ++ b) = b.
Proof.
  rewrite skipn_app, Nat.sub_diag, skipn_all. reflexivity.
Qed.

(** [timeStr.replace(/\s?(am|pm)/, '')] leaves hours and minutes. *)
Lemma replace_period (n g : jsstring) (p : period) :
  Forall isNumeric n -> isGap g ->
  Regex.replace (n ++ g ++ lowerMarker p) periodRe [] = n.
Proof.
  intros Hn Hg. unfold Regex.replace, exec.
  rewrite periodRe_numeric by exact Hn.
  destruct Hg as [-> | (w & -> & Hw)].
  - destruct (periodRe_hit p [] (length n + 0)) as (c & E).
    rewrite app_nil_r in E. simpl app.
    rewrite (execFrom_hit periodRe _ _ _ _ E). cbn [index matched pos].
    replace (2 + (length n + 0) - (length n + 0))%nat with 2%nat by lia.
    replace (length n + 0)%nat with (length n) by lia.
    rewrite firstn_exact.
    destruct p; simpl firstn; simpl length;
      (rewrite skipn_all2 by (rewrite length_app; simpl; lia));
      apply app_nil_r.
  - destruct (periodRe_hit_gap p w [] (length n + 0) Hw) as (c & tl & E).
    rewrite app_nil_r in E. simpl app.
    rewrite (execFrom_hit periodRe _ _ _ _ E). cbn [index matched pos].
    replace (3 + (length n + 0) - (length n + 0))%nat with 3%nat by lia.
    replace (length n + 0)%nat with (length n) by lia.
    rewrite firstn_exact.
    destruct p; simpl firstn; simpl length;
      (rewrite skipn_all2 by (rewrite length_app; simpl; lia));
      apply app_nil_r.
Qed.

Lemma digits_no_colon (s : jsstring) :
  Forall (fun c => Chr.isDigit c = true) s -> ~ In Chr.colon s.
Proof.
  intros H K. rewrite Forall_forall in H. apply H in K. discriminate.
Qed.

(** [timeStr.split(':')] on hours and minutes. *)
Lemma split_hour_minute (h mm m : jsstring) :
  isHourText h -> isMinuteText mm m ->
  Str.split (h ++ mm) (str ":") = match m with [] => [h] | _ => [h; m] end.
Proof.
  intros Hh Hm. destruct (hour_digits h Hh) as (d & s & -> & Hd).
  change (str ":") with [Chr.colon]. unfold Str.split.
  pose proof (digits_no_colon _ Hd) as Hc.
  destruct Hm as [[-> ->] | (a & b & -> & -> & Ha & Hb)].
  - rewrite app_nil_r. now apply splitFrom_no_sep.
  - rewrite splitFrom_at_sep by exact Hc. f_equal.
    apply splitFrom_no_sep. apply digits_no_colon. now repeat constructor.
Qed.

Lemma hours_minutes_of (h mm m : jsstring) :
  isHourText h -> isMinuteText mm m ->
  let parts := Str.split (h ++ mm) (str ":") in
  hoursOf parts = Num (Number.decimal h) /\
  minutesOf parts = Num (minuteValue m).
Proof.
  intros Hh Hm parts. unfold parts. rewrite (split_hour_minute _ _ _ Hh Hm).
  destruct (hour_digits h Hh) as (d & s & -> & Hd).
  destruct Hm as [[-> ->] | (a & b & -> & -> & Ha & Hb)];
    unfold hoursOf, minutesOf; cbn [nth_error]; rewrite parseInt_digits by exact Hd.
  - split; reflexivity.
  - rewrite parseInt_digits by now repeat constructor. split; reflexivity.
Qed.


Lemma marker_lower (p : period) (kk : jsstring) :
  isMarker p kk ->
  Str.toLowerCase kk = lowerMarker p /\
  exists s c, kk = s ++ [c] /\ Chr.isSpace c = false.
Proof.
  intros (a & m0 & -> & Ha & Hm). split.
  - destruct p; destruct Ha as [-> | ->]; destruct Hm as [-> | ->]; reflexivity.
  - exists [a], m0. split; [reflexivity |].
    destruct Hm as [-> | ->]; reflexivity.
Qed.

Lemma gap_lower (g : jsstring) : isGap g -> Str.toLowerCase g = g.
Proof.
  intros [-> | (w & -> & Hw)]; [reflexivity |].
  apply toLowerCase_id. constructor; [| constructor].
  apply space_range in Hw. lia.
Qed.

Lemma numeric_lower (n : jsstring) :
  Forall isNumeric n -> Str.toLowerCase n = n.
Proof.
  intros H. apply toLowerCase_id. eapply Forall_impl; [| exact H].
  intros c Hc. apply numeric_range in Hc. lia.
Qed.

(** [timeStr.trim().toLowerCase()] on a token. *)
Lemma normalize_token (h mm m g kk : jsstring) (k : option period) :
  isHourText h -> isMinuteText mm m -> isGap g ->
  match k with Some p => isMarker p kk | None => kk = [] end ->
  Str.toLowerCase (Str.trim (h ++ mm ++ g ++ kk))
  = (h ++ mm) ++ match k with
                 | Some p => g ++ lowerMarker p
                 | None => []
                 end.
Proof.
  intros Hh Hm Hg Hk.
  pose proof (hour_minute_numeric _ _ _ Hh Hm) as Hn.
  destruct (hour_minute_last _ _ _ Hh Hm) as (s & dl & El & Hdl).
  assert (Hhead : forall t, Str.trimStart ((h ++ mm) ++ t) = (h ++ mm) ++ t).
  { intros t. destruct (hour_digits h Hh) as (d & s0 & -> & Hd).
    rewrite <- !app_comm_cons. apply trimStart_keep, digit_not_space.
    exact (Forall_inv Hd). }
  rewrite app_assoc. unfold Str.trim. rewrite Hhead.
  clear Hhead. remember (h ++ mm) as n eqn:En in *.
  destruct k as [p |].
  - destruct (marker_lower p kk Hk) as (Hl & s1 & c & Ek & Hc).
    assert (Et : Str.trimEnd (n ++ g ++ kk) = n ++ g ++ kk).
    { rewrite Ek.
      replace (n ++ g ++ s1 ++ [c]) with ((n ++ g ++ s1) ++ [c])
        by (now rewrite <- !app_assoc).
      now apply trimEnd_keep. }
    rewrite Et, !toLowerCase_app, Hl.
    rewrite (gap_lower g Hg), (numeric_lower n Hn). reflexivity.
  - subst kk. rewrite !app_nil_r.
    assert (Et : Str.trimEnd n = n).
    { rewrite El. now apply trimEnd_keep, digit_not_space. }
    destruct Hg as [-> | (w & -> & Hw)].
    + rewrite app_nil_r, Et. now apply numeric_lower.
    + rewrite trimEnd_drop by exact Hw. rewrite Et. now apply numeric_lower.
Qed.

Lemma no_letter_before_marker (n g : jsstring) (l : char) :
  Forall isNumeric n -> isGap g -> 97 <= l <= 122 -> ~ In l (n ++ g).
Proof.
  intros Hn Hg Hl K. apply in_app_or in K. destruct K as [K | K].
  - rewrite Forall_forall in Hn. apply Hn, numeric_range in K. lia.
  - destruct Hg as [-> | (w & -> & Hw)]; [contradiction |].
    apply in_single in K. subst w. apply space_range in Hw. lia.
Qed.

(** What the parser's closure returns on a time token. *)
Lemma parseTime_shape (tok h m : jsstring) (k : option period) :
  tokenShape tok h m k ->
  parseTime tok
  = mkClock (Num (match k with
                  | Some p => to24 p (Number.decimal h)
                  | None => Number.decimal h
                  end))
            (Num (minuteValue m)).
Proof.
  intros (mm & g & kk & -> & Hh & Hm & Hg & Hk).
  pose proof (hour_minute_numeric _ _ _ Hh Hm) as Hn.
  destruct (hours_minutes_of _ _ _ Hh Hm) as [EH EM].
  unfold parseTime. rewrite (normalize_token _ _ _ _ _ k Hh Hm Hg Hk).
  destruct k as [p |].
  - rewrite !app_assoc.
    change (str "am") with (97 :: [109]). change (str "pm") with (112 :: [109]).
    rewrite !includes_skip_all
      by (apply (no_letter_before_marker (h ++ mm) g); auto; lia).
    rewrite <- (app_assoc (h ++ mm) g), replace_period by assumption.
    cbv zeta in EH, EM. rewrite EH, EM.
    destruct p; simpl; destruct (Number.decimal h <? 12);
      destruct (Number.decimal h =? 12); reflexivity.
  - change (str "am") with (97 :: [109]). change (str "pm") with (112 :: [109]).
    rewrite !includes_skip_all
      by (rewrite Forall_forall in Hn; intros K; apply Hn, numeric_range in K; lia).
    rewrite app_nil_r. cbn [Str.includes Str.startsWith orb].
    cbv zeta in EH, EM. rewrite EH, EM. reflexivity.
Qed.

End ParseTime.

(* ================================================================== *)
(** * The two patterns of the parser *)
(* ================================================================== *)

Section Searching.

(** A successful search: the matcher failed at every index before the
    match and succeeded at the index of the match. *)
Lemma execFrom_some (re : RegExp) (s : jsstring) (i : nat) (m : matchArray) :
  execFrom re i s = Some m ->
  exists pre s' y tl,
    s = pre ++ s' /\
    run (ignoreCase re) (source re) (mkState (i + length pre) s' []) = y :: tl /\
    m = mkMatch (i + length pre) (firstn (pos y - (i + length pre)) s') (caps y).
Proof.
  revert i. induction s as [| c s IH]; intros i H; simpl in H.
  - destruct (run _ _ _) as [| y tl] eqn:E; [discriminate |].
    exists [], [], y, tl. simpl. rewrite Nat.add_0_r.
    repeat split; congruence.
  - destruct (run _ _ _) as [| y tl] eqn:E.
    + apply IH in H. destruct H as (pre & s' & y & tl & -> & Hr & ->).
      exists (c :: pre), s', y, tl. simpl.
      replace (i + S (length pre))%nat with (S i + length pre)%nat by lia.
      auto.
    + exists [], (c :: s), y, tl. simpl. rewrite Nat.add_0_r.
      repeat split; congruence.
Qed.

Lemma execFrom_none (re : RegExp) (pre s : jsstring) (i : nat) :
  execFrom re i (pre ++ s) = None ->
  execFrom re (i + length pre) s = None.
Proof.
  revert i. induction pre as [| c pre IH]; intros i H.
  - simpl. now rewrite Nat.add_0_r.
  - simpl in H. destruct (run _ _ _); [| discriminate].
    apply IH in H. simpl.
    now replace (i + S (length pre))%nat with (S i + length pre)%nat by lia.
Qed.

End Searching.

Section TimePattern.

Lemma consumed_text (x y : state) (w : jsstring) :
  consumes x y w -> firstn (pos y - pos x) (rest x) = w.
Proof.
  intros [Hr Hp]. rewrite Hr, Hp.
  replace (pos x + length w - pos x)%nat with (length w) by lia.
  apply firstn_exact.
Qed.

Lemma dash_class (d : char) :
  csetMatch true (CSet [Chr.hyphen; Chr.endash]) d = true -> isDash d = true.
Proof.
  unfold csetMatch, isDash. cbn [existsb]. rewrite orb_false_r.
  intros H. apply orb_true_iff in H. apply orb_true_iff.
  destruct H as [H | H]; apply canonicalize_other in H;
    try (unfold Chr.hyphen, Chr.endash; lia);
    subst d; [left | right]; apply Z.eqb_refl.
Qed.

(** A captured group whose body is free of groups. *)
Lemma run_group_sound (ic : bool) (i : nat) (r : regex) (x y : state) :
  groupFree r = true ->
  In y (run ic (RGroup i r) x) ->
  exists w, lang ic r w /\ consumes x y w /\ caps y = (i, w) :: caps x.
Proof.
  intros Hg H. rewrite run_group in H. apply in_map_iff in H.
  destruct H as (y0 & <- & H0).
  destruct (run_sound ic r Hg _ _ H0) as (w & Hl & Hc & Hk).
  exists w. split; [exact Hl |]. split; [exact Hc |].
  cbn [caps]. now rewrite (consumed_text _ _ _ Hc), Hk.
Qed.

(** Every match of the time pattern is two time tokens around a hyphen
    or an en-dash, and captures the two tokens. *)
Lemma timeRe_sound (x y : state) :
  In y (run true (source timeRe) x) ->
  exists t1 d t2,
    rest x = t1 ++ d :: t2 ++ rest y /\
    lang true clockText t1 /\ isDash d = true /\ lang true clockText t2 /\
    caps y = (2%nat, t2) :: (1%nat, t1) :: caps x /\
    pos y = (pos x + length (t1 ++ d :: t2))%nat.
Proof.
  unfold timeRe, timeToken, source. rewrite !run_seq. intros H.
  apply in_flat_map in H. destruct H as (y1 & H1 & H).
  apply in_flat_map in H. destruct H as (y2 & H2 & H3).
  apply (run_group_sound true 1 clockText x y1 eq_refl) in H1.
  destruct H1 as (t1 & L1 & [R1 P1] & K1).
  apply (run_sound true (RChar (CSet [Chr.hyphen; Chr.endash])) eq_refl) in H2.
  destruct H2 as (wd & (d & -> & Hd) & [R2 P2] & K2).
  apply (run_group_sound true 2 clockText y2 y eq_refl) in H3.
  destruct H3 as (t2 & L2 & [R3 P3] & K3).
  exists t1, d, t2.
  split; [rewrite R1, R2, R3; reflexivity |].
  split; [exact L1 |]. split; [now apply dash_class |].
  split; [exact L2 |]. split; [now rewrite K3, K2, K1 |].
  rewrite P3, P2, P1, !length_app. simpl. lia.
Qed.

(** What a successful search for the time range tells. *)
Lemma exec_timeRe (s : jsstring) (m : matchArray) :
  Regex.exec s timeRe = Some m ->
  exists pre t1 d t2 post,
    s = pre ++ t1 ++ d :: t2 ++ post /\
    lang true clockText t1 /\ isDash d = true /\ lang true clockText t2 /\
    group m 1 = Some t1 /\ group m 2 = Some t2.
Proof.
  intros H. apply execFrom_some in H.
  destruct H as (pre & s' & y & tl & -> & Hr & ->).
  assert (Hy : In y (run true (source timeRe) (mkState (0 + length pre) s' [])))
    by (change (ignoreCase timeRe) with true in Hr; rewrite Hr; now left).
  apply timeRe_sound in Hy.
  destruct Hy as (t1 & d & t2 & R & L1 & Hd & L2 & K & _).
  cbn [rest caps] in R, K.
  exists pre, t1, d, t2, (rest y). unfold group. cbn [captures].
  rewrite K, R. repeat split; auto.
Qed.

End TimePattern.

Section DayPattern.

Lemma existsb_eqb_sym (c : char) (l : list char) :
  existsb (fun a => a =? c) l = existsb (Z.eqb c) l.
Proof.
  induction l as [| a l IH]; simpl; [reflexivity |].
  now rewrite IH, Z.eqb_sym.
Qed.

Lemma dayLetter_class (c : char) :
  csetMatch false (CSet (str "MTWRFSU")) c = isDayLetter c.
Proof. unfold csetMatch, isDayLetter. apply existsb_eqb_sym. Qed.

Lemma lang_plus_class (ic : bool) (cs : cset) (w : jsstring) :
  lang ic (plus (RChar cs)) w ->
  w <> [] /\ Forall (fun c => csetMatch ic cs c = true) w.
Proof.
  intros (n & Hn & Hp). simpl in Hn.
  assert (Hall : forall k v, power (lang ic (RChar cs)) k v ->
                 Forall (fun c => csetMatch ic cs c = true) v).
  { induction k as [| k IH]; intros v Hv; simpl in Hv.
    - subst v. constructor.
    - destruct Hv as (w1 & w2 & -> & (c & -> & Hc) & Hw2).
      constructor; [exact Hc | now apply IH]. }
  split; [| now apply (Hall n)].
  destruct n as [| n]; [lia |].
  destruct Hp as (w1 & w2 & -> & (c & -> & _) & _). discriminate.
Qed.

Lemma isDayLetter_cases (c : char) :
  isDayLetter c = true -> In c (str "MTWRFSU").
Proof.
  unfold isDayLetter. intros H. apply existsb_exists in H.
  destruct H as (k & Hk & E). apply Z.eqb_eq in E. now subst.
Qed.

(** Every letter of the alphabet of the day pattern is a key of the
    Day Code Table, with a non-empty code. *)
Lemma dayCode_letter (c : char) :
  isDayLetter c = true -> dayCode [c] = Ok (translate c).
Proof.
  intros H. apply isDayLetter_cases in H. simpl in H.
  repeat (destruct H as [<- | H]; [reflexivity |]). contradiction.
Qed.

Lemma dayCode_letters (d : jsstring) :
  Forall (fun c => isDayLetter c = true) d ->
  mapM dayCode (Str.split d []) = Ok (map translate d).
Proof.
  unfold Str.split. induction 1 as [| c d Hc _ IH]; [reflexivity |].
  simpl map. cbn [mapM]. rewrite (dayCode_letter c Hc). cbn [bind].
  rewrite IH. reflexivity.
Qed.

(** A match of the day pattern is at index 0 and captures a non-empty
    run of day letters that a white-space character follows. *)
Lemma dayRe_sound (x y : state) :
  In y (run false (source dayRe) x) ->
  exists d w,
    rest x = d ++ w :: rest y /\ pos x = 0%nat /\ d <> [] /\
    Forall (fun c => isDayLetter c = true) d /\ Chr.isSpace w = true /\
    caps y = (1%nat, d) :: caps x.
Proof.
  unfold dayRe, source. rewrite !run_seq. intros H.
  apply in_flat_map in H. destruct H as (y0 & H0 & H).
  apply in_flat_map in H. destruct H as (y1 & H1 & H2).
  cbn [run] in H0. destruct (pos x =? 0)%nat eqn:E0; [| contradiction].
  apply in_single in H0. subst y0. apply Nat.eqb_eq in E0.
  apply (run_group_sound false 1 (plus (RChar (CSet (str "MTWRFSU")))) x y1
           eq_refl) in H1.
  destruct H1 as (d & L1 & [R1 P1] & K1).
  apply (run_sound false (RChar CSpace) eq_refl) in H2.
  destruct H2 as (ww & (w & -> & Hw) & [R2 P2] & K2).
  apply lang_plus_class in L1. destruct L1 as [Hne Hall].
  exists d, w.
  split; [rewrite R1, R2; reflexivity |].
  split; [exact E0 |]. split; [exact Hne |].
  split; [| split; [exact Hw | now rewrite K2, K1]].
  eapply Forall_impl; [| exact Hall]. intros c Hc. cbv beta in Hc.
  now rewrite dayLetter_class in Hc.
Qed.

Lemma exec_dayRe (s : jsstring) (m : matchArray) :
  Regex.exec s dayRe = Some m ->
  exists d w post,
    s = d ++ w :: post /\ d <> [] /\
    Forall (fun c => isDayLetter c = true) d /\ Chr.isSpace w = true /\
    group m 1 = Some d.
Proof.
  intros H. apply execFrom_some in H.
  destruct H as (pre & s' & y & tl & -> & Hr & ->).
  assert (Hy : In y (run false (source dayRe) (mkState (0 + length pre) s' [])))
    by (change (ignoreCase dayRe) with false in Hr; rewrite Hr; now left).
  apply dayRe_sound in Hy.
  destruct Hy as (d & w & R & P & Hne & Hall & Hw & K).
  cbn [rest pos caps] in R, P, K.
  destruct pre; [| discriminate]. simpl app.
  exists d, w, (rest y). unfold group. cbn [captures]. rewrite K.
  repeat split; auto.
Qed.

End DayPattern.

(* ================================================================== *)
(** * The parser *)
(* ================================================================== *)

Section Parser.

(** The parser, case by case on its two searches. *)
Lemma parse_cases (s : jsstring) :
  match Regex.exec s dayRe, Regex.exec s timeRe with
  | None, _ => parseRecurrenceString s = Throw daysNotFound
  | Some _, None => parseRecurrenceString s = Throw timesNotFound
  | Some dm, Some tm =>
    exists d t1 t2,
      group dm 1 = Some d /\ group tm 1 = Some t1 /\ group tm 2 = Some t2 /\
      Forall (fun c => isDayLetter c = true) d /\
      (exists h m k, tokenShape t1 h m k) /\
      (exists h m k, tokenShape t2 h m k) /\
      parseRecurrenceString s
      = Ok (mkPattern (map translate d) (parseTime t1) (parseTime t2))
  end.
Proof.
  unfold parseRecurrenceString.
  destruct (Regex.exec s dayRe) as [dm |] eqn:Ed; [| reflexivity].
  destruct (exec_dayRe _ _ Ed) as (d & w & post & _ & _ & Hall & _ & Gd).
  rewrite Gd. cbn [defined bind]. rewrite (dayCode_letters d Hall).
  cbn [bind].
  destruct (Regex.exec s timeRe) as [tm |] eqn:Et; [| reflexivity].
  destruct (exec_timeRe _ _ Et) as (pre & t1 & dd & t2 & post' & _ & L1 & _
                                    & L2 & G1 & G2).
  rewrite G1, G2. cbn [defined bind].
  exists d, t1, t2. repeat split; auto using clockText_shape.
Qed.

Lemma parse_ok (s : jsstring) (p : RecurrencePattern) :
  parseRecurrenceString s = Ok p ->
  exists dm tm d t1 t2,
    Regex.exec s dayRe = Some dm /\ Regex.exec s timeRe = Some tm /\
    group dm 1 = Some d /\ group tm 1 = Some t1 /\ group tm 2 = Some t2 /\
    Forall (fun c => isDayLetter c = true) d /\
    (exists h m k, tokenShape t1 h m k) /\
    (exists h m k, tokenShape t2 h m k) /\
    p = mkPattern (map translate d) (parseTime t1) (parseTime t2).
Proof.
  intros H. pose proof (parse_cases s) as C.
  destruct (Regex.exec s dayRe) as [dm |]; [| congruence].
  destruct (Regex.exec s timeRe) as [tm |]; [| congruence].
  destruct C as (d & t1 & t2 & G & G1 & G2 & Hall & S1 & S2 & E).
  exists dm, tm, d, t1, t2. repeat split; auto. congruence.
Qed.

(** The parser throws nothing but its two "not found" errors. *)
Lemma parse_throw (s : jsstring) (e : exn) :
  parseRecurrenceString s = Throw e ->
  (Regex.exec s dayRe = None /\ e = daysNotFound) \/
  (Regex.exec s dayRe <> None /\ Regex.exec s timeRe = None /\
   e = timesNotFound).
Proof.
  intros H. pose proof (parse_cases s) as C.
  destruct (Regex.exec s dayRe) as [dm |].
  - right. destruct (Regex.exec s timeRe) as [tm |].
    + destruct C as (d & t1 & t2 & _ & _ & _ & _ & _ & _ & E). congruence.
    + repeat split; congruence.
  - left. split; congruence.
Qed.

End Parser.

Section Bounds.

Lemma hour_bounds (h : jsstring) :
  isHourText h -> 0 <= Number.decimal h <= 99.
Proof.
  intros [(a & -> & Ha) | (a & b & -> & Ha & Hb)];
    unfold Number.decimal, Chr.digitValue; cbn [fold_left];
    rewrite isDigit_range in *; lia.
Qed.

Lemma minute_bounds (mm m : jsstring) :
  isMinuteText mm m -> 0 <= minuteValue m <= 99.
Proof.
  intros [[_ ->] | (a & b & _ & -> & Ha & Hb)];
    unfold minuteValue, Number.decimal, Chr.digitValue; cbn [fold_left];
    rewrite ?isDigit_range in *; lia.
Qed.

Lemma to24_bounds (p : period) (x : Z) :
  0 <= x <= 99 -> 0 <= to24 p x <= 99.
Proof.
  intros H. unfold to24.
  destruct p; [destruct (Z.eqb_spec x 12) | destruct (Z.ltb_spec x 12)]; lia.
Qed.

(** Hours and minutes of a token are numbers of at most two digits. *)
Lemma clock_bounds (tok h m : jsstring) (k : option period) :
  tokenShape tok h m k ->
  exists hh mi,
    parseTime tok = mkClock (Num hh) (Num mi) /\
    0 <= hh <= 99 /\ 0 <= mi <= 99.
Proof.
  intros H. rewrite (parseTime_shape _ _ _ _ H).
  destruct H as (mm & g & kk & _ & Hh & Hm & _ & _).
  do 2 eexists. split; [reflexivity |].
  pose proof (hour_bounds h Hh). pose proof (minute_bounds mm m Hm).
  split; [| assumption].
  destruct k as [p |]; [now apply to24_bounds | assumption].
Qed.

End Bounds.

Section Markers.

(** The code's marker test on a token says whether it carries one. *)
Lemma hasMarker_shape (tok h m : jsstring) (k : option period) :
  tokenShape tok h m k ->
  hasMarker tok = match k with Some _ => true | None => false end.
Proof.
  intros (mm & g & kk & -> & Hh & Hm & Hg & Hk).
  pose proof (hour_minute_numeric _ _ _ Hh Hm) as Hn.
  unfold hasMarker. rewrite (normalize_token _ _ _ _ _ k Hh Hm Hg Hk).
  change (str "am") with (97 :: [109]). change (str "pm") with (112 :: [109]).
  destruct k as [p |].
  - rewrite !app_assoc.
    rewrite !includes_skip_all
      by (apply (no_letter_before_marker (h ++ mm) g); auto; lia).
    destruct p; reflexivity.
  - rewrite !includes_skip_all
      by (rewrite Forall_forall in Hn; intros K; apply Hn, numeric_range in K; lia).
    reflexivity.
Qed.

Lemma takeWhile_app_stop (p : char -> bool) (a b : jsstring) :
  Forall (fun c => p c = true) a ->
  match b with [] => True | c :: _ => p c = false end ->
  Str.takeWhile p (a ++ b) = a.
Proof.
  induction 1 as [| c a Hc _ IH]; intros Hb; simpl.
  - destruct b as [| c b]; [reflexivity |]. simpl. now rewrite Hb.
  - now rewrite Hc, IH.
Qed.

(** The leading digits of a token are its hour digits. *)
Lemma leading_digits (tok h m : jsstring) (k : option period) :
  tokenShape tok h m k -> Str.takeWhile Chr.isDigit tok = h.
Proof.
  intros (mm & g & kk & -> & Hh & Hm & Hg & Hk).
  apply takeWhile_app_stop.
  - destruct (hour_digits h Hh) as (d & s & -> & Hd). exact Hd.
  - destruct Hm as [[-> _] | (a & b & -> & _ & _ & _)]; [| reflexivity].
    destruct Hg as [-> | (w & -> & Hw)]; [| now apply space_not_digit].
    simpl. destruct k as [p |]; [| now subst kk].
    destruct Hk as (a & m0 & -> & Ha & _).
    destruct p; destruct Ha as [-> | ->]; reflexivity.
Qed.

End Markers.

(* ================================================================== *)
(** * Dashes that white space sets apart *)
(* ================================================================== *)

Section Dashes.






End Dashes.

(* ================================================================== *)
(** * Matching further into the input, and the run of day letters *)
(* ================================================================== *)

Section Shifting.

Variable ic : bool.
Variable k : nat.





End Shifting.


Section DayRun.

Variable ic : bool.
Variable cs : cset.

Lemma repeat_greedy (s : jsstring) :
  forall fuel i c,
    (length s < fuel)%nat ->
    repeatMatcher (run ic (RChar cs)) fuel 0 None (mkState i s c)
    = greedy (csetMatch ic cs) i s c.
Proof.
  induction s as [| a s IH]; intros fuel i c Hf;
    (destruct fuel as [| fuel]; [simpl in Hf; lia |]).
  - reflexivity.
  - cbn [repeatMatcher greedy Nat.eqb andb pos]. rewrite run_char.
    destruct (csetMatch ic cs a); [| reflexivity].
    rewrite flat_map_single. cbn [pos]. rewrite succ_neqb.
    cbn [pred option_map]. rewrite IH by (simpl in Hf; lia). reflexivity.
Qed.

Lemma greedy_head (d : jsstring) (w : char) (r : jsstring) :
  Forall (fun a => csetMatch ic cs a = true) d ->
  csetMatch ic cs w = false ->
  forall i c, exists tl,
    greedy (csetMatch ic cs) i (d ++ w :: r) c
    = mkState (i + length d) (w :: r) c :: tl.
Proof.
  induction 1 as [| a d Ha _ IH]; intros Hw i c.
  - simpl. rewrite Hw, Nat.add_0_r. now exists [].
  - simpl. rewrite Ha. destruct (IH Hw (S i) c) as (tl & ->).
    rewrite Nat.add_succ_r. simpl. eauto.
Qed.

(** The first end state of [cs+]: after the whole run. *)
Lemma plus_class_head (a : char) (d : jsstring) (w : char) (r : jsstring)
  (i : nat) c :
  Forall (fun a => csetMatch ic cs a = true) (a :: d) ->
  csetMatch ic cs w = false ->
  exists tl,
    run ic (plus (RChar cs)) (mkState i ((a :: d) ++ w :: r) c)
    = mkState (i + length (a :: d)) (w :: r) c :: tl.
Proof.
  intros Hd Hw. pose proof (Forall_inv Hd) as Ha.
  pose proof (Forall_inv_tail Hd) as Hd'.
  unfold plus.
  change (run ic (RQuant 1 None (RChar cs))
            (mkState i ((a :: d) ++ w :: r) c))
    with (flat_map
            (repeatMatcher (run ic (RChar cs))
               (1 + length ((a :: d) ++ w :: r)) 0 None)
            (run ic (RChar cs) (mkState i ((a :: d) ++ w :: r) c))).
  rewrite <- app_comm_cons, run_char, Ha.
  rewrite flat_map_single. cbn [pred option_map].
  rewrite repeat_greedy by (simpl; lia).
  destruct (greedy_head d w r Hd' Hw (S i) c) as (tl & ->).
  simpl. rewrite Nat.add_succ_r. eauto.
Qed.

End DayRun.

Lemma dayLetter_not_space (c : char) :
  isDayLetter c = true -> Chr.isSpace c = false.
Proof.
  intros H. apply isDayLetter_cases in H. simpl in H.
  repeat (destruct H as [<- | H]; [reflexivity |]). contradiction.
Qed.

(** The day pattern on a run of day letters that white space follows. *)
Lemma exec_dayRe_run (d : jsstring) (w : char) (r : jsstring) :
  d <> [] -> Forall (fun c => isDayLetter c = true) d ->
  Chr.isSpace w = true ->
  exists m, Regex.exec (d ++ w :: r) dayRe = Some m /\ group m 1 = Some d.
Proof.
  intros Hne Hd Hw. destruct d as [| a d]; [congruence |].
  assert (Hd' : Forall (fun c => csetMatch false (CSet (str "MTWRFSU")) c = true)
                  (a :: d)).
  { eapply Forall_impl; [| exact Hd]. intros c Hc.
    now rewrite dayLetter_class. }
  assert (Hw' : csetMatch false (CSet (str "MTWRFSU")) w = false).
  { rewrite dayLetter_class. destruct (isDayLetter w) eqn:E; [| reflexivity].
    apply dayLetter_not_space in E. congruence. }
  destruct (plus_class_head false _ a d w r 0 [] Hd' Hw') as (tl & E).
  assert (Hrun : exists tl',
    run false (source dayRe) (mkState 0 ((a :: d) ++ w :: r) [])
    = mkState (S (length (a :: d))) r [(1%nat, a :: d)] :: tl').
  { unfold dayRe, source. rewrite run_seq.
    change (run false RBol (mkState 0 ((a :: d) ++ w :: r) []))
      with [mkState 0 ((a :: d) ++ w :: r) []].
    rewrite flat_map_single, run_seq, run_group, E.
    cbn [map flat_map pos rest caps Nat.add].
    rewrite Nat.sub_0_r, firstn_exact, run_char.
    unfold csetMatch. rewrite Hw. simpl. eauto. }
  destruct Hrun as (tl' & Hrun).
  unfold Regex.exec. rewrite (execFrom_hit dayRe _ _ _ _ Hrun).
  eexists. split; [reflexivity |]. reflexivity.
Qed.

(* ================================================================== *)
(** * The calendar *)
(* ================================================================== *)

Section Calendar.

Import Date.

(** [YearFromTime t] is the year of [t]: the day of [t] lies within it. *)
Lemma YearFromTime_spec (t : Z) :
  DayFromYear (YearFromTime t) <= Day t < DayFromYear (YearFromTime t + 1).
Proof.
  unfold YearFromTime. set (d := Day t). clearbody d.
  set (y := 1970 + d * 400 / 146097).
  assert (H : DayFromYear (y - 1) <= d < DayFromYear (y + 2)).
  { unfold y, DayFromYear. Z.div_mod_to_equations. lia. }
  destruct (Z.ltb_spec d (DayFromYear y)).
  - replace (y - 1 + 1) with y by lia. lia.
  - destruct (Z.leb_spec (DayFromYear (y + 1)) d).
    + replace (y + 1 + 1) with (y + 2) by lia. lia.
    + lia.
Qed.

(** It is the largest such year, as ECMA-262 defines it. *)
Lemma DayFromYear_mono (y z : Z) : y <= z -> DayFromYear y <= DayFromYear z.
Proof. unfold DayFromYear. intros H. Z.div_mod_to_equations. lia. Qed.

Lemma YearFromTime_largest (t y : Z) :
  TimeFromYear y <= t -> y <= YearFromTime t.
Proof.
  unfold TimeFromYear. intros H.
  assert (Hd : DayFromYear y <= Day t).
  { unfold Day, msPerDay in *. Z.div_mod_to_equations. lia. }
  destruct (Z_le_gt_dec y (YearFromTime t)) as [| G]; [assumption |].
  pose proof (YearFromTime_spec t) as [_ S].
  pose proof (DayFromYear_mono (YearFromTime t + 1) y). lia.
Qed.

Lemma year_length (y : Z) : DayFromYear (y + 1) - DayFromYear y = DaysInYear y.
Proof.
  unfold DayFromYear, DaysInYear.
  destruct (Z.eqb_spec (y mod 4) 0); destruct (Z.eqb_spec (y mod 100) 0);
    destruct (Z.eqb_spec (y mod 400) 0); simpl negb; cbv iota;
    Z.div_mod_to_equations; lia.
Qed.

Lemma DayWithinYear_range (t : Z) :
  0 <= DayWithinYear t < 365 + InLeapYear t.
Proof.
  unfold DayWithinYear, InLeapYear.
  pose proof (YearFromTime_spec t) as S.
  pose proof (year_length (YearFromTime t)) as L.
  assert (D : DaysInYear (YearFromTime t) = 365 \/
              DaysInYear (YearFromTime t) = 366).
  { unfold DaysInYear. repeat destruct (negb _); auto. }
  destruct D as [D | D]; rewrite D in *; simpl; lia.
Qed.

Lemma MonthFromTime_range (t : Z) : 0 <= MonthFromTime t <= 11.
Proof.
  unfold MonthFromTime.
  repeat match goal with
         | |- context [if ?b then _ else _] => destruct b
         end; lia.
Qed.

Lemma DateFromTime_range (t : Z) : 1 <= DateFromTime t <= 31.
Proof.
  pose proof (DayWithinYear_range t) as R.
  assert (L : InLeapYear t = 0 \/ InLeapYear t = 1).
  { unfold InLeapYear. destruct (_ =? _); auto. }
  unfold DateFromTime, MonthFromTime.
  repeat match goal with
         | |- context [if ?a <? ?b then _ else _] =>
           destruct (Z.ltb_spec a b)
         end; cbv iota beta; lia.
Qed.

Lemma HourFromTime_range (t : Z) : 0 <= HourFromTime t <= 23.
Proof. unfold HourFromTime. pose proof (Z.mod_pos_bound (t / msPerHour) 24). lia. Qed.

Lemma MinFromTime_range (t : Z) : 0 <= MinFromTime t <= 59.
Proof. unfold MinFromTime. pose proof (Z.mod_pos_bound (t / msPerMinute) 60). lia. Qed.

Lemma SecFromTime_range (t : Z) : 0 <= SecFromTime t <= 59.
Proof. unfold SecFromTime. pose proof (Z.mod_pos_bound (t / msPerSecond) 60). lia. Qed.

End Calendar.

(* ================================================================== *)
(** * Numbers and timestamps as text *)
(* ================================================================== *)

Section Decimal.

Import Number.

Lemma decimal_snoc (a : jsstring) (c : char) :
  decimal (a ++ [c]) = 10 * decimal a + Chr.digitValue c.
Proof. unfold decimal. now rewrite fold_left_app. Qed.

(** With fuel for its number of digits, [digits] writes [n] in decimal. *)
Lemma digits_value (f : nat) :
  forall n, 0 <= n < 10 ^ Z.of_nat f ->
    decimal (digits f n) = n /\
    Forall (fun c => Chr.isDigit c = true) (digits f n).
Proof.
  induction f as [| f IH]; intros n Hn.
  - change (10 ^ Z.of_nat 0) with 1 in Hn. assert (n = 0) by lia. subst n.
    split; [reflexivity | constructor].
  - cbn [digits]. destruct (Z.ltb_spec n 10) as [L | G].
    + split.
      * unfold decimal, Chr.digitValue, Chr.digitChar. cbn [fold_left]. lia.
      * constructor; [| constructor]. apply isDigit_range.
        unfold Chr.digitChar. lia.
    + assert (Hq : 0 <= n / 10 < 10 ^ Z.of_nat f).
      { rewrite Nat2Z.inj_succ, Z.pow_succ_r in Hn by lia.
        Z.div_mod_to_equations. lia. }
      destruct (IH _ Hq) as [Hv Hd]. split.
      * rewrite decimal_snoc, Hv. unfold Chr.digitValue, Chr.digitChar.
        Z.div_mod_to_equations. lia.
      * apply Forall_app. split; [exact Hd |].
        constructor; [| constructor]. apply isDigit_range.
        unfold Chr.digitChar. Z.div_mod_to_equations. lia.
Qed.

(** More fuel changes nothing. *)
Lemma digits_fuel (f : nat) :
  forall n g, 0 <= n < 10 ^ Z.of_nat (S f) ->
    digits (S f + g) n = digits (S f) n.
Proof.
  induction f as [| f IH]; intros n g Hn.
  - change (10 ^ Z.of_nat 1) with 10 in Hn. cbn [digits Nat.add].
    destruct (Z.ltb_spec n 10); [reflexivity | lia].
  - change (S (S f) + g)%nat with (S (S f + g)). cbn [digits].
    destruct (Z.ltb_spec n 10); [reflexivity |].
    rewrite IH; [reflexivity |].
    rewrite (Nat2Z.inj_succ (S f)), Z.pow_succ_r in Hn by lia.
    Z.div_mod_to_equations. lia.
Qed.

(** [digitsFuel] gives enough. *)
Lemma digitsFuel_enough (n : Z) : 0 <= n -> n < 10 ^ Z.of_nat (digitsFuel n).
Proof.
  intros Hn. unfold digitsFuel.
  rewrite Nat2Z.inj_succ, Z2Nat.id by apply Z.log2_nonneg.
  destruct (Z.eq_dec n 0) as [-> | Hz]; [reflexivity |].
  pose proof (Z.log2_spec n ltac:(lia)) as [_ Hlt].
  pose proof (Z.log2_nonneg n).
  assert (2 ^ Z.succ (Z.log2 n) <= 10 ^ Z.succ (Z.log2 n))
    by (apply Z.pow_le_mono_l; lia).
  lia.
Qed.

Lemma toString_digits (n : Z) (f : nat) :
  0 <= n < 10 ^ Z.of_nat (S f) -> toString (Num n) = digits (S f) n.
Proof.
  intros Hn. unfold toString. destruct (Z.ltb_spec n 0); [lia |].
  pose proof (digitsFuel_enough n ltac:(lia)) as He.
  unfold digitsFuel in *. set (k := Z.to_nat (Z.log2 n)) in *.
  destruct (Nat.le_gt_cases f k) as [L | G].
  - replace (S k) with (S f + (k - f))%nat by lia. now apply digits_fuel.
  - replace (S f) with (S k + (f - k))%nat by lia.
    symmetry. apply digits_fuel. lia.
Qed.

(** The text of a non-negative number reads back as the number. *)
Lemma toString_value (n : Z) :
  0 <= n ->
  decimal (toString (Num n)) = n /\
  Forall (fun c => Chr.isDigit c = true) (toString (Num n)).
Proof.
  intros Hn. pose proof (digitsFuel_enough n Hn) as He.
  unfold toString. destruct (Z.ltb_spec n 0); [lia |].
  apply digits_value. lia.
Qed.

Lemma toString_one (n : Z) :
  0 <= n < 10 -> toString (Num n) = [Chr.digitChar n].
Proof.
  intros H. rewrite (toString_digits n 0) by (simpl; lia).
  cbn [digits]. destruct (Z.ltb_spec n 10); [reflexivity | lia].
Qed.

Lemma toString_two (n : Z) : 10 <= n < 100 -> toString (Num n) = two n.
Proof.
  intros H. rewrite (toString_digits n 1) by (simpl; lia).
  cbn [digits]. destruct (Z.ltb_spec n 10); [lia |].
  destruct (Z.ltb_spec (n / 10) 10); [reflexivity |].
  Z.div_mod_to_equations. lia.
Qed.

Lemma toString_four (n : Z) : 1000 <= n < 10000 -> toString (Num n) = four n.
Proof.
  intros H. rewrite (toString_digits n 3) by (simpl; lia).
  cbn [digits].
  destruct (Z.ltb_spec n 10); [lia |].
  destruct (Z.ltb_spec (n / 10) 10); [Z.div_mod_to_equations; lia |].
  destruct (Z.ltb_spec (n / 10 / 10) 10); [Z.div_mod_to_equations; lia |].
  destruct (Z.ltb_spec (n / 10 / 10 / 10) 10);
    [| Z.div_mod_to_equations; lia].
  unfold four. cbn [app].
  rewrite !Z.div_div by lia. reflexivity.
Qed.

(** [pad] writes a number below 100 with two digits. *)
Lemma pad_two (n : Z) : 0 <= n <= 99 -> pad (Num n) = two n.
Proof.
  intros H. unfold pad. destruct (Z_lt_ge_dec n 10) as [L | G].
  - rewrite toString_one by lia. unfold two.
    rewrite Z.div_small, Z.mod_small by lia. reflexivity.
  - rewrite toString_two by lia. reflexivity.
Qed.

End Decimal.

Section Format.

Import Date.

(** The compact timestamp of a valid date, field by field. *)
Lemma formatDateTo5545_fields (t : Z) :
  formatDateTo5545 (Num t)
  = Number.toString (Num (YearFromTime t))
    ++ two (MonthFromTime t + 1) ++ two (DateFromTime t) ++ str "T"
    ++ two (HourFromTime t) ++ two (MinFromTime t) ++ two (SecFromTime t)
    ++ str "Z".
Proof.
  unfold formatDateTo5545, getUTCFullYear, getUTCMonth, getUTCDate,
    getUTCHours, getUTCMinutes, getUTCSeconds, getter, add.
  pose proof (MonthFromTime_range t). pose proof (DateFromTime_range t).
  pose proof (HourFromTime_range t). pose proof (MinFromTime_range t).
  pose proof (SecFromTime_range t).
  rewrite !pad_two by lia. reflexivity.
Qed.

End Format.

(* ================================================================== *)
(** * The lines of the iCalendar block *)
(* ================================================================== *)

Section Lines.

Lemma noNewline_app (a b : jsstring) :
  noNewline a -> noNewline b -> noNewline (a ++ b).
Proof.
  unfold noNewline. intros Ha Hb K. apply in_app_or in K. tauto.
Qed.

Lemma noNewline_check (s : jsstring) :
  forallb (fun c => negb (c =? Chr.newline)) s = true -> noNewline s.
Proof.
  unfold noNewline. intros H K. rewrite forallb_forall in H.
  apply H in K. now rewrite Z.eqb_refl in K.
Qed.

Lemma noNewline_digits (s : jsstring) :
  Forall (fun c => Chr.isDigit c = true) s -> noNewline s.
Proof.
  unfold noNewline. intros H K. rewrite Forall_forall in H.
  apply H in K. discriminate.
Qed.

Lemma noNewline_toString (n : number) : noNewline (Number.toString n).
Proof.
  destruct n as [z |]; [| now apply noNewline_check].
  unfold Number.toString. destruct (Z.ltb_spec z 0).
  - change (Chr.hyphen :: ?d) with ([Chr.hyphen] ++ d).
    apply noNewline_app; [now apply noNewline_check |].
    apply noNewline_digits, digits_value.
    pose proof (digitsFuel_enough (- z)). lia.
  - apply noNewline_digits, digits_value.
    pose proof (digitsFuel_enough z). lia.
Qed.

Lemma noNewline_concat (l : list jsstring) :
  Forall noNewline l -> noNewline (concat l).
Proof.
  induction 1 as [| x l Hx _ IH]; simpl; [intros [] |].
  now apply noNewline_app.
Qed.

Lemma noNewline_firstn (k : nat) (s : jsstring) :
  noNewline s -> noNewline (firstn k s).
Proof.
  unfold noNewline. intros H K. apply H.
  rewrite <- (firstn_skipn k s). apply in_or_app. now left.
Qed.

Lemma noNewline_padStart (s fill : jsstring) (k : nat) :
  noNewline s -> noNewline fill -> noNewline (Str.padStart s k fill).
Proof.
  intros Hs Hf. unfold Str.padStart.
  destruct (k <=? length s)%nat; [exact Hs |].
  destruct fill as [| c fill]; [exact Hs |].
  apply noNewline_app; [| exact Hs].
  apply noNewline_firstn, noNewline_concat, Forall_forall.
  intros x Hx. apply repeat_spec in Hx. now subst x.
Qed.

Lemma noNewline_pad (n : number) : noNewline (pad n).
Proof.
  apply noNewline_padStart; [apply noNewline_toString |].
  now apply noNewline_check.
Qed.

Lemma noNewline_format (d : Date.Date) : noNewline (formatDateTo5545 d).
Proof.
  unfold formatDateTo5545.
  repeat apply noNewline_app;
    try apply noNewline_toString; try apply noNewline_pad;
    now apply noNewline_check.
Qed.

Lemma noNewline_join (l : list jsstring) (sep : jsstring) :
  Forall noNewline l -> noNewline sep -> noNewline (Str.join l sep).
Proof.
  intros Hl Hs. induction Hl as [| x l Hx Hl IH]; [intros [] |].
  destruct l as [| y l]; [exact Hx |].
  change (Str.join (x :: y :: l) sep) with (x ++ sep ++ Str.join (y :: l) sep).
  repeat apply noNewline_app; assumption.
Qed.

Lemma noNewline_translate (c : char) : noNewline (translate c).
Proof.
  destruct (isDayLetter c) eqn:E.
  - apply isDayLetter_cases in E. simpl in E.
    repeat (destruct E as [<- | E]; [now apply noNewline_check |]).
    contradiction.
  - unfold translate.
    assert (G : get dayMap [c] = None).
    { unfold isDayLetter in E.
      change (str "MTWRFSU") with [77; 84; 87; 82; 70; 83; 85] in E.
      cbn [existsb] in E.
      repeat (apply orb_false_iff in E; destruct E as [? E]).
      cbn.
      repeat match goal with
             | H : (c =? _) = false |- _ => rewrite H; clear H
             end.
      reflexivity. }
    rewrite G. intros [].
Qed.

(** Splitting a text at the newlines gives back the lines it was joined
    from. *)
Lemma lines_join (x : jsstring) (l : list jsstring) :
  Forall noNewline (x :: l) ->
  lines (Str.join (x :: l) [Chr.newline]) = x :: l.
Proof.
  unfold lines, Str.split. revert x.
  induction l as [| y l IH]; intros x H.
  - apply splitFrom_no_sep. exact (Forall_inv H).
  - change (Str.join (x :: y :: l) [Chr.newline])
      with (x ++ Chr.newline :: Str.join (y :: l) [Chr.newline]).
    rewrite splitFrom_at_sep by exact (Forall_inv H).
    f_equal. apply IH. exact (Forall_inv_tail H).
Qed.

End Lines.

Section Formatter.

Variable LocalTZA : Z -> bool -> Z.

Lemma parseTo5545_block (sd ed : Date.Date) (s : jsstring)
  (p : RecurrencePattern) :
  parseRecurrenceString s = Ok p ->
  parseTo5545 LocalTZA sd ed s = Ok (Str.join (block LocalTZA sd ed p) [Chr.newline]).
Proof. intros H. unfold parseTo5545. rewrite H. reflexivity. Qed.

Lemma block_noNewline (sd ed : Date.Date) (s : jsstring)
  (p : RecurrencePattern) :
  parseRecurrenceString s = Ok p -> Forall noNewline (block LocalTZA sd ed p).
Proof.
  intros H. apply parse_ok in H.
  destruct H as (dm & tm & d & t1 & t2 & _ & _ & _ & _ & _ & _ & _ & _ & ->).
  assert (Hd : noNewline (Str.join (map translate d) (str ","))).
  { apply noNewline_join; [| now apply noNewline_check].
    apply Forall_forall. intros x Hx. apply in_map_iff in Hx.
    destruct Hx as (c & <- & _). apply noNewline_translate. }
  unfold block, rruleLine. cbn [days].
  repeat apply Forall_cons; try apply Forall_nil;
    repeat first [ exact Hd
                 | apply noNewline_format
                 | apply noNewline_check; reflexivity
                 | apply noNewline_app ].
Qed.

End Formatter.

(* ================================================================== *)
(** * The embedding at work *)
(* ================================================================== *)

(** The two dates of the example period read back as written. *)
Example period_reads_back :
  Date.toISOString startDate = Ok (str "2025-03-10T00:00:00.000Z") /\
  Date.toISOString endDate = Ok (str "2025-06-10T23:59:59.000Z").
Proof. split; vm_compute; reflexivity. Qed.

(** The tests of the repository pass, on a host in UTC and on one four
    hours behind. *)
Example tests_pass :
  forallb (fun r => test5545 Date.utcHost r && test8984 Date.utcHost r
                    && test5545 (Date.fixedOffsetHost (-4)) r
                    && test8984 (Date.fixedOffsetHost (-4)) r)
          testRecurrenceStrings = true.
Proof. vm_compute. reflexivity. Qed.

Example letters_T_and_R :
  translate (chr "T") = str "TU" /\ translate (chr "R") = str "TH".
Proof. split; reflexivity. Qed.

(** Days come out in the order typed, duplicates included. *)
Example order_and_duplicates :
  parseRecurrenceString (str "RTT 14:00-15:30")
  = Ok (mkPattern [str "TH"; str "TU"; str "TU"]
          (mkClock (Num 14) (Num 0)) (mkClock (Num 15) (Num 30))).
Proof. vm_compute. reflexivity. Qed.

Example no_day_prefix :
  parseRecurrenceString (str "11am-12:15pm") = Throw daysNotFound.
Proof. vm_compute. reflexivity. Qed.

Example no_time_range :
  parseRecurrenceString (str "MWF sometime") = Throw timesNotFound.
Proof. vm_compute. reflexivity. Qed.

Example monday_8984 :
  parseTo8984 Date.utcHost startDate endDate (str "M 8am-9:40am")
  = Ok (mkEvent (str "2025-03-10T08:00:00.000Z")
                (str "2025-03-10T09:40:00.000Z")
                (mkRule (str "WEEKLY") [str "MO"]
                        (str "2025-06-10T23:59:59.000Z"))).
Proof. vm_compute. reflexivity. Qed.

(* ================================================================== *)
(** * The claims *)
(* ================================================================== *)

Lemma example_parse :
  parseRecurrenceString (str "TR 11am-12:15pm")
  = Ok (mkPattern [str "TU"; str "TH"]
          (mkClock (Num 11) (Num 0)) (mkClock (Num 12) (Num 15))).
Proof. vm_compute. reflexivity. Qed.

Lemma example_until : formatDateTo5545 endDate = str "20250610T235959Z".
Proof. vm_compute. reflexivity. Qed.

(** C1, as amended.  On the period 2025-03-10T00:00:00Z to
    2025-06-10T23:59:59Z and the recurrence string "TR 11am-12:15pm",
    [parseTo5545] succeeds on every host; its output has the line
    [RRULE:FREQ=WEEKLY;BYDAY=TU,TH;UNTIL=20250610T235959Z]; its DTSTART and
    DTEND lines are the UTC timestamps of the instants whose local time on
    the host is 11:00:00 and 12:15:00 on the local calendar day of the
    period start; on a host whose local time is UTC they read
    [20250310T110000Z] and [20250310T121500Z]. *)
Theorem C1_example_5545 :
  (forall LocalTZA : Z -> bool -> Z,
     let dtStart := setTime LocalTZA startDate (Num 11) (Num 0) in
     let dtEnd := setTime LocalTZA startDate (Num 12) (Num 15) in
     let day := Date.Day (Date.LocalTime LocalTZA 1741564800000) in
     exists out,
       parseTo5545 LocalTZA startDate endDate (str "TR 11am-12:15pm") = Ok out /\
       lines out
       = [ str "BEGIN:VEVENT";
           str "DTSTART:" ++ formatDateTo5545 dtStart;
           str "DTEND:" ++ formatDateTo5545 dtEnd;
           str "RRULE:FREQ=WEEKLY;BYDAY=TU,TH;UNTIL=20250610T235959Z";
           str "END:VEVENT" ] /\
       dtStart
       = Date.TimeClip
           (Num (Date.UTC LocalTZA
                   (day * Date.msPerDay + (11 * Date.msPerHour + 0)))) /\
       dtEnd
       = Date.TimeClip
           (Num (Date.UTC LocalTZA
                   (day * Date.msPerDay
                    + (12 * Date.msPerHour + 15 * Date.msPerMinute))))) /\
  parseTo5545 Date.utcHost startDate endDate (str "TR 11am-12:15pm")
  = Ok (Str.join
          [ str "BEGIN:VEVENT";
            str "DTSTART:20250310T110000Z";
            str "DTEND:20250310T121500Z";
            str "RRULE:FREQ=WEEKLY;BYDAY=TU,TH;UNTIL=20250610T235959Z";
            str "END:VEVENT" ]
          [Chr.newline]).
Proof.
  split; [| vm_compute; reflexivity].
  intros LocalTZA dtStart dtEnd day.
  pose proof example_parse as P.
  exists (Str.join (block LocalTZA startDate endDate
                      (mkPattern [str "TU"; str "TH"]
                         (mkClock (Num 11) (Num 0))
                         (mkClock (Num 12) (Num 15))))
            [Chr.newline]).
  split; [now apply parseTo5545_block |].
  split.
  - pose proof (block_noNewline LocalTZA startDate endDate _ _ P) as N.
    unfold block in *. rewrite (lines_join _ _ N).
    unfold rruleLine. cbn [days startTime endTime hours minutes].
    rewrite example_until. reflexivity.
  - split; reflexivity.
Qed.

(** C1 fails as stated: on a host four hours behind UTC the DTSTART and
    DTEND lines carry 15:00:00 and 16:15:00 (on March 9), and no line of
    the output is a DTSTART line with the time 11:00:00. *)
Lemma C1_counterexample :
  exists out,
    parseTo5545 (Date.fixedOffsetHost (-4)) startDate endDate
      (str "TR 11am-12:15pm") = Ok out /\
    lines out
    = [ str "BEGIN:VEVENT";
        str "DTSTART:20250309T150000Z";
        str "DTEND:20250309T161500Z";
        str "RRULE:FREQ=WEEKLY;BYDAY=TU,TH;UNTIL=20250610T235959Z";
        str "END:VEVENT" ] /\
    forall date,
      ~ In (str "DTSTART:" ++ date ++ str "T110000Z") (lines out).
Proof.
  eexists. split; [vm_compute; reflexivity |].
  split; [vm_compute; reflexivity |].
  intros date H.
  change (lines _) with
    [ str "BEGIN:VEVENT"; str "DTSTART:20250309T150000Z";
      str "DTEND:20250309T161500Z";
      str "RRULE:FREQ=WEEKLY;BYDAY=TU,TH;UNTIL=20250610T235959Z";
      str "END:VEVENT" ] in H.
  destruct H as [H | [H | [H | [H | [H | []]]]]]; try discriminate H.
  apply (f_equal (@rev char)) in H.
  change (str "DTSTART:" ++ date ++ str "T110000Z")
    with (str "DTSTART:" ++ (date ++ str "T110000Z")) in H.
  rewrite !rev_app_distr in H. discriminate H.
Qed.

(** C2, as amended.  Whenever the parser succeeds, the text that
    [parseTo5545] returns is a block of five lines in fixed order,
    BEGIN:VEVENT, the DTSTART line, the DTEND line, the RRULE line and
    END:VEVENT, joined by newline characters, with no trailing newline. *)
Theorem C2_block_of_five_lines (LocalTZA : Z -> bool -> Z)
  (periodStart periodEnd : Date.Date) (s : jsstring)
  (p : RecurrencePattern) :
  parseRecurrenceString s = Ok p ->
  exists out dtStart dtEnd,
    parseTo5545 LocalTZA periodStart periodEnd s = Ok out /\
    dtStart = setTime LocalTZA periodStart (hours (startTime p))
                (minutes (startTime p)) /\
    dtEnd = setTime LocalTZA periodStart (hours (endTime p))
              (minutes (endTime p)) /\
    lines out
    = [ str "BEGIN:VEVENT";
        str "DTSTART:" ++ formatDateTo5545 dtStart;
        str "DTEND:" ++ formatDateTo5545 dtEnd;
        str "RRULE:FREQ=WEEKLY;BYDAY=" ++ Str.join (days p) (str ",")
        ++ str ";UNTIL=" ++ formatDateTo5545 periodEnd;
        str "END:VEVENT" ] /\
    out = Str.join (lines out) [Chr.newline] /\
    length (lines out) = 5%nat /\
    (forall text, out <> text ++ [Chr.newline]).
Proof.
  intros H.
  pose proof (block_noNewline LocalTZA periodStart periodEnd s p H) as N.
  pose proof (parseTo5545_block LocalTZA periodStart periodEnd s p H) as B.
  unfold block in *.
  pose proof (lines_join _ _ N) as L.
  eexists. do 2 eexists.
  split; [exact B |].
  split; [reflexivity |]. split; [reflexivity |].
  split; [exact L |]. rewrite L.
  split; [reflexivity |]. split; [reflexivity |].
  intros text E.
  cbn [Str.join] in E.
  change (str "END:VEVENT") with (str "END:VEVEN" ++ [chr "T"]) in E.
  rewrite !app_assoc in E. apply app_inj_tail in E.
  destruct E as [_ E]. discriminate E.
Qed.

Lemma C2_block_of_five_lines_witness :
  exists out,
    parseTo5545 Date.utcHost startDate endDate (str "TR 11am-12:15pm") = Ok out /\
    length (lines out) = 5%nat.
Proof.
  destruct (C2_block_of_five_lines Date.utcHost startDate endDate
              (str "TR 11am-12:15pm") _ example_parse)
    as (out & _ & _ & E & _ & _ & _ & _ & L & _).
  exists out. split; [exact E | exact L].
Defined.

(** C2 fails as stated: the block has five lines, not six. *)
Lemma C2_counterexample :
  exists out,
    parseTo5545 Date.utcHost startDate endDate (str "TR 11am-12:15pm") = Ok out /\
    length (lines out) = 5%nat /\ length (lines out) <> 6%nat.
Proof.
  eexists. split; [vm_compute; reflexivity |].
  split; [vm_compute; reflexivity | vm_compute; discriminate].
Qed.

(** C3, as amended.  Whenever the parser succeeds, the hours and the
    minutes of [startTime] and of [endTime] are integers between 0 and 99:
    each comes from one or two digits, and neither is checked against 23
    or 59. *)
Theorem C3_clock_ranges (s : jsstring) (p : RecurrencePattern) :
  parseRecurrenceString s = Ok p ->
  exists h1 m1 h2 m2,
    startTime p = mkClock (Num h1) (Num m1) /\
    endTime p = mkClock (Num h2) (Num m2) /\
    0 <= h1 <= 99 /\ 0 <= m1 <= 99 /\ 0 <= h2 <= 99 /\ 0 <= m2 <= 99.
Proof.
  intros H. apply parse_ok in H.
  destruct H as (dm & tm & d & t1 & t2 & _ & _ & _ & _ & _ & _
                 & (ha & ma & ka & S1) & (hb & mb & kb & S2) & ->).
  destruct (clock_bounds _ _ _ _ S1) as (h1 & m1 & E1 & B1 & B1').
  destruct (clock_bounds _ _ _ _ S2) as (h2 & m2 & E2 & B2 & B2').
  exists h1, m1, h2, m2. cbn [startTime endTime].
  repeat split; assumption || lia.
Qed.

Lemma C3_clock_ranges_witness :
  exists h1 m1 h2 m2,
    mkClock (Num 11) (Num 0) = mkClock (Num h1) (Num m1) /\
    mkClock (Num 12) (Num 15) = mkClock (Num h2) (Num m2) /\
    0 <= h1 <= 99 /\ 0 <= m1 <= 99 /\ 0 <= h2 <= 99 /\ 0 <= m2 <= 99.
Proof.
  exact (C3_clock_ranges (str "TR 11am-12:15pm") _ example_parse).
Defined.

(** C3 fails as stated: "M 25:99-13pm" parses, with start time 25:99 and
    end time 13:00. *)
Lemma C3_counterexample :
  parseRecurrenceString (str "M 25:99-13pm")
  = Ok (mkPattern [str "MO"] (mkClock (Num 25) (Num 99))
          (mkClock (Num 13) (Num 0)))
  /\ ~ (25 <= 23) /\ ~ (99 <= 59).
Proof. split; [vm_compute; reflexivity | lia]. Qed.

(** C4, as amended.  For every valid date, the compact timestamp is the
    text of the UTC year, then month, day, the letter T, hours, minutes
    and seconds, each of the five zero-padded to two digits, then the
    letter Z; when the UTC year lies between 1000 and 9999 the year is its
    four digits and the whole is the sixteen characters
    YYYYMMDDTHHMMSSZ. *)
Theorem C4_compact_timestamp (date : Date.Date) :
  validDate date ->
  exists t,
    date = Num t /\
    let y := Date.YearFromTime t in
    let mo := Date.MonthFromTime t + 1 in
    let d := Date.DateFromTime t in
    let h := Date.HourFromTime t in
    let mi := Date.MinFromTime t in
    let sec := Date.SecFromTime t in
    (1 <= mo <= 12 /\ 1 <= d <= 31 /\ 0 <= h <= 23 /\ 0 <= mi <= 59 /\
     0 <= sec <= 59) /\
    formatDateTo5545 date
    = Number.toString (Num y) ++ two mo ++ two d ++ str "T"
      ++ two h ++ two mi ++ two sec ++ str "Z" /\
    (1000 <= y <= 9999 ->
     formatDateTo5545 date
     = four y ++ two mo ++ two d ++ str "T" ++ two h ++ two mi ++ two sec
       ++ str "Z" /\
     length (formatDateTo5545 date) = 16%nat).
Proof.
  unfold validDate. intros V. destruct date as [t |]; [clear V | congruence].
  exists t. split; [reflexivity |]. cbv zeta.
  pose proof (MonthFromTime_range t). pose proof (DateFromTime_range t).
  pose proof (HourFromTime_range t). pose proof (MinFromTime_range t).
  pose proof (SecFromTime_range t).
  split; [lia |].
  split; [apply formatDateTo5545_fields |].
  intros Hy. rewrite formatDateTo5545_fields, toString_four by lia.
  split; reflexivity.
Qed.

Lemma C4_compact_timestamp_witness :
  formatDateTo5545 startDate
  = four 2025 ++ two 3 ++ two 10 ++ str "T" ++ two 0 ++ two 0 ++ two 0
    ++ str "Z"
  /\ length (formatDateTo5545 startDate) = 16%nat.
Proof.
  assert (V : validDate startDate) by (vm_compute; discriminate).
  destruct (C4_compact_timestamp startDate V) as (t & E & _ & _ & K).
  vm_compute in E. injection E as <-.
  apply K. vm_compute. split; discriminate.
Defined.

(** C4 fails as stated: the date 0999-01-01T00:00:00Z is valid and its
    timestamp has a year of three digits; the year 12345 gives five. *)
Lemma C4_counterexample :
  validDate (Date.utc 999 0 1 0 0 0) /\
  Date.toISOString (Date.utc 999 0 1 0 0 0)
  = Ok (str "0999-01-01T00:00:00.000Z") /\
  formatDateTo5545 (Date.utc 999 0 1 0 0 0) = str "9990101T000000Z" /\
  length (formatDateTo5545 (Date.utc 999 0 1 0 0 0)) = 15%nat /\
  validDate (Date.utc 12345 0 1 0 0 0) /\
  formatDateTo5545 (Date.utc 12345 0 1 0 0 0) = str "123450101T000000Z".
Proof.
  split; [vm_compute; discriminate |].
  split; [vm_compute; reflexivity |].
  split; [vm_compute; reflexivity |].
  split; [vm_compute; reflexivity |].
  split; [vm_compute; discriminate | vm_compute; reflexivity].
Qed.





(** C7.  When a parsed string's time range carries an am/pm marker on its
    second token only, the start hour is the hour digits of the first
    token read in decimal, without adjustment: nothing is inferred from
    the second token.  In "M 11-12:15pm" the start hour is 11. *)
Theorem C7_no_marker_inference :
  (forall s p m t1 t2,
     parseRecurrenceString s = Ok p ->
     Regex.exec s timeRe = Some m ->
     group m 1 = Some t1 -> group m 2 = Some t2 ->
     hasMarker t1 = false -> hasMarker t2 = true ->
     hours (startTime p)
     = Num (Number.decimal (Str.takeWhile Chr.isDigit t1))) /\
  (exists p, parseRecurrenceString (str "M 11-12:15pm") = Ok p /\
             hours (startTime p) = Num 11 /\ hours (startTime p) <> Num 23).
Proof.
  split.
  - intros s p m t1 t2 H E G1 G2 M1 _.
    apply parse_ok in H.
    destruct H as (dm & tm & d & t1' & t2' & _ & Et & _ & G1' & _ & _
                   & (h & mi & k & S1) & _ & ->).
    assert (tm = m) by congruence. subst tm.
    assert (t1' = t1) by congruence. subst t1'.
    rewrite (hasMarker_shape _ _ _ _ S1) in M1.
    destruct k; [discriminate |].
    cbn [startTime]. rewrite (parseTime_shape _ _ _ _ S1).
    cbn [hours]. now rewrite (leading_digits _ _ _ _ S1).
  - eexists. split; [vm_compute; reflexivity |].
    split; [reflexivity | discriminate].
Qed.

Lemma C7_no_marker_inference_witness :
  exists p, parseRecurrenceString (str "M 11-12:15pm") = Ok p /\
            hours (startTime p) = Num (Number.decimal (str "11")).
Proof.
  destruct C7_no_marker_inference as [K _].
  destruct (parseRecurrenceString (str "M 11-12:15pm")) as [p | e] eqn:P;
    [| vm_compute in P; discriminate].
  destruct (Regex.exec (str "M 11-12:15pm") timeRe) as [m |] eqn:E;
    [| vm_compute in E; discriminate].
  exists p. split; [reflexivity |].
  apply (K _ p m (str "11") (str "12:15pm") P E).
  - vm_compute in E. injection E as <-. reflexivity.
  - vm_compute in E. injection E as <-. reflexivity.
  - reflexivity.
  - reflexivity.
Defined.

Lemma toISOString_valid (d : Date.Date) :
  validDate d -> exists text, Date.toISOString d = Ok text.
Proof.
  unfold validDate. destruct d as [t |]; [| congruence].
  intros _. eexists. reflexivity.
Qed.

(** C8, as amended.  When the parser fails, [parseTo5545] and
    [parseTo8984] fail with the parser's error, unchanged.  When the
    parser succeeds, [parseTo5545] succeeds, whatever the period and the
    times are; [parseTo8984] succeeds when the event start, the event end
    and the period end are valid dates, and otherwise fails with the
    RangeError of the ISO serialization.  Neither checks the order of the
    period bounds or of the two times. *)
Theorem C8_formatters_and_parser_failure (LocalTZA : Z -> bool -> Z)
  (periodStart periodEnd : Date.Date) (s : jsstring) :
  (forall e,
     parseRecurrenceString s = Throw e ->
     parseTo5545 LocalTZA periodStart periodEnd s = Throw e /\
     parseTo8984 LocalTZA periodStart periodEnd s = Throw e) /\
  (forall p,
     parseRecurrenceString s = Ok p ->
     let eventStart := setTime LocalTZA periodStart (hours (startTime p))
                         (minutes (startTime p)) in
     let eventEnd := setTime LocalTZA periodStart (hours (endTime p))
                       (minutes (endTime p)) in
     (exists out, parseTo5545 LocalTZA periodStart periodEnd s = Ok out) /\
     (validDate eventStart /\ validDate eventEnd /\ validDate periodEnd ->
      exists ev, parseTo8984 LocalTZA periodStart periodEnd s = Ok ev) /\
     (~ (validDate eventStart /\ validDate eventEnd /\ validDate periodEnd) ->
      parseTo8984 LocalTZA periodStart periodEnd s = Throw RangeError)).
Proof.
  split.
  - intros e H. unfold parseTo5545, parseTo8984. rewrite H. split; reflexivity.
  - intros p H eventStart eventEnd.
    unfold parseTo5545, parseTo8984. rewrite H. cbn [bind].
    fold eventStart eventEnd.
    split; [eexists; reflexivity |]. split.
    + intros (V1 & V2 & V3).
      destruct (toISOString_valid _ V1) as (a & ->).
      destruct (toISOString_valid _ V2) as (b & ->).
      destruct (toISOString_valid _ V3) as (c & ->).
      eexists. reflexivity.
    + intros N. unfold validDate in N.
      destruct eventStart as [t1 |]; [| reflexivity].
      destruct eventEnd as [t2 |]; [| reflexivity].
      destruct periodEnd as [t3 |]; [| reflexivity].
      exfalso. apply N. repeat split; discriminate.
Qed.

Lemma C8_formatters_and_parser_failure_witness :
  (parseTo5545 Date.utcHost startDate endDate (str "MWF sometime")
   = Throw timesNotFound /\
   parseTo8984 Date.utcHost startDate endDate (str "MWF sometime")
   = Throw timesNotFound) /\
  (exists out,
     parseTo5545 Date.utcHost startDate endDate (str "M 8am-9:40am") = Ok out) /\
  (exists ev,
     parseTo8984 Date.utcHost startDate endDate (str "M 8am-9:40am") = Ok ev) /\
  parseTo8984 Date.utcHost startDate NaN (str "M 8am-9:40am")
  = Throw RangeError.
Proof.
  split; [| split; [| split]].
  - destruct (C8_formatters_and_parser_failure Date.utcHost startDate endDate
                (str "MWF sometime")) as [K _].
    apply K. vm_compute. reflexivity.
  - destruct (C8_formatters_and_parser_failure Date.utcHost startDate endDate
                (str "M 8am-9:40am")) as [_ K].
    destruct (parseRecurrenceString (str "M 8am-9:40am")) as [p | e] eqn:P;
      [| vm_compute in P; discriminate].
    apply (K p eq_refl).
  - destruct (C8_formatters_and_parser_failure Date.utcHost startDate endDate
                (str "M 8am-9:40am")) as [_ K].
    destruct (parseRecurrenceString (str "M 8am-9:40am")) as [p | e] eqn:P;
      [| vm_compute in P; discriminate].
    apply (K p eq_refl). vm_compute in P. injection P as <-.
    repeat split; vm_compute; discriminate.
  - destruct (C8_formatters_and_parser_failure Date.utcHost startDate NaN
                (str "M 8am-9:40am")) as [_ K].
    destruct (parseRecurrenceString (str "M 8am-9:40am")) as [p | e] eqn:P;
      [| vm_compute in P; discriminate].
    apply (K p eq_refl). intros (_ & _ & V). now apply V.
Defined.

(** C8 fails as stated: with the last instant a Date can hold as period
    start, or with an invalid Date as period end, the parser succeeds on
    "M 8am-9:40am" and [parseTo8984] fails, with a RangeError. *)
Lemma C8_counterexample :
  (exists p, parseRecurrenceString (str "M 8am-9:40am") = Ok p) /\
  validDate (Num Date.maxTime) /\ Date.TimeClip (Num Date.maxTime) = Num Date.maxTime /\
  parseTo8984 Date.utcHost (Num Date.maxTime) endDate (str "M 8am-9:40am")
  = Throw RangeError /\
  parseTo8984 Date.utcHost startDate NaN (str "M 8am-9:40am")
  = Throw RangeError.
Proof.
  split; [eexists; vm_compute; reflexivity |].
  split; [discriminate |].
  repeat split; vm_compute; reflexivity.
Qed.

(** C9.  The "unsupported day letter" branch is unreachable: on every
    input, each letter of the day run that the day pattern captures is a
    key of the Day Code Table (with a code that is not empty), and the
    parser never throws the Unsupported day letter error. *)
Theorem C9_unsupported_day_letter_unreachable (s : jsstring) :
  match Regex.exec s dayRe with
  | Some m =>
    exists d,
      group m 1 = Some d /\
      Forall (fun c => isDayLetter c = true /\
                       get dayMap [c] = Some (translate c) /\
                       translate c <> [] /\
                       dayCode [c] = Ok (translate c)) d
  | None => True
  end /\
  forall letter, parseRecurrenceString s <> Throw (unsupportedDayLetter letter).
Proof.
  split.
  - destruct (Regex.exec s dayRe) as [m |] eqn:E; [| exact I].
    destruct (exec_dayRe _ _ E) as (d & w & post & _ & _ & Hall & _ & G).
    exists d. split; [exact G |].
    eapply Forall_impl; [| exact Hall]. intros c Hc. cbv beta in *.
    split; [exact Hc |].
    apply isDayLetter_cases in Hc. simpl in Hc.
    repeat (destruct Hc as [<- | Hc];
            [repeat split; (reflexivity || discriminate) |]).
    contradiction.
  - intros letter H. apply parse_throw in H.
    destruct H as [[_ H] | (_ & _ & H)]; discriminate H.
Qed.

Lemma C9_unsupported_day_letter_unreachable_witness :
  parseRecurrenceString (str "TR 11am-12:15pm")
  <> Throw (unsupportedDayLetter (str "T")).
Proof.
  apply (C9_unsupported_day_letter_unreachable (str "TR 11am-12:15pm")).
Defined.




(* ================================================================== *)
(** * Further properties of the program *)
(* ================================================================== *)

Section Completeness.

Variable ic : bool.

Lemma power_nonempty (L : jsstring -> Prop) :
  (forall w, L w -> w <> []) ->
  forall n w, power L n w -> (n <= length w)%nat.
Proof.
  intros Hne. induction n as [| n IH]; intros w Hp; [lia |].
  destruct Hp as (w1 & w2 & -> & H1 & H2).
  apply Hne in H1. apply IH in H2. rewrite length_app.
  destruct w1; [congruence | simpl; lia].
Qed.

Lemma nullable_false (r : regex) :
  nullable r = false -> forall w, lang ic r w -> w <> [].
Proof.
  induction r as [cs | r1 IH1 r2 IH2 | r1 IH1 r2 IH2 | min max r1 IH1
                  | i r1 IH1 |]; cbn [nullable lang]; intros Hn w Hw.
  - destruct Hw as (c & -> & _). discriminate.
  - destruct Hw as (w1 & w2 & -> & H1 & H2).
    apply andb_false_iff in Hn. destruct Hn as [Hn | Hn].
    + apply (IH1 Hn) in H1. destruct w1; [congruence | discriminate].
    + apply (IH2 Hn) in H2. destruct w1; [exact H2 | discriminate].
  - apply orb_false_iff in Hn. destruct Hn as [N1 N2].
    destruct Hw as [Hw | Hw]; auto.
  - apply orb_false_iff in Hn. destruct Hn as [Hn N1].
    apply orb_false_iff in Hn. destruct Hn as [Nmin Nmax].
    apply Nat.eqb_neq in Nmin.
    destruct Hw as (n & Hc & Hp).
    assert (n <> 0)%nat.
    { destruct max as [[| mx] |]; simpl in Hc; try discriminate; lia. }
    destruct n as [| n]; [congruence |].
    destruct Hp as (w1 & w2 & -> & H1 & _).
    apply (IH1 N1) in H1. destruct w1; [congruence | discriminate].
  - auto.
  - discriminate.
Qed.

(** The repetition yields every number of iterations within the bounds,
    when the atom's matcher yields every word and no word is empty. *)
Lemma repeatMatcher_complete (m : state -> list state)
  (L : jsstring -> Prop) :
  (forall w, L w -> w <> []) ->
  (forall w x s, L w -> rest x = w ++ s ->
     exists y, In y (m x) /\ rest y = s /\ pos y = (pos x + length w)%nat) ->
  forall n fuel min max x w s,
    power L n w -> countOk min max n ->
    match max with Some mx => (mx <= fuel)%nat | None => (n < fuel)%nat end ->
    rest x = w ++ s ->
    exists y, In y (repeatMatcher m fuel min max x) /\ rest y = s /\
              pos y = (pos x + length w)%nat.
Proof.
  intros Hne Hm. induction n as [| n IH]; intros fuel min max x w s Hp Hc Hf Hr.
  - simpl in Hp. subst w. exists x. simpl in Hr.
    split; [| split; [now symmetry | simpl; lia]].
    destruct max as [[| mx] |]; simpl in Hc.
    + destruct fuel; now left.
    + destruct fuel as [| fuel]; [lia |].
      assert (min = 0%nat) by lia. subst min.
      cbn [repeatMatcher Nat.eqb]. apply in_or_app. right. now left.
    + destruct fuel as [| fuel]; [lia |].
      assert (min = 0%nat) by lia. subst min.
      cbn [repeatMatcher Nat.eqb]. apply in_or_app. right. now left.
  - destruct Hp as (w1 & w2 & -> & H1 & H2).
    rewrite <- app_assoc in Hr.
    destruct (Hm _ _ _ H1 Hr) as (y1 & Hy1 & R1 & P1).
    assert (Hpos : (pos y1 =? pos x)%nat = false).
    { apply Nat.eqb_neq. apply Hne in H1. destruct w1; [congruence |].
      simpl in P1. lia. }
    assert (Hstep : forall fuel',
      match option_map pred max with
      | Some mx => (mx <= fuel')%nat
      | None => (n < fuel')%nat
      end ->
      countOk (pred min) (option_map pred max) n ->
      exists y,
        In y (flat_map
                (fun y0 => if (min =? 0)%nat && (pos y0 =? pos x)%nat then []
                           else repeatMatcher m fuel' (pred min)
                                  (option_map pred max) y0) (m x))
        /\ rest y = s /\ pos y = (pos x + length (w1 ++ w2))%nat).
    { intros fuel' Hf' Hc'.
      destruct (IH fuel' (pred min) (option_map pred max) y1 w2 s H2 Hc' Hf' R1)
        as (y & Hy & R & P).
      exists y. split; [| split; [exact R |]].
      - apply in_flat_map. exists y1. split; [exact Hy1 |].
        rewrite Hpos, andb_false_r. exact Hy.
      - rewrite P, P1, length_app. lia. }
    destruct max as [[| mx] |]; simpl in Hc; [lia | |].
    + destruct fuel as [| fuel]; [lia |].
      destruct (Hstep fuel) as (y & Hy & R & P);
        [simpl; lia | simpl; lia |].
      exists y. split; [| split; assumption].
      cbn [repeatMatcher]. destruct (min =? 0)%nat; [apply in_or_app; now left |].
      exact Hy.
    + destruct fuel as [| fuel]; [lia |].
      destruct (Hstep fuel) as (y & Hy & R & P);
        [simpl; lia | simpl; lia |].
      exists y. split; [| split; assumption].
      cbn [repeatMatcher]. destruct (min =? 0)%nat; [apply in_or_app; now left |].
      exact Hy.
Qed.

(** The matcher reaches the end of every word of the language that lies
    ahead. *)
Lemma run_complete (r : regex) :
  anchorFree r = true -> quantOk r = true ->
  forall w x s, lang ic r w -> rest x = w ++ s ->
    exists y, In y (run ic r x) /\ rest y = s /\
              pos y = (pos x + length w)%nat.
Proof.
  induction r as [cs | r1 IH1 r2 IH2 | r1 IH1 r2 IH2 | min max r1 IH1
                  | i r1 IH1 |]; cbn [anchorFree quantOk lang];
    intros Ha Hq w x s Hw Hr.
  - destruct Hw as (c & -> & Hc). simpl in Hr.
    exists (mkState (S (pos x)) s (caps x)).
    cbn [run]. rewrite Hr, Hc. simpl. split; [now left | split; [reflexivity | lia]].
  - apply andb_true_iff in Ha. destruct Ha as [A1 A2].
    apply andb_true_iff in Hq. destruct Hq as [Q1 Q2].
    destruct Hw as (w1 & w2 & -> & H1 & H2). rewrite <- app_assoc in Hr.
    destruct (IH1 A1 Q1 _ _ _ H1 Hr) as (y1 & Hy1 & R1 & P1).
    destruct (IH2 A2 Q2 _ _ _ H2 R1) as (y & Hy & R & P).
    exists y. split; [| split; [exact R |]].
    + rewrite run_seq. apply in_flat_map. eauto.
    + rewrite P, P1, length_app. lia.
  - apply andb_true_iff in Ha. destruct Ha as [A1 A2].
    apply andb_true_iff in Hq. destruct Hq as [Q1 Q2].
    rewrite run_alt. destruct Hw as [Hw | Hw].
    + destruct (IH1 A1 Q1 _ _ _ Hw Hr) as (y & Hy & R & P).
      exists y. split; [apply in_or_app; now left | auto].
    + destruct (IH2 A2 Q2 _ _ _ Hw Hr) as (y & Hy & R & P).
      exists y. split; [apply in_or_app; now right | auto].
  - apply andb_true_iff in Hq. destruct Hq as [Hq Qb].
    apply andb_true_iff in Hq. destruct Hq as [Qn Q1].
    apply negb_true_iff in Qn.
    destruct Hw as (n & Hc & Hp).
    pose proof (nullable_false r1 Qn) as Hne.
    cbn [run]. apply (repeatMatcher_complete (run ic r1) (lang ic r1) Hne
                        (IH1 Ha Q1) n _ min max x w s Hp Hc); [| exact Hr].
    unfold quantFuel. destruct max as [mx |]; [lia |].
    apply (power_nonempty _ Hne) in Hp. rewrite Hr, length_app. lia.
  - destruct (IH1 Ha Hq _ _ _ Hw Hr) as (y & Hy & R & P).
    eexists. split; [rewrite run_group; apply in_map; exact Hy |].
    split; assumption.
  - discriminate.
Qed.

Lemma execFrom_none_run (re : RegExp) (i : nat) (s : jsstring) :
  execFrom re i s = None ->
  run (ignoreCase re) (source re) (mkState i s []) = [].
Proof.
  destruct s; simpl; destruct (run _ _ _); congruence.
Qed.

End Completeness.

(** The search finds a match whenever some part of the text is a word of
    the pattern's language. *)
Lemma exec_complete (re : RegExp) (pre w post : jsstring) :
  anchorFree (source re) = true -> quantOk (source re) = true ->
  lang (ignoreCase re) (source re) w ->
  Regex.exec (pre ++ w ++ post) re <> None.
Proof.
  intros Ha Hq Hw K. unfold Regex.exec in K.
  apply execFrom_none, execFrom_none_run in K.
  destruct (run_complete (ignoreCase re) (source re) Ha Hq w
              (mkState (0 + length pre) (w ++ post) []) post Hw eq_refl)
    as (y & Hy & _).
  rewrite K in Hy. exact Hy.
Qed.

Section TokenWords.

Lemma lang_opt_nil (ic : bool) (r : regex) : lang ic (opt r) [].
Proof. exists 0%nat. simpl. split; [lia | reflexivity]. Qed.

Lemma lang_opt_one (ic : bool) (r : regex) (w : jsstring) :
  lang ic r w -> lang ic (opt r) w.
Proof.
  intros H. exists 1%nat. simpl. split; [lia |].
  exists w, []. now rewrite app_nil_r.
Qed.

Lemma letter_class (l c : char) :
  97 <= l <= 122 -> isLetter l c -> csetMatch true (CLit l) c = true.
Proof.
  intros Hl [-> | ->]; unfold csetMatch; [apply Z.eqb_refl |].
  apply Z.eqb_eq. unfold Chr.canonicalize. simpl.
  destruct (Z.leb_spec 97 l); [| lia]. destruct (Z.leb_spec l 122); [| lia].
  destruct (Z.leb_spec 97 (l - 32)); [lia |]. reflexivity.
Qed.

Lemma class_dash (d : char) :
  isDash d = true -> csetMatch true (CSet [Chr.hyphen; Chr.endash]) d = true.
Proof.
  unfold isDash. intros H. apply orb_true_iff in H.
  destruct H as [H | H]; apply Z.eqb_eq in H; subst d; reflexivity.
Qed.

Lemma lang_marker (p : period) (kk : jsstring) :
  isMarker p kk -> lang true amOrPm kk.
Proof.
  intros (a & m0 & -> & Ha & Hm). unfold amOrPm, lit. cbn [lang].
  apply letter_class in Hm; [| vm_compute; split; discriminate].
  destruct p; [left | right]; exists [a], [m0];
    (split; [reflexivity |]);
    (split; [exists a | exists m0]); (split; [reflexivity |]); auto;
    apply letter_class; auto; vm_compute; split; discriminate.
Qed.

(** Every time token is a word of the token pattern. *)
Lemma shape_clockText (tok h m : jsstring) (k : option period) :
  tokenShape tok h m k -> lang true clockText tok.
Proof.
  intros (mm & g & kk & -> & Hh & Hm & Hg & Hk).
  unfold clockText. cbn [lang].
  exists h, (mm ++ g ++ kk). split; [reflexivity |]. split.
  - destruct Hh as [(a & -> & Ha) | (a & b & -> & Ha & Hb)].
    + exists 1%nat. split; [simpl; lia |]. exists [a], [].
      split; [reflexivity |]. split; [| reflexivity]. now exists a.
    + exists 2%nat. split; [simpl; lia |]. exists [a], [b].
      split; [reflexivity |]. split; [now exists a |].
      exists [b], []. split; [reflexivity |]. split; [| reflexivity].
      now exists b.
  - exists mm, (g ++ kk). split; [reflexivity |]. split.
    + destruct Hm as [[-> _] | (a & b & -> & _ & Ha & Hb)];
        [apply lang_opt_nil | apply lang_opt_one].
      cbn [lang]. exists [Chr.colon], [a; b]. split; [reflexivity |].
      split; [exists Chr.colon; split; reflexivity |].
      exists 2%nat. split; [simpl; lia |]. exists [a], [b].
      split; [reflexivity |]. split; [now exists a |].
      exists [b], []. split; [reflexivity |]. split; [| reflexivity].
      now exists b.
    + exists g, kk. split; [reflexivity |]. split.
      * destruct Hg as [-> | (w & -> & Hw)];
          [apply lang_opt_nil | apply lang_opt_one]. now exists w.
      * destruct k as [p |]; [| subst kk; apply lang_opt_nil].
        apply lang_opt_one. now apply (lang_marker p).
Qed.

Lemma range_timeRe (w : jsstring) :
  isTimeRange w -> lang true (source timeRe) w.
Proof.
  intros (t1 & d & t2 & h1 & m1 & k1 & h2 & m2 & k2 & -> & S1 & Hd & S2).
  unfold timeRe, timeToken, source. cbn [lang].
  exists t1, (d :: t2). split; [reflexivity |].
  split; [now apply (shape_clockText _ h1 m1 k1) |].
  exists [d], t2. split; [reflexivity |].
  split; [exists d; split; [reflexivity | now apply class_dash] |].
  now apply (shape_clockText _ h2 m2 k2).
Qed.

(** The search of the parser for a time range succeeds exactly on the
    texts that have one. *)
Lemma exec_timeRe_iff (s : jsstring) :
  Regex.exec s timeRe <> None <-> hasTimeRange s.
Proof.
  split.
  - intros H. destruct (Regex.exec s timeRe) as [m |] eqn:E; [| congruence].
    destruct (exec_timeRe _ _ E) as (pre & t1 & d & t2 & post & -> & L1 & Hd
                                     & L2 & _).
    apply clockText_shape in L1, L2.
    destruct L1 as (h1 & m1 & k1 & S1). destruct L2 as (h2 & m2 & k2 & S2).
    exists pre, (t1 ++ d :: t2), post. split.
    + rewrite <- (app_assoc t1). reflexivity.
    + exists t1, d, t2, h1, m1, k1, h2, m2, k2. auto.
  - intros (pre & w & post & -> & Hw).
    apply exec_complete; [reflexivity | reflexivity |].
    now apply range_timeRe.
Qed.

Lemma exec_dayRe_iff (s : jsstring) :
  Regex.exec s dayRe <> None <-> hasDayPrefix s.
Proof.
  split.
  - intros H. destruct (Regex.exec s dayRe) as [m |] eqn:E; [| congruence].
    destruct (exec_dayRe _ _ E) as (d & w & post & -> & Hne & Hall & Hw & _).
    exists d, w, post. auto.
  - intros (d & w & post & -> & Hne & Hall & Hw).
    destruct (exec_dayRe_run d w post Hne Hall Hw) as (m & E & _).
    congruence.
Qed.

End TokenWords.

Lemma messages_differ : daysNotFound <> timesNotFound.
Proof. discriminate. Qed.

(** X1.  The parser fails with "days not found" exactly when the string
    does not start with a non-empty run of the letters M, T, W, R, F, S, U
    followed by a white-space character, whatever else the string
    holds: this check comes first. *)
Theorem X1_days_not_found_iff (s : jsstring) :
  parseRecurrenceString s = Throw daysNotFound <-> ~ hasDayPrefix s.
Proof.
  rewrite <- exec_dayRe_iff. pose proof (parse_cases s) as C. split.
  - intros H K. apply parse_throw in H.
    destruct H as [[H _] | (_ & _ & H)]; [congruence | discriminate H].
  - intros H. destruct (Regex.exec s dayRe); [| exact C].
    exfalso. apply H. discriminate.
Qed.

Lemma X1_days_not_found_iff_witness :
  ~ hasDayPrefix (str "tr 9am-10am") /\ ~ hasDayPrefix (str " TR 9am-10am").
Proof.
  split; apply (proj1 (X1_days_not_found_iff _)); vm_compute; reflexivity.
Defined.

(** X2.  The parser fails with "times not found" exactly when the string
    has the day prefix and no part of it is a time range, that is two
    time tokens (one or two digits, optional colon and two digits,
    optional white-space character, optional am/pm in any case) around a
    hyphen or an en-dash. *)
Theorem X2_times_not_found_iff (s : jsstring) :
  parseRecurrenceString s = Throw timesNotFound
  <-> hasDayPrefix s /\ ~ hasTimeRange s.
Proof.
  rewrite <- exec_dayRe_iff, <- exec_timeRe_iff.
  pose proof (parse_cases s) as C. split.
  - intros H. apply parse_throw in H.
    destruct H as [[_ H] | (Hd & Ht & _)]; [discriminate H |].
    split; [exact Hd | congruence].
  - intros [Hd Ht]. destruct (Regex.exec s dayRe); [| congruence].
    destruct (Regex.exec s timeRe); [| exact C].
    exfalso. apply Ht. discriminate.
Qed.

Lemma X2_times_not_found_iff_witness :
  hasDayPrefix (str "MWF 9am to 10am") /\ ~ hasTimeRange (str "MWF 9am to 10am").
Proof.
  apply (proj1 (X2_times_not_found_iff _)). vm_compute. reflexivity.
Defined.

(** X3.  The parser succeeds exactly when the string has the day prefix
    and a time range; the days it returns are then never empty, and each
    of them is one of the seven codes MO, TU, WE, TH, FR, SA, SU. *)
Theorem X3_success_and_days_invariant (s : jsstring) :
  ((exists p, parseRecurrenceString s = Ok p)
   <-> hasDayPrefix s /\ hasTimeRange s) /\
  (forall p, parseRecurrenceString s = Ok p ->
     days p <> [] /\ Forall (fun code => In code dayCodes) (days p)).
Proof.
  split.
  - rewrite <- exec_dayRe_iff, <- exec_timeRe_iff. split.
    + intros (p & H). apply parse_ok in H.
      destruct H as (dm & tm & _ & _ & _ & Ed & Et & _). split; congruence.
    + intros [Hd Ht]. pose proof (parse_cases s) as C.
      destruct (Regex.exec s dayRe); [| congruence].
      destruct (Regex.exec s timeRe); [| congruence].
      destruct C as (d & t1 & t2 & _ & _ & _ & _ & _ & _ & E). eauto.
  - intros p H. pose proof H as H'. apply parse_ok in H.
    destruct H as (dm & tm & d & t1 & t2 & Ed & _ & Gd & _ & _ & Hall & _ & _
                   & ->).
    cbn [days]. split.
    + destruct (exec_dayRe _ _ Ed) as (d' & w & post & _ & Hne & _ & _ & Gd').
      assert (d' = d) by congruence. subst d'.
      destruct d; [congruence | discriminate].
    + apply Forall_forall. intros code Hc. apply in_map_iff in Hc.
      destruct Hc as (c & <- & Hc). rewrite Forall_forall in Hall.
      apply Hall, isDayLetter_cases in Hc. simpl in Hc.
      repeat (destruct Hc as [<- | Hc]; [vm_compute; tauto |]). contradiction.
Qed.

Lemma X3_success_and_days_invariant_witness :
  (hasDayPrefix (str "TR 11am-12:15pm") /\
   hasTimeRange (str "TR 11am-12:15pm")) /\
  [str "TU"; str "TH"] <> [] /\
  Forall (fun code => In code dayCodes) [str "TU"; str "TH"].
Proof.
  split.
  - apply (proj1 (proj1 (X3_success_and_days_invariant _))).
    eexists. vm_compute. reflexivity.
  - apply (proj2 (X3_success_and_days_invariant (str "TR 11am-12:15pm"))
             (mkPattern [str "TU"; str "TH"] (mkClock (Num 11) (Num 0))
                (mkClock (Num 12) (Num 15)))).
    vm_compute. reflexivity.
Defined.

Section Heads.

Variable ic : bool.

(** The first end state of a sequence is the first end state of its
    second part, from the first end state of its first part. *)
Lemma head_seq (r1 r2 : regex) (x y1 y2 : state) tl1 tl2 :
  run ic r1 x = y1 :: tl1 -> run ic r2 y1 = y2 :: tl2 ->
  exists tl, run ic (RSeq r1 r2) x = y2 :: tl.
Proof.
  intros H1 H2. rewrite run_seq, H1. cbn [flat_map]. rewrite H2.
  simpl. eauto.
Qed.

Lemma head_group (i : nat) (r : regex) (x y : state) tl :
  run ic r x = y :: tl ->
  exists tl',
    run ic (RGroup i r) x
    = mkState (pos y) (rest y)
        ((i, firstn (pos y - pos x) (rest x)) :: caps y) :: tl'.
Proof. intros H. rewrite run_group, H. simpl. eauto. Qed.

Lemma head_opt_skip (r : regex) (x : state) :
  run ic r x = [] -> run ic (opt r) x = [x].
Proof. intros H. rewrite run_opt, H. reflexivity. Qed.

Lemma head_opt_take (r : regex) (x y : state) tl :
  run ic r x = y :: tl -> pos y <> pos x ->
  exists tl', run ic (opt r) x = y :: tl'.
Proof.
  intros H Hp. rewrite run_opt, H. cbn [flat_map].
  apply Nat.eqb_neq in Hp. rewrite Hp. simpl. eauto.
Qed.

Lemma run_char_off (cs : cset) (i : nat) (s : jsstring) c :
  startsOff (csetMatch ic cs) s -> run ic (RChar cs) (mkState i s c) = [].
Proof.
  destruct s as [| a s]; [reflexivity |]. simpl. now intros ->.
Qed.

(** One or two characters of a class, as many as there are. *)
Lemma between12_one (cs : cset) (i : nat) (a : char) (s : jsstring) c :
  csetMatch ic cs a = true -> startsOff (csetMatch ic cs) s ->
  run ic (between 1 2 (RChar cs)) (mkState i (a :: s) c)
  = [mkState (S i) s c].
Proof.
  intros Ha Hs. unfold between.
  change (run ic (RQuant 1 (Some 2%nat) (RChar cs)) (mkState i (a :: s) c))
    with (flat_map (fun y => run ic (opt (RChar cs)) y)
            (run ic (RChar cs) (mkState i (a :: s) c))).
  rewrite run_char, Ha, flat_map_single.
  apply head_opt_skip. now apply run_char_off.
Qed.

Lemma between12_two (cs : cset) (i : nat) (a b : char) (s : jsstring) c :
  csetMatch ic cs a = true -> csetMatch ic cs b = true ->
  run ic (between 1 2 (RChar cs)) (mkState i (a :: b :: s) c)
  = [mkState (S (S i)) s c; mkState (S i) (b :: s) c].
Proof.
  intros Ha Hb. unfold between.
  change (run ic (RQuant 1 (Some 2%nat) (RChar cs))
            (mkState i (a :: b :: s) c))
    with (flat_map (fun y => run ic (opt (RChar cs)) y)
            (run ic (RChar cs) (mkState i (a :: b :: s) c))).
  rewrite run_char, Ha, flat_map_single, run_opt_char, Hb. reflexivity.
Qed.

Lemma between12_off (cs : cset) (i : nat) (s : jsstring) c :
  startsOff (csetMatch ic cs) s ->
  run ic (between 1 2 (RChar cs)) (mkState i s c) = [].
Proof.
  intros Hs. unfold between.
  change (run ic (RQuant 1 (Some 2%nat) (RChar cs)) (mkState i s c))
    with (flat_map (fun y => run ic (opt (RChar cs)) y)
            (run ic (RChar cs) (mkState i s c))).
  now rewrite run_char_off.
Qed.

Lemma times2_two (cs : cset) (i : nat) (a b : char) (s : jsstring) c :
  csetMatch ic cs a = true -> csetMatch ic cs b = true ->
  run ic (times 2 (RChar cs)) (mkState i (a :: b :: s) c)
  = [mkState (S (S i)) s c].
Proof.
  intros Ha Hb. unfold times.
  change (run ic (RQuant 2 (Some 2%nat) (RChar cs))
            (mkState i (a :: b :: s) c))
    with (flat_map
            (fun y => flat_map (fun z => [z]) (run ic (RChar cs) y))
            (run ic (RChar cs) (mkState i (a :: b :: s) c))).
  rewrite run_char, Ha, flat_map_single, run_char, Hb. reflexivity.
Qed.

Lemma lit2_off (a b : char) (i : nat) (s : jsstring) c :
  startsOff (csetMatch ic (CLit a)) s ->
  run ic (lit a ;; lit b)%re (mkState i s c) = [].
Proof.
  intros Hs. rewrite run_seq. unfold lit. now rewrite run_char_off.
Qed.

End Heads.

Section TokenHead.

Lemma startsOff_app (p : char -> bool) (a b : jsstring) :
  (a <> [] -> startsOff p a) -> (a = [] -> startsOff p b) ->
  startsOff p (a ++ b).
Proof.
  destruct a as [| x a]; intros Ha Hb; [now apply Hb |].
  apply Ha. discriminate.
Qed.

Lemma class_letter_off (l c : char) :
  97 <= l <= 122 -> c <> l -> c <> l - 32 ->
  csetMatch true (CLit l) c = false.
Proof.
  intros Hl H1 H2. destruct (csetMatch true (CLit l) c) eqn:E; [| reflexivity].
  unfold csetMatch in E. apply canonicalize_letter in E; [| exact Hl].
  destruct E; congruence.
Qed.

Lemma class_colon_off (c : char) :
  c <> Chr.colon -> csetMatch true (CLit Chr.colon) c = false.
Proof.
  intros H. destruct (csetMatch true (CLit Chr.colon) c) eqn:E; [| reflexivity].
  unfold csetMatch in E. apply canonicalize_other in E; [congruence |].
  unfold Chr.colon. lia.
Qed.

(** What follows from a character not carrying a token on. *)
Lemma carriesOn_false (c : char) :
  carriesOn c = false ->
  Chr.isDigit c = false /\ Chr.isSpace c = false /\
  csetMatch true (CLit Chr.colon) c = false /\
  csetMatch true (CLit (chr "a")) c = false /\
  csetMatch true (CLit (chr "p")) c = false.
Proof.
  unfold carriesOn. intros H.
  repeat (apply orb_false_iff in H; destruct H as [H ?]).
  repeat match goal with
         | K : (_ =? _) = false |- _ => apply Z.eqb_neq in K
         end.
  split; [exact H |]. split; [assumption |].
  split; [now apply class_colon_off |].
  split; apply class_letter_off; (vm_compute; split; discriminate) || assumption.
Qed.

Lemma startsOff_carriesOn (post : jsstring) :
  startsOff carriesOn post ->
  startsOff Chr.isDigit post /\ startsOff Chr.isSpace post /\
  startsOff (csetMatch true (CLit Chr.colon)) post /\
  startsOff (csetMatch true (CLit (chr "a"))) post /\
  startsOff (csetMatch true (CLit (chr "p"))) post.
Proof.
  destruct post as [| c post]; simpl; [tauto |]. apply carriesOn_false.
Qed.

(** A class that holds none of the four letters that start a marker is
    off at the start of a marker. *)
Lemma marker_off (p : char -> bool) (q : period) (kk : jsstring) :
  p (chr "a") = false -> p (chr "A") = false ->
  p (chr "p") = false -> p (chr "P") = false ->
  isMarker q kk -> startsOff p kk.
Proof.
  intros Ha HA Hp HP (a & m0 & -> & Hl & _). simpl.
  destruct q; destruct Hl as [-> | ->]; assumption.
Qed.

Lemma gap_off (p : char -> bool) (g : jsstring) :
  (forall w, Chr.isSpace w = true -> p w = false) -> isGap g ->
  startsOff p g.
Proof.
  intros H [-> | (w & -> & Hw)]; simpl; auto.
Qed.

Lemma space_not_colon (w : char) :
  Chr.isSpace w = true -> csetMatch true (CLit Chr.colon) w = false.
Proof.
  intros H. apply class_colon_off. apply space_range in H.
  unfold Chr.colon. lia.
Qed.

Variables (i : nat) (c : list (nat * jsstring)).

Lemma marker_head (k : option period) (kk post : jsstring) (j : nat) :
  match k with Some p => isMarker p kk | None => kk = [] end ->
  (k = None -> startsOff carriesOn post) ->
  exists tl,
    run true (opt amOrPm) (mkState j (kk ++ post) c)
    = mkState (j + length kk) post c :: tl.
Proof.
  intros Hk Hpost. destruct k as [p |].
  - destruct Hk as (a & m0 & -> & Ha & Hm).
    apply letter_class in Hm; [| vm_compute; split; discriminate].
    assert (Hrun : exists tl,
      run true amOrPm (mkState j ([a; m0] ++ post) c)
      = mkState (S (S j)) post c :: tl).
    { unfold amOrPm. rewrite run_alt. cbn [app]. rewrite !run_lit2, Hm.
      destruct p.
      - apply letter_class in Ha; [| vm_compute; split; discriminate].
        rewrite Ha. simpl. eauto.
      - assert (Hn : csetMatch true (CLit (chr "a")) a = false)
          by (destruct Ha as [-> | ->]; reflexivity).
        apply letter_class in Ha; [| vm_compute; split; discriminate].
        rewrite Hn, Ha. simpl. eauto. }
    destruct Hrun as (tl & Hrun).
    destruct (head_opt_take true amOrPm _ _ _ Hrun) as (tl' & E);
      [simpl; lia |].
    rewrite E. cbn [length]. rewrite Nat.add_succ_r, Nat.add_succ_r, Nat.add_0_r.
    eauto.
  - subst kk. cbn [app length]. rewrite Nat.add_0_r.
    destruct (startsOff_carriesOn post (Hpost eq_refl))
      as (_ & _ & _ & Ha & Hp).
    exists []. apply head_opt_skip. unfold amOrPm.
    now rewrite run_alt, !lit2_off.
Qed.

Lemma gap_head (g r : jsstring) (j : nat) :
  isGap g -> (g = [] -> startsOff Chr.isSpace r) ->
  exists tl,
    run true (opt (RChar CSpace)) (mkState j (g ++ r) c)
    = mkState (j + length g) r c :: tl.
Proof.
  intros [-> | (w & -> & Hw)] Hr.
  - cbn [app length]. rewrite Nat.add_0_r. exists [].
    apply head_opt_skip. apply run_char_off. now apply Hr.
  - cbn [app length]. rewrite run_opt_char. unfold csetMatch. rewrite Hw.
    rewrite Nat.add_succ_r, Nat.add_0_r. eauto.
Qed.

Lemma minute_head (mm m r : jsstring) (j : nat) :
  isMinuteText mm m ->
  (mm = [] -> startsOff (csetMatch true (CLit Chr.colon)) r) ->
  exists tl,
    run true (opt (lit Chr.colon ;; times 2 (RChar CDigit)))%re
      (mkState j (mm ++ r) c)
    = mkState (j + length mm) r c :: tl.
Proof.
  intros [[-> _] | (a & b & -> & _ & Ha & Hb)] Hr.
  - cbn [app length]. rewrite Nat.add_0_r. exists [].
    apply head_opt_skip. rewrite run_seq. unfold lit.
    rewrite run_char_off; [reflexivity | now apply Hr].
  - assert (Hrun :
      run true (lit Chr.colon ;; times 2 (RChar CDigit))%re
        (mkState j ([Chr.colon; a; b] ++ r) c)
      = [mkState (S (S (S j))) r c]).
    { rewrite run_seq. unfold lit. cbn [app]. rewrite run_char.
      change (csetMatch true (CLit Chr.colon) Chr.colon) with true.
      cbv iota. rewrite flat_map_single. now apply times2_two. }
    destruct (head_opt_take true _ _ _ _ Hrun) as (tl' & E); [simpl; lia |].
    rewrite E. cbn [length].
    rewrite !Nat.add_succ_r, Nat.add_0_r. eauto.
Qed.

Lemma hour_head (h r : jsstring) (j : nat) :
  isHourText h -> startsOff Chr.isDigit r ->
  exists tl,
    run true (between 1 2 (RChar CDigit)) (mkState j (h ++ r) c)
    = mkState (j + length h) r c :: tl.
Proof.
  intros [(a & -> & Ha) | (a & b & -> & Ha & Hb)] Hr; cbn [app length].
  - rewrite between12_one by assumption.
    rewrite Nat.add_succ_r, Nat.add_0_r. eauto.
  - rewrite between12_two by assumption.
    rewrite !Nat.add_succ_r, Nat.add_0_r. eauto.
Qed.

(** The first end state of the token pattern on a time token: after the
    whole token, when the token has a marker or what follows it does not
    carry it on. *)
Lemma clockText_head (tok h m post : jsstring) (k : option period) :
  tokenShape tok h m k ->
  (k = None -> startsOff carriesOn post) ->
  exists tl,
    run true clockText (mkState i (tok ++ post) c)
    = mkState (i + length tok) post c :: tl.
Proof.
  intros (mm & g & kk & -> & Hh & Hm & Hg & Hk) Hpost.
  assert (Hoff : forall p : char -> bool,
            p (chr "a") = false -> p (chr "A") = false ->
            p (chr "p") = false -> p (chr "P") = false ->
            startsOff p post \/ k <> None ->
            startsOff p (kk ++ post)).
  { intros p Ha HA Hp HP Hq. apply startsOff_app.
    - intros Hne. destruct k as [q |]; [| congruence].
      now apply (marker_off p q).
    - intros ->. destruct k as [q |].
      + destruct Hk as (a & m0 & E & _). discriminate E.
      + destruct Hq as [Hq | Hq]; [exact Hq | congruence]. }
  assert (Hp4 : k = None ->
            startsOff Chr.isDigit post /\ startsOff Chr.isSpace post /\
            startsOff (csetMatch true (CLit Chr.colon)) post).
  { intros E. destruct (startsOff_carriesOn post (Hpost E))
      as (A & B & C & _). auto. }
  assert (Hsel : forall p : char -> bool,
            (k = None -> startsOff p post) ->
            startsOff p post \/ k <> None).
  { intros p H. destruct k; [right; discriminate | left; now apply H]. }
  assert (O3s : startsOff Chr.isSpace (kk ++ post)).
  { apply Hoff; try reflexivity. apply Hsel. intros E. now apply Hp4. }
  assert (O3c : startsOff (csetMatch true (CLit Chr.colon)) (kk ++ post)).
  { apply Hoff; try reflexivity. apply Hsel. intros E. now apply Hp4. }
  assert (O3d : startsOff Chr.isDigit (kk ++ post)).
  { apply Hoff; try reflexivity. apply Hsel. intros E. now apply Hp4. }
  assert (O2c : startsOff (csetMatch true (CLit Chr.colon)) (g ++ kk ++ post)).
  { apply startsOff_app; [intros _ | intros _; exact O3c].
    apply gap_off; [apply space_not_colon | exact Hg]. }
  assert (O2d : startsOff Chr.isDigit (g ++ kk ++ post)).
  { apply startsOff_app; [intros _ | intros _; exact O3d].
    apply gap_off; [apply space_not_digit | exact Hg]. }
  assert (O1d : startsOff Chr.isDigit (mm ++ g ++ kk ++ post)).
  { apply startsOff_app; [intros _ | intros _; exact O2d].
    destruct Hm as [[-> _] | (a & b & -> & _)]; [exact I | reflexivity]. }
  destruct (hour_head h (mm ++ g ++ kk ++ post) i Hh O1d) as (tlA & EA).
  destruct (minute_head mm m (g ++ kk ++ post) (i + length h) Hm
              (fun _ => O2c)) as (tlB & EB).
  destruct (gap_head g (kk ++ post) (i + length h + length mm) Hg
              (fun _ => O3s)) as (tlC & EC).
  destruct (marker_head k kk post (i + length h + length mm + length g)
              Hk Hpost) as (tlD & ED).
  destruct (head_seq true _ _ _ _ _ _ _ EC ED) as (tlCD & ECD).
  destruct (head_seq true _ _ _ _ _ _ _ EB ECD) as (tlBCD & EBCD).
  destruct (head_seq true _ _ _ _ _ _ _ EA EBCD) as (tl & E).
  exists tl. unfold clockText. rewrite <- !app_assoc. rewrite E.
  rewrite !length_app. f_equal. f_equal. lia.
Qed.

End TokenHead.

Section ExactParse.

(** The time pattern does not match at a character that is not a digit. *)
Lemma timeRe_skip (a : char) (s : jsstring) (i : nat) :
  Chr.isDigit a = false ->
  run true (source timeRe) (mkState i (a :: s) []) = [].
Proof.
  intros Ha. unfold timeRe, timeToken, source, clockText.
  rewrite run_seq, run_group, run_seq, between12_off; [reflexivity |].
  exact Ha.
Qed.

Lemma timeRe_skip_all (pre s : jsstring) (i : nat) :
  Forall (fun a => Chr.isDigit a = false) pre ->
  execFrom timeRe i (pre ++ s) = execFrom timeRe (length pre + i) s.
Proof.
  intros H. revert i. induction H as [| a pre Ha _ IH]; intros i;
    [reflexivity |].
  rewrite <- app_comm_cons, execFrom_step by now apply timeRe_skip.
  rewrite IH. simpl. f_equal. lia.
Qed.

Lemma dash_stops (d : char) : isDash d = true -> carriesOn d = false.
Proof.
  unfold isDash. intros H. apply orb_true_iff in H.
  destruct H as [H | H]; apply Z.eqb_eq in H; subst d; reflexivity.
Qed.

(** The match the time pattern takes at the start of two time tokens
    around a dash: the two tokens, whole. *)
Lemma timeRe_head (t1 t2 post h1 m1 h2 m2 : jsstring) (k1 k2 : option period)
  (d : char) (i : nat) :
  tokenShape t1 h1 m1 k1 -> isDash d = true -> tokenShape t2 h2 m2 k2 ->
  (k2 = None -> startsOff carriesOn post) ->
  exists tl,
    run true (source timeRe) (mkState i (t1 ++ d :: t2 ++ post) [])
    = mkState (i + length (t1 ++ d :: t2)) post [(2%nat, t2); (1%nat, t1)]
      :: tl.
Proof.
  intros S1 Hd S2 Hpost.
  destruct (clockText_head i [] t1 h1 m1 (d :: t2 ++ post) k1 S1
              (fun _ => dash_stops d Hd)) as (tl1 & E1).
  destruct (head_group true 1 _ _ _ _ E1) as (tl1' & G1).
  cbn [pos rest caps] in G1.
  replace (i + length t1 - i)%nat with (length t1) in G1 by lia.
  rewrite firstn_exact in G1.
  destruct (clockText_head (S (i + length t1)) [(1%nat, t1)] t2 h2 m2 post k2
              S2 Hpost) as (tl2 & E2).
  destruct (head_group true 2 _ _ _ _ E2) as (tl2' & G2).
  cbn [pos rest caps] in G2.
  replace (S (i + length t1) + length t2 - S (i + length t1))%nat
    with (length t2) in G2 by lia.
  rewrite firstn_exact in G2.
  assert (ED : run true (RChar (CSet [Chr.hyphen; Chr.endash]))
                 (mkState (i + length t1) (d :: t2 ++ post) [(1%nat, t1)])
               = [mkState (S (i + length t1)) (t2 ++ post) [(1%nat, t1)]]).
  { rewrite run_char, class_dash by exact Hd. reflexivity. }
  destruct (head_seq true _ _ _ _ _ _ _ ED G2) as (tlD & EDG).
  destruct (head_seq true _ _ _ _ _ _ _ G1 EDG) as (tl & E).
  exists tl. unfold timeRe, timeToken, source. rewrite E.
  f_equal. f_equal. rewrite length_app. simpl. lia.
Qed.

(** The search for the time range in a well-formed string finds the two
    tokens. *)
Lemma exec_timeRe_exact (pre t1 t2 post h1 m1 h2 m2 : jsstring)
  (k1 k2 : option period) (d : char) :
  Forall (fun a => Chr.isDigit a = false) pre ->
  tokenShape t1 h1 m1 k1 -> isDash d = true -> tokenShape t2 h2 m2 k2 ->
  (k2 = None -> startsOff carriesOn post) ->
  exists m,
    Regex.exec (pre ++ t1 ++ d :: t2 ++ post) timeRe = Some m /\
    index m = length pre /\ matched m = t1 ++ d :: t2 /\
    group m 1 = Some t1 /\ group m 2 = Some t2.
Proof.
  intros Hpre S1 Hd S2 Hpost.
  destruct (timeRe_head t1 t2 post h1 m1 h2 m2 k1 k2 d
              (length pre + 0) S1 Hd S2 Hpost) as (tl & Er).
  unfold Regex.exec. rewrite timeRe_skip_all by exact Hpre.
  rewrite (execFrom_hit timeRe _ _ _ _ Er). eexists.
  split; [reflexivity |]. cbn [index matched pos]. split; [lia |].
  split; [| split; reflexivity].
  replace (length pre + 0 + length (t1 ++ d :: t2) - (length pre + 0))%nat
    with (length (t1 ++ d :: t2)) by lia.
  replace (t1 ++ d :: t2 ++ post) with ((t1 ++ d :: t2) ++ post)
    by (now rewrite <- app_assoc).
  apply firstn_exact.
Qed.

Lemma dayLetter_not_digit (c : char) :
  isDayLetter c = true -> Chr.isDigit c = false.
Proof.
  intros H. apply isDayLetter_cases in H. simpl in H.
  repeat (destruct H as [<- | H]; [reflexivity |]). contradiction.
Qed.

End ExactParse.

(** X4.  A well-formed recurrence string parses to exactly what it says.
    For a non-empty run [D] of day letters, a white-space character, any
    text without digits, a time token, a hyphen or en-dash and a second
    time token (which carries a marker, or ends the string, or is
    followed by a character that cannot carry it on), the days are the
    translations of [D] in order and each clock is that of its own
    token: hour digits in decimal, adjusted by the token's own marker
    only, minute digits or 0. *)
Theorem X4_well_formed_string_parses (D mid t1 t2 post h1 m1 h2 m2 : jsstring)
  (k1 k2 : option period) (w d : char) :
  D <> [] -> Forall (fun c => isDayLetter c = true) D ->
  Chr.isSpace w = true ->
  Forall (fun a => Chr.isDigit a = false) mid ->
  tokenShape t1 h1 m1 k1 -> isDash d = true -> tokenShape t2 h2 m2 k2 ->
  (k2 = None -> startsOff carriesOn post) ->
  parseRecurrenceString (D ++ w :: mid ++ t1 ++ d :: t2 ++ post)
  = Ok (mkPattern (map translate D) (clockOf h1 m1 k1) (clockOf h2 m2 k2)).
Proof.
  intros Hne HD Hw Hmid S1 Hd S2 Hpost.
  set (s := D ++ w :: mid ++ t1 ++ d :: t2 ++ post).
  destruct (exec_dayRe_run D w (mid ++ t1 ++ d :: t2 ++ post) Hne HD Hw)
    as (dm & Ed & Gd).
  assert (Hpre : Forall (fun a => Chr.isDigit a = false) (D ++ w :: mid)).
  { apply Forall_app. split.
    - eapply Forall_impl; [| exact HD]. apply dayLetter_not_digit.
    - constructor; [now apply space_not_digit | exact Hmid]. }
  destruct (exec_timeRe_exact (D ++ w :: mid) t1 t2 post h1 m1 h2 m2 k1 k2 d
              Hpre S1 Hd S2 Hpost) as (tm & Et & _ & _ & G1 & G2).
  replace ((D ++ w :: mid) ++ t1 ++ d :: t2 ++ post) with s in Et
    by (unfold s; now rewrite <- app_assoc).
  pose proof (parse_cases s) as C. fold s in Ed. rewrite Ed, Et in C.
  destruct C as (d' & t1' & t2' & G & G1' & G2' & _ & _ & _ & E).
  assert (d' = D) by congruence. assert (t1' = t1) by congruence.
  assert (t2' = t2) by congruence. subst d' t1' t2'.
  rewrite E, (parseTime_shape _ _ _ _ S1), (parseTime_shape _ _ _ _ S2).
  reflexivity.
Qed.

Lemma X4_well_formed_string_parses_witness :
  parseRecurrenceString
    (str "TR" ++ Chr.space :: str "from " ++ str "11am" ++ Chr.endash
       :: str "12:15 PM" ++ str " weekly")
  = Ok (mkPattern [str "TU"; str "TH"] (mkClock (Num 11) (Num 0))
          (mkClock (Num 12) (Num 15))).
Proof.
  apply (X4_well_formed_string_parses (str "TR") (str "from ") (str "11am")
           (str "12:15 PM") (str " weekly") (str "11") [] (str "12") (str "15")
           (Some AM) (Some PM) Chr.space Chr.endash).
  - discriminate.
  - repeat constructor.
  - reflexivity.
  - repeat constructor.
  - exists [], [], (str "am"). split; [reflexivity |].
    split; [right; exists (chr "1"), (chr "1"); repeat split |].
    split; [left; split; reflexivity |]. split; [now left |].
    exists (chr "a"), (chr "m"). split; [reflexivity |]. split; now left.
  - reflexivity.
  - exists (str ":15"), [Chr.space], (str "PM"). split; [reflexivity |].
    split; [right; exists (chr "1"), (chr "2"); repeat split |].
    split; [right; exists (chr "1"), (chr "5"); repeat split |].
    split; [right; exists Chr.space; split; reflexivity |].
    exists (chr "P"), (chr "M"). split; [reflexivity |]. split; now right.
  - discriminate.
Defined.

Section SetTime.

Import Date.

Variable LocalTZA : Z -> bool -> Z.

(** [setTime] on a date and two numbers, spelled out. *)
Lemma setTime_value (t h m : Z) :
  - maxTime <= t <= maxTime ->
  setTime LocalTZA (Num t) (Num h) (Num m)
  = TimeClip (Num (UTC LocalTZA
                     (Day (LocalTime LocalTZA t) * msPerDay
                      + (h * msPerHour + m * msPerMinute)))).
Proof.
  intros Ht. unfold setTime, copy.
  assert (E : TimeClip (Num t) = Num t).
  { unfold TimeClip. destruct (Z.ltb_spec maxTime (Z.abs t)); [lia |].
    reflexivity. }
  rewrite E. unfold setHours, MakeDate, MakeTime.
  replace (h * msPerHour + m * msPerMinute + 0 * msPerSecond + 0)
    with (h * msPerHour + m * msPerMinute) by ring.
  reflexivity.
Qed.

Lemma setTime_valid_inv (d : Date) (h m : number) :
  validDate (setTime LocalTZA d h m) ->
  exists t x y, d = Num t /\ h = Num x /\ m = Num y /\
                - maxTime <= t <= maxTime.
Proof.
  unfold validDate, setTime, copy, TimeClip, setHours.
  destruct d as [t |]; [| congruence].
  destruct (Z.ltb_spec maxTime (Z.abs t)); [congruence |].
  destruct h as [x |]; [| simpl; congruence].
  destruct m as [y |]; [| simpl; congruence].
  intros _. exists t, x, y. repeat split; lia.
Qed.

Lemma TimeClip_valid (x : Z) :
  validDate (TimeClip (Num x)) -> TimeClip (Num x) = Num x.
Proof.
  unfold validDate, TimeClip. destruct (maxTime <? Z.abs x); congruence.
Qed.

End SetTime.

(** X5.  On a host at a constant offset from UTC, [setTime] with an hour
    in 0..23 and a minute in 0..59 gives, whenever its result is a valid
    date, the instant that in local time falls on the same calendar day
    as the given date and reads that hour, that minute, zero seconds and
    zero milliseconds. *)
Theorem X5_setTime_local_clock (LocalTZA : Z -> bool -> Z) (o : Z)
  (date : Date.Date) (h m : Z) :
  constantOffset LocalTZA o ->
  0 <= h <= 23 -> 0 <= m <= 59 ->
  validDate (setTime LocalTZA date (Num h) (Num m)) ->
  exists t t',
    date = Num t /\ setTime LocalTZA date (Num h) (Num m) = Num t' /\
    let l := Date.LocalTime LocalTZA t in
    let l' := Date.LocalTime LocalTZA t' in
    Date.Day l' = Date.Day l /\
    Date.YearFromTime l' = Date.YearFromTime l /\
    Date.MonthFromTime l' = Date.MonthFromTime l /\
    Date.DateFromTime l' = Date.DateFromTime l /\
    Date.HourFromTime l' = h /\ Date.MinFromTime l' = m /\
    Date.SecFromTime l' = 0 /\ Date.msFromTime l' = 0.
Proof.
  intros Ho Hh Hm V.
  destruct (setTime_valid_inv _ _ _ _ V) as (t & x & y & -> & Ex & Ey & Ht).
  injection Ex as <-. injection Ey as <-.
  rewrite setTime_value in * by exact Ht.
  apply TimeClip_valid in V. exists t. eexists. split; [reflexivity |].
  split; [exact V |]. cbv zeta.
  unfold Date.UTC, Date.LocalTime. rewrite !Ho.
  set (D := Date.Day (t + o)).
  assert (EDay : Date.Day (D * Date.msPerDay
                           + (h * Date.msPerHour + m * Date.msPerMinute)
                           - o + o) = D).
  { unfold Date.Day, Date.msPerDay, Date.msPerHour, Date.msPerMinute.
    Z.div_mod_to_equations. lia. }
  split; [exact EDay |].
  split; [unfold Date.YearFromTime; now rewrite EDay |].
  split; [unfold Date.MonthFromTime, Date.DayWithinYear, Date.InLeapYear,
            Date.YearFromTime; now rewrite EDay |].
  split; [unfold Date.DateFromTime, Date.MonthFromTime, Date.DayWithinYear,
            Date.InLeapYear, Date.YearFromTime; now rewrite EDay |].
  unfold Date.HourFromTime, Date.MinFromTime, Date.SecFromTime,
    Date.msFromTime, Date.msPerDay, Date.msPerHour, Date.msPerMinute,
    Date.msPerSecond.
  repeat split; Z.div_mod_to_equations; lia.
Qed.

Lemma X5_setTime_local_clock_witness :
  exists t',
    setTime (Date.fixedOffsetHost (-4)) startDate (Num 11) (Num 0) = Num t' /\
    Date.HourFromTime (Date.LocalTime (Date.fixedOffsetHost (-4)) t') = 11.
Proof.
  assert (Ho : constantOffset (Date.fixedOffsetHost (-4)) (-4 * Date.msPerHour))
    by (intros t b; reflexivity).
  assert (V : validDate (setTime (Date.fixedOffsetHost (-4)) startDate
                           (Num 11) (Num 0)))
    by (vm_compute; discriminate).
  destruct (X5_setTime_local_clock _ _ startDate 11 0 Ho ltac:(lia) ltac:(lia) V)
    as (t & t' & _ & E & _ & _ & _ & _ & H & _).
  exists t'. split; [exact E | exact H].
Defined.

(** X6.  On such a host only the last time of day counts: setting a time
    on the valid result of setting an hour in 0..23 and a minute in 0..59
    is the same as setting that time on the original date. *)
Theorem X6_setTime_last_wins (LocalTZA : Z -> bool -> Z) (o : Z)
  (date : Date.Date) (h m : Z) (h' m' : number) :
  constantOffset LocalTZA o ->
  0 <= h <= 23 -> 0 <= m <= 59 ->
  validDate (setTime LocalTZA date (Num h) (Num m)) ->
  setTime LocalTZA (setTime LocalTZA date (Num h) (Num m)) h' m'
  = setTime LocalTZA date h' m'.
Proof.
  intros Ho Hh Hm V.
  destruct (setTime_valid_inv _ _ _ _ V) as (t & x & y & -> & _ & _ & Ht).
  pose proof V as V'. rewrite setTime_value in V' by exact Ht.
  pose proof (TimeClip_valid _ V') as E.
  rewrite setTime_value by exact Ht. rewrite E.
  assert (Hr : - Date.maxTime
               <= Date.UTC LocalTZA
                    (Date.Day (Date.LocalTime LocalTZA t) * Date.msPerDay
                     + (h * Date.msPerHour + m * Date.msPerMinute))
               <= Date.maxTime).
  { unfold validDate, Date.TimeClip in V'.
    destruct (Z.ltb_spec Date.maxTime
                (Z.abs (Date.UTC LocalTZA
                          (Date.Day (Date.LocalTime LocalTZA t) * Date.msPerDay
                           + (h * Date.msPerHour + m * Date.msPerMinute)))));
      [congruence | lia]. }
  unfold setTime, Date.copy, Date.TimeClip.
  destruct (Z.ltb_spec Date.maxTime (Z.abs t)); [lia |].
  match goal with
  | |- context [Date.maxTime <? Z.abs ?u] =>
    destruct (Z.ltb_spec Date.maxTime (Z.abs u)); [lia |]
  end.
  unfold Date.setHours. unfold Date.UTC, Date.LocalTime. rewrite !Ho.
  replace (Date.Day (Date.Day (t + o) * Date.msPerDay
                     + (h * Date.msPerHour + m * Date.msPerMinute) - o + o))
    with (Date.Day (t + o)); [reflexivity |].
  unfold Date.Day, Date.msPerDay, Date.msPerHour, Date.msPerMinute.
  Z.div_mod_to_equations. lia.
Qed.

Lemma X6_setTime_last_wins_witness :
  setTime Date.utcHost (setTime Date.utcHost startDate (Num 11) (Num 0))
    (Num 12) (Num 15)
  = setTime Date.utcHost startDate (Num 12) (Num 15).
Proof.
  apply (X6_setTime_last_wins Date.utcHost 0 startDate 11 0).
  - intros t b. reflexivity.
  - lia.
  - lia.
  - vm_compute. discriminate.
Defined.

Section Serialization.

Variable LocalTZA : Z -> bool -> Z.

(** Setting a time of at most 99 hours and 99 minutes on a date that is
    eight days within the range of Date, on a host whose offset stays
    within a day, gives a valid date. *)
Lemma setTime_in_range (t h m : Z) :
  offsetWithinADay LocalTZA ->
  - (Date.maxTime - 8 * Date.msPerDay) <= t <= Date.maxTime - 8 * Date.msPerDay ->
  0 <= h <= 99 -> 0 <= m <= 99 ->
  validDate (setTime LocalTZA (Num t) (Num h) (Num m)).
Proof.
  intros Ho Ht Hh Hm.
  rewrite setTime_value by (unfold Date.maxTime, Date.msPerDay in *; lia).
  unfold validDate, Date.TimeClip, Date.UTC, Date.LocalTime.
  pose proof (Ho t true) as O1.
  set (x := Date.Day (t + LocalTZA t true) * Date.msPerDay
            + (h * Date.msPerHour + m * Date.msPerMinute)).
  pose proof (Ho x false) as O2.
  assert (Hx : t + LocalTZA t true - Date.msPerDay <= x
               <= t + LocalTZA t true + 99 * Date.msPerHour
                  + 99 * Date.msPerMinute).
  { unfold x, Date.Day, Date.msPerDay, Date.msPerHour, Date.msPerMinute.
    Z.div_mod_to_equations. lia. }
  destruct (Z.ltb_spec Date.maxTime (Z.abs (x - LocalTZA x false)));
    [| discriminate].
  unfold Date.maxTime, Date.msPerDay, Date.msPerHour, Date.msPerMinute in *.
  lia.
Qed.

End Serialization.

(** The clocks of a parsed pattern are numbers of at most two digits. *)
Lemma parse_clock_bounds (s : jsstring) (p : RecurrencePattern) :
  parseRecurrenceString s = Ok p ->
  exists h1 m1 h2 m2,
    startTime p = mkClock (Num h1) (Num m1) /\
    endTime p = mkClock (Num h2) (Num m2) /\
    0 <= h1 <= 99 /\ 0 <= m1 <= 99 /\ 0 <= h2 <= 99 /\ 0 <= m2 <= 99.
Proof.
  intros H. apply parse_ok in H.
  destruct H as (dm & tm & d & t1 & t2 & _ & _ & _ & _ & _ & _
                 & (ha & ma & ka & S1) & (hb & mb & kb & S2) & Ep).
  destruct (clock_bounds _ _ _ _ S1) as (h1 & m1 & E1 & B1 & B1').
  destruct (clock_bounds _ _ _ _ S2) as (h2 & m2 & E2 & B2 & B2').
  exists h1, m1, h2, m2. subst p. cbn [startTime endTime].
  repeat split; assumption || lia.
Qed.

(** X7.  On a host whose offset from UTC stays within a day, with a
    period start at least eight days inside the range of Date and a valid
    period end, [parseTo8984] succeeds on every string the parser
    accepts; the object it returns has frequency WEEKLY, the days of the
    pattern in the same order as byDay, and the ISO texts of the event
    start, the event end and the period end. *)
Theorem X7_parseTo8984_succeeds (LocalTZA : Z -> bool -> Z)
  (t : Z) (periodEnd : Date.Date) (s : jsstring) (p : RecurrencePattern) :
  offsetWithinADay LocalTZA ->
  - (Date.maxTime - 8 * Date.msPerDay) <= t <= Date.maxTime - 8 * Date.msPerDay ->
  validDate periodEnd ->
  parseRecurrenceString s = Ok p ->
  exists a b u,
    parseTo8984 LocalTZA (Num t) periodEnd s
    = Ok (mkEvent a b (mkRule (str "WEEKLY") (days p) u)) /\
    Date.toISOString (setTime LocalTZA (Num t) (hours (startTime p))
                        (minutes (startTime p))) = Ok a /\
    Date.toISOString (setTime LocalTZA (Num t) (hours (endTime p))
                        (minutes (endTime p))) = Ok b /\
    Date.toISOString periodEnd = Ok u.
Proof.
  intros Ho Ht Ve H.
  destruct (parse_clock_bounds s p H)
    as (h1 & m1 & h2 & m2 & Es & Ee & B1 & B1' & B2 & B2').
  pose proof (setTime_in_range LocalTZA t h1 m1 Ho Ht B1 B1') as V1.
  pose proof (setTime_in_range LocalTZA t h2 m2 Ho Ht B2 B2') as V2.
  destruct (toISOString_valid _ V1) as (a & Ea).
  destruct (toISOString_valid _ V2) as (b & Eb).
  destruct (toISOString_valid _ Ve) as (u & Eu).
  exists a, b, u. unfold parseTo8984. rewrite H. cbn [bind].
  rewrite Es, Ee. cbn [hours minutes]. rewrite Ea, Eb, Eu. cbn [bind].
  repeat split; reflexivity.
Qed.

Lemma X7_parseTo8984_succeeds_witness :
  exists a b u,
    parseTo8984 (Date.fixedOffsetHost 9) (Num 1741564800000) endDate
      (str "M 8am-9:40am")
    = Ok (mkEvent a b (mkRule (str "WEEKLY") [str "MO"] u)).
Proof.
  assert (P : parseRecurrenceString (str "M 8am-9:40am")
              = Ok (mkPattern [str "MO"] (mkClock (Num 8) (Num 0))
                      (mkClock (Num 9) (Num 40))))
    by (vm_compute; reflexivity).
  assert (Ho : offsetWithinADay (Date.fixedOffsetHost 9)).
  { intros t b. unfold Date.fixedOffsetHost, Date.msPerHour, Date.msPerDay.
    lia. }
  assert (Ht : - (Date.maxTime - 8 * Date.msPerDay) <= 1741564800000
               <= Date.maxTime - 8 * Date.msPerDay)
    by (unfold Date.maxTime, Date.msPerDay; lia).
  assert (Ve : validDate endDate) by (vm_compute; discriminate).
  destruct (X7_parseTo8984_succeeds (Date.fixedOffsetHost 9) 1741564800000
              endDate (str "M 8am-9:40am") _ Ho Ht Ve P)
    as (a & b & u & E & _).
  exists a, b, u. exact E.
Defined.

Section Tests.

Lemma startsWith_app (p b : jsstring) : Str.startsWith p (p ++ b) = true.
Proof.
  induction p as [| c p IH]; [reflexivity |].
  simpl. now rewrite Z.eqb_refl, IH.
Qed.

Lemma includes_here (s p : jsstring) :
  Str.startsWith p s = true -> Str.includes s p = true.
Proof. intros H. destruct s; cbn [Str.includes]; now rewrite H. Qed.

(** A text includes each of its parts. *)
Lemma includes_part (a p b : jsstring) : Str.includes (a ++ p ++ b) p = true.
Proof.
  induction a as [| c a IH].
  - cbn [app]. apply includes_here. apply startsWith_app.
  - rewrite <- app_comm_cons. cbn [Str.includes]. rewrite IH.
    apply orb_true_r.
Qed.

End Tests.

Lemma block_includes (X Y W Z : jsstring) :
  let out := Str.join
      [ str "BEGIN:VEVENT"; str "DTSTART:" ++ X; str "DTEND:" ++ Y;
        str "RRULE:FREQ=WEEKLY;BYDAY=" ++ W ++ str ";UNTIL=" ++ Z;
        str "END:VEVENT" ] [Chr.newline] in
  forallb (Str.includes out)
    [ str "BEGIN:VEVENT"; str "DTSTART:"; str "DTEND:"; str "RRULE:";
      str "UNTIL="; str "END:VEVENT" ] = true.
Proof.
  intros out. cbn [Str.join] in out.
  set (nl := [Chr.newline]) in *.
  assert (I1 : Str.includes out (str "BEGIN:VEVENT") = true).
  { apply (includes_part [] (str "BEGIN:VEVENT")). }
  assert (I2 : Str.includes out (str "DTSTART:") = true).
  { change out with ((str "BEGIN:VEVENT" ++ nl) ++ str "DTSTART:"
      ++ (X ++ nl ++ (str "DTEND:" ++ Y) ++ nl
          ++ (str "RRULE:FREQ=WEEKLY;BYDAY=" ++ W ++ str ";UNTIL=" ++ Z)
          ++ nl ++ str "END:VEVENT")).
    apply includes_part. }
  assert (I3 : Str.includes out (str "DTEND:") = true).
  { replace out with ((str "BEGIN:VEVENT" ++ nl ++ str "DTSTART:" ++ X ++ nl)
      ++ str "DTEND:"
      ++ (Y ++ nl
          ++ (str "RRULE:FREQ=WEEKLY;BYDAY=" ++ W ++ str ";UNTIL=" ++ Z)
          ++ nl ++ str "END:VEVENT")).
    - apply includes_part.
    - unfold out. now rewrite <- !app_assoc. }
  assert (I4 : Str.includes out (str "RRULE:") = true).
  { replace out with ((str "BEGIN:VEVENT" ++ nl ++ str "DTSTART:" ++ X ++ nl
                       ++ str "DTEND:" ++ Y ++ nl)
      ++ str "RRULE:"
      ++ (str "FREQ=WEEKLY;BYDAY=" ++ W ++ str ";UNTIL=" ++ Z)
          ++ nl ++ str "END:VEVENT").
    - apply includes_part.
    - unfold out. now rewrite <- !app_assoc. }
  assert (I5 : Str.includes out (str "UNTIL=") = true).
  { replace out with ((str "BEGIN:VEVENT" ++ nl ++ str "DTSTART:" ++ X ++ nl
                       ++ str "DTEND:" ++ Y ++ nl
                       ++ str "RRULE:FREQ=WEEKLY;BYDAY=" ++ W ++ str ";")
      ++ str "UNTIL="
      ++ (Z ++ nl ++ str "END:VEVENT")).
    - apply includes_part.
    - unfold out. now rewrite <- !app_assoc. }
  assert (I6 : Str.includes out (str "END:VEVENT") = true).
  { replace out with ((str "BEGIN:VEVENT" ++ nl ++ str "DTSTART:" ++ X ++ nl
                       ++ str "DTEND:" ++ Y ++ nl
                       ++ str "RRULE:FREQ=WEEKLY;BYDAY=" ++ W
                       ++ str ";UNTIL=" ++ Z ++ nl)
      ++ str "END:VEVENT" ++ []).
    - apply includes_part.
    - unfold out. rewrite app_nil_r. now rewrite <- !app_assoc. }
  cbn [forallb]. now rewrite I1, I2, I3, I4, I5, I6.
Qed.

(** X8.  The first test of the test file, on any host: its six
    expectations (the output contains BEGIN:VEVENT, DTSTART:, DTEND:,
    RRULE:, UNTIL= and END:VEVENT) hold for a recurrence string exactly
    when the parser accepts the string. *)
Theorem X8_test5545_passes_iff (LocalTZA : Z -> bool -> Z) (r : jsstring) :
  test5545 LocalTZA r = true <-> exists p, parseRecurrenceString r = Ok p.
Proof.
  unfold test5545. split.
  - unfold parseTo5545.
    destruct (parseRecurrenceString r) as [p | e]; [eauto | discriminate].
  - intros (p & H).
    rewrite (parseTo5545_block LocalTZA startDate endDate r p H).
    unfold block, rruleLine. apply block_includes.
Qed.

(** X9.  The second test of the test file, on a host whose offset from
    UTC stays within a day: it passes (the call returns an object whose
    frequency is WEEKLY) for a recurrence string exactly when the parser
    accepts the string. *)
Theorem X9_test8984_passes_iff (LocalTZA : Z -> bool -> Z) (r : jsstring) :
  offsetWithinADay LocalTZA ->
  (test8984 LocalTZA r = true <-> exists p, parseRecurrenceString r = Ok p).
Proof.
  intros Ho. unfold test8984. split.
  - unfold parseTo8984.
    destruct (parseRecurrenceString r) as [p | e]; [eauto | discriminate].
  - intros (p & H).
    assert (Es : startDate = Num 1741564800000) by (vm_compute; reflexivity).
    assert (Ht : - (Date.maxTime - 8 * Date.msPerDay) <= 1741564800000
                 <= Date.maxTime - 8 * Date.msPerDay)
      by (unfold Date.maxTime, Date.msPerDay; lia).
    assert (Ve : validDate endDate) by (vm_compute; discriminate).
    destruct (parse_clock_bounds r p H)
      as (h1 & m1 & h2 & m2 & E1 & E2 & B1 & B1' & B2 & B2').
    pose proof (setTime_in_range LocalTZA _ h1 m1 Ho Ht B1 B1') as V1.
    pose proof (setTime_in_range LocalTZA _ h2 m2 Ho Ht B2 B2') as V2.
    destruct (toISOString_valid _ V1) as (a & Ea).
    destruct (toISOString_valid _ V2) as (b & Eb).
    destruct (toISOString_valid _ Ve) as (u & Eu).
    unfold parseTo8984. rewrite H. cbn [bind].
    rewrite Es, E1, E2. cbn [hours minutes]. rewrite Ea, Eb, Eu. cbn [bind].
    reflexivity.
Qed.

Lemma X9_test8984_passes_iff_witness :
  test8984 (Date.fixedOffsetHost (-5)) (str "MWF 9am-10am") = true
  <-> exists p, parseRecurrenceString (str "MWF 9am-10am") = Ok p.
Proof.
  apply (X9_test8984_passes_iff (Date.fixedOffsetHost (-5))).
  intros t b. unfold Date.fixedOffsetHost, Date.msPerHour, Date.msPerDay.
  lia.
Defined.

Section Fields.

Import Date.

(** The day of a time value, from its year, month and day of the month. *)
Lemma Day_from_fields (t : Z) :
  Day t = MakeDay (YearFromTime t) (MonthFromTime t) (DateFromTime t).
Proof.
  pose proof (MonthFromTime_range t) as Rm.
  unfold MakeDay. rewrite Z.div_small, Z.mod_small, Z.add_0_r by lia.
  change (if DaysInYear (YearFromTime t) =? 366 then 1 else 0)
    with (InLeapYear t).
  assert (E : DayWithinYear t
              = daysBeforeMonth (InLeapYear t) (MonthFromTime t)
                + DateFromTime t - 1).
  { unfold DateFromTime, MonthFromTime.
    repeat match goal with
           | |- context [if ?a <? ?b then _ else _] =>
             destruct (Z.ltb_spec a b)
           end; cbv iota beta; unfold daysBeforeMonth; lia. }
  unfold DayWithinYear in E. lia.
Qed.

(** The second of a time value, from its day and its clock fields. *)
Lemma second_from_fields (t : Z) :
  t / 1000
  = Day t * 86400 + HourFromTime t * 3600 + MinFromTime t * 60
    + SecFromTime t.
Proof.
  unfold Day, HourFromTime, MinFromTime, SecFromTime, msPerDay, msPerHour,
    msPerMinute, msPerSecond.
  Z.div_mod_to_equations. lia.
Qed.

Lemma fields_of_second (t t' : Z) :
  t / 1000 = t' / 1000 ->
  Day t = Day t' /\ HourFromTime t = HourFromTime t' /\
  MinFromTime t = MinFromTime t' /\ SecFromTime t = SecFromTime t'.
Proof.
  intros H.
  unfold Day, HourFromTime, MinFromTime, SecFromTime, msPerDay, msPerHour,
    msPerMinute, msPerSecond.
  change 86400000 with (1000 * 86400). change 3600000 with (1000 * 3600).
  change 60000 with (1000 * 60).
  rewrite <- !Z.div_div by lia. now rewrite H.
Qed.

End Fields.

Section Reading.

Import Number.

(** Two texts with tails of the same length are equal part by part. *)
Lemma app_same_tail_length {A : Type} (a a' b b' : list A) :
  a ++ b = a' ++ b' -> length b = length b' -> a = a' /\ b = b'.
Proof.
  revert a'. induction a as [| x a IH]; intros [| x' a'] E L.
  - now split.
  - exfalso. apply (f_equal (@length A)) in E.
    cbn [app length] in E. rewrite length_app in E. lia.
  - exfalso. apply (f_equal (@length A)) in E.
    cbn [app length] in E. rewrite length_app in E. lia.
  - cbn [app] in E. injection E as -> E.
    destruct (IH _ E L) as [-> ->]. now split.
Qed.

Lemma cons_inj {A : Type} (x y : A) (l l' : list A) :
  x :: l = y :: l' -> x = y /\ l = l'.
Proof. intros E. now inversion E. Qed.

Lemma two_inj (n n' : Z) : two n = two n' -> n = n'.
Proof.
  unfold two, Chr.digitChar. intros E.
  apply cons_inj in E. destruct E as [E1 E].
  apply cons_inj in E. destruct E as [E2 _].
  Z.div_mod_to_equations. lia.
Qed.

Lemma digits_inj (n n' : Z) :
  0 <= n -> 0 <= n' ->
  digits (digitsFuel n) n = digits (digitsFuel n') n' -> n = n'.
Proof.
  intros H H' E.
  destruct (digits_value (digitsFuel n) n) as [V _];
    [pose proof (digitsFuel_enough n H); lia |].
  destruct (digits_value (digitsFuel n') n') as [V' _];
    [pose proof (digitsFuel_enough n' H'); lia |].
  rewrite E in V. congruence.
Qed.

Lemma digits_head (n : Z) :
  0 <= n ->
  exists c l, digits (digitsFuel n) n = c :: l /\ Chr.isDigit c = true.
Proof.
  intros H.
  destruct (digits_value (digitsFuel n) n) as [_ F];
    [pose proof (digitsFuel_enough n H); lia |].
  unfold digitsFuel in *. set (k := Z.to_nat (Z.log2 n)) in *.
  destruct (digits (S k) n) as [| c l] eqn:E.
  - exfalso. cbn [digits] in E. destruct (n <? 10); [discriminate |].
    now destruct (digits k (n / 10)).
  - exists c, l. split; [reflexivity | exact (Forall_inv F)].
Qed.

(** The text of an integer determines the integer. *)
Lemma toString_inj (n n' : Z) :
  toString (Num n) = toString (Num n') -> n = n'.
Proof.
  unfold toString.
  destruct (Z.ltb_spec n 0) as [L | G]; destruct (Z.ltb_spec n' 0) as [L' | G'];
    intros E.
  - injection E as E. apply digits_inj in E; lia.
  - destruct (digits_head n' G') as (c & l & Ec & D). rewrite Ec in E.
    injection E as <- _. discriminate.
  - destruct (digits_head n G) as (c & l & Ec & D). rewrite Ec in E.
    injection E as -> _. discriminate.
  - now apply digits_inj.
Qed.

Lemma toString_head (n : Z) :
  exists c l, toString (Num n) = c :: l /\
              (Chr.isDigit c = true \/ c = Chr.hyphen).
Proof.
  unfold toString. destruct (Z.ltb_spec n 0) as [L | G].
  - eauto.
  - destruct (digits_head n G) as (c & l & E & D). eauto.
Qed.

End Reading.

(** X10.  The compact timestamp of a valid date tells the date to the
    second and no further: two valid dates have the same timestamp
    exactly when they lie in the same second.  The timestamp of a valid
    date is never the text rendered for an invalid date. *)
Theorem X10_timestamp_to_the_second (t t' : Z) :
  (formatDateTo5545 (Num t) = formatDateTo5545 (Num t')
   <-> t / 1000 = t' / 1000) /\
  formatDateTo5545 (Num t) <> formatDateTo5545 NaN.
Proof.
  split; [split |].
  - rewrite !formatDateTo5545_fields. intros E.
    apply app_same_tail_length in E; [| reflexivity].
    destruct E as [Ey E]. apply toString_inj in Ey.
    apply app_same_tail_length in E; [| reflexivity].
    destruct E as [Em E]. apply two_inj in Em.
    apply app_same_tail_length in E; [| reflexivity].
    destruct E as [Ed E]. apply two_inj in Ed.
    apply app_same_tail_length in E; [| reflexivity].
    destruct E as [_ E].
    apply app_same_tail_length in E; [| reflexivity].
    destruct E as [Eh E]. apply two_inj in Eh.
    apply app_same_tail_length in E; [| reflexivity].
    destruct E as [En E]. apply two_inj in En.
    apply app_same_tail_length in E; [| reflexivity].
    destruct E as [Es _]. apply two_inj in Es.
    assert (Em' : Date.MonthFromTime t = Date.MonthFromTime t') by lia.
    rewrite (second_from_fields t), (second_from_fields t').
    rewrite (Day_from_fields t), (Day_from_fields t').
    now rewrite Ey, Em', Ed, Eh, En, Es.
  - intros E. rewrite !formatDateTo5545_fields.
    destruct (fields_of_second t t' E) as (Ed & Eh & En & Es).
    assert (Ey : Date.YearFromTime t = Date.YearFromTime t')
      by (unfold Date.YearFromTime; now rewrite Ed).
    assert (Em : Date.MonthFromTime t = Date.MonthFromTime t').
    { unfold Date.MonthFromTime, Date.DayWithinYear, Date.InLeapYear.
      now rewrite Ed, Ey. }
    assert (Ea : Date.DateFromTime t = Date.DateFromTime t').
    { unfold Date.DateFromTime, Date.DayWithinYear, Date.InLeapYear.
      now rewrite Ed, Ey, Em. }
    now rewrite Ey, Em, Ea, Eh, En, Es.
  - rewrite formatDateTo5545_fields.
    destruct (toString_head (Date.YearFromTime t)) as (c & l & -> & D).
    intros E. apply cons_inj in E. destruct E as [-> _].
    destruct D as [D | D]; discriminate.
Qed.

Section Separators.

(** Splitting a text at a separator character gives back the parts it
    was joined from, when none of them holds the separator. *)
Lemma split_join (c : char) (x : jsstring) (l : list jsstring) :
  Forall (fun s => ~ In c s) (x :: l) ->
  Str.split (Str.join (x :: l) [c]) [c] = x :: l.
Proof.
  unfold Str.split. revert x.
  induction l as [| y l IH]; intros x H.
  - apply splitFrom_no_sep. exact (Forall_inv H).
  - change (Str.join (x :: y :: l) [c])
      with (x ++ c :: Str.join (y :: l) [c]).
    rewrite splitFrom_at_sep by exact (Forall_inv H).
    f_equal. apply IH. exact (Forall_inv_tail H).
Qed.

Lemma all_firstn {A : Type} (P : A -> Prop) (k : nat) (s : list A) :
  Forall P s -> Forall P (firstn k s).
Proof.
  intros H. rewrite <- (firstn_skipn k s) in H.
  now apply Forall_app in H.
Qed.

Lemma all_padStart (P : char -> Prop) (s fill : jsstring) (k : nat) :
  Forall P s -> Forall P fill -> Forall P (Str.padStart s k fill).
Proof.
  intros Hs Hf. unfold Str.padStart.
  destruct (k <=? length s)%nat; [exact Hs |].
  destruct fill as [| c fill]; [exact Hs |].
  apply Forall_app. split; [| exact Hs].
  apply all_firstn, Forall_concat, Forall_forall.
  intros x Hx. apply repeat_spec in Hx. now subst x.
Qed.

Lemma digit_timestampChar (s : jsstring) :
  Forall (fun c => Chr.isDigit c = true) s ->
  Forall (fun c => timestampChar c = true) s.
Proof.
  apply Forall_impl. intros c H. unfold timestampChar. now rewrite H.
Qed.

Lemma check_timestampChar (s : jsstring) :
  forallb timestampChar s = true ->
  Forall (fun c => timestampChar c = true) s.
Proof. intros H. apply Forall_forall. now apply forallb_forall. Qed.

Lemma toString_timestampChar (n : number) :
  Forall (fun c => timestampChar c = true) (Number.toString n).
Proof.
  destruct n as [z |]; [| now apply check_timestampChar].
  unfold Number.toString. destruct (Z.ltb_spec z 0).
  - constructor; [reflexivity |].
    apply digit_timestampChar, digits_value.
    pose proof (digitsFuel_enough (- z)). lia.
  - apply digit_timestampChar, digits_value.
    pose proof (digitsFuel_enough z). lia.
Qed.

Lemma pad_timestampChar (n : number) :
  Forall (fun c => timestampChar c = true) (pad n).
Proof.
  apply all_padStart; [apply toString_timestampChar |].
  now apply check_timestampChar.
Qed.

Lemma format_timestampChar (d : Date.Date) :
  Forall (fun c => timestampChar c = true) (formatDateTo5545 d).
Proof.
  unfold formatDateTo5545.
  repeat (apply Forall_app; split);
    try apply toString_timestampChar; try apply pad_timestampChar;
    now apply check_timestampChar.
Qed.

Lemma lacks_check (c : char) (s : jsstring) :
  forallb (fun x => negb (x =? c)) s = true -> ~ In c s.
Proof.
  intros H K. rewrite forallb_forall in H.
  apply H in K. now rewrite Z.eqb_refl in K.
Qed.

Lemma lacks_timestamp (c : char) (s : jsstring) :
  timestampChar c = false ->
  Forall (fun x => timestampChar x = true) s -> ~ In c s.
Proof.
  intros Hc H K. rewrite Forall_forall in H. apply H in K. congruence.
Qed.

Lemma lacks_app (c : char) (a b : jsstring) :
  ~ In c a -> ~ In c b -> ~ In c (a ++ b).
Proof. intros Ha Hb K. apply in_app_or in K. tauto. Qed.

Lemma lacks_join (c : char) (l : list jsstring) (sep : jsstring) :
  Forall (fun s => ~ In c s) l -> ~ In c sep -> ~ In c (Str.join l sep).
Proof.
  intros Hl Hs. induction Hl as [| x l Hx Hl IH]; [intros [] |].
  destruct l as [| y l]; [exact Hx |].
  change (Str.join (x :: y :: l) sep) with (x ++ sep ++ Str.join (y :: l) sep).
  repeat apply lacks_app; assumption.
Qed.

(** The day codes hold neither a comma nor a semicolon. *)
Lemma lacks_translate (c x : char) :
  isDayLetter x = true -> c = 44 \/ c = 59 -> ~ In c (translate x).
Proof.
  intros E Hc. apply isDayLetter_cases in E. simpl in E.
  repeat (destruct E as [<- | E];
          [destruct Hc as [-> | ->]; now apply lacks_check |]).
  contradiction.
Qed.

(** The days of a parsed pattern: the translations of a non-empty run of
    day letters. *)
Lemma parse_days (s : jsstring) (p : RecurrencePattern) :
  parseRecurrenceString s = Ok p ->
  exists x d, Forall (fun c => isDayLetter c = true) (x :: d) /\
              days p = map translate (x :: d).
Proof.
  intros H. apply parse_ok in H.
  destruct H as (dm & tm & d & t1 & t2 & Ed & _ & Gd & _ & _ & Hall & _ & _
                 & ->).
  destruct (exec_dayRe _ _ Ed) as (d' & w & post & _ & Hne & _ & _ & Gd').
  assert (d' = d) by congruence. subst d'.
  destruct d as [| x d]; [congruence |]. now exists x, d.
Qed.

End Separators.

(** X11.  The RRULE line of a parsed pattern reads back without
    ambiguity: split at its semicolons it has exactly three parts,
    RRULE:FREQ=WEEKLY, BYDAY= with the joined days and UNTIL= with the
    timestamp of the period end, and the joined days split at the commas
    are the days of the pattern. *)
Theorem X11_rrule_line_reads_back (s : jsstring) (p : RecurrencePattern)
  (periodEnd : Date.Date) :
  parseRecurrenceString s = Ok p ->
  Str.split (rruleLine p periodEnd) (str ";")
  = [ str "RRULE:FREQ=WEEKLY";
      str "BYDAY=" ++ Str.join (days p) (str ",");
      str "UNTIL=" ++ formatDateTo5545 periodEnd ] /\
  Str.split (Str.join (days p) (str ",")) (str ",") = days p.
Proof.
  intros H. destruct (parse_days s p H) as (x & d & Hall & Ed).
  assert (L : forall c, c = 44 \/ c = 59 ->
                Forall (fun s => ~ In c s) (days p)).
  { intros c Hc. rewrite Ed. apply Forall_forall. intros code Hi.
    apply in_map_iff in Hi. destruct Hi as (y & <- & Hy).
    rewrite Forall_forall in Hall. apply lacks_translate; auto. }
  split.
  - change (rruleLine p periodEnd)
      with (Str.join [ str "RRULE:FREQ=WEEKLY";
                       str "BYDAY=" ++ Str.join (days p) (str ",");
                       str "UNTIL=" ++ formatDateTo5545 periodEnd ] [59]).
    apply split_join. repeat apply Forall_cons; try apply Forall_nil.
    + now apply lacks_check.
    + apply lacks_app; [now apply lacks_check |].
      apply lacks_join; [apply L; now right | now apply lacks_check].
    + apply lacks_app; [now apply lacks_check |].
      apply (lacks_timestamp 59); [reflexivity |].
      apply format_timestampChar.
  - rewrite Ed in *. apply (split_join 44). apply L. now left.
Qed.

Lemma X11_rrule_line_reads_back_witness :
  Str.split (rruleLine (mkPattern [str "TU"; str "TH"]
                          (mkClock (Num 11) (Num 0))
                          (mkClock (Num 12) (Num 15))) endDate) (str ";")
  = [ str "RRULE:FREQ=WEEKLY"; str "BYDAY=TU,TH";
      str "UNTIL=20250610T235959Z" ] /\
  Str.split (str "TU,TH") (str ",") = [str "TU"; str "TH"].
Proof.
  apply (X11_rrule_line_reads_back (str "TR 11am-12:15pm")).
  vm_compute. reflexivity.
Defined.

Section Agreement.

Import Date.

Lemma pad2_two (n : Z) : 0 <= n <= 99 -> Date.pad 2 n = two n.
Proof. intros H. now apply (pad_two n). Qed.

Lemma pad4_four (n : Z) : 1000 <= n <= 9999 -> Date.pad 4 n = four n.
Proof.
  intros H. unfold Date.pad. rewrite toString_four by lia. reflexivity.
Qed.

(** The ISO text of a date in a four-digit year, field by field. *)
Lemma toISOString_fields (t : Z) :
  fourDigitYear t ->
  toISOString (Num t)
  = Ok (four (YearFromTime t) ++ str "-" ++ two (MonthFromTime t + 1)
        ++ str "-" ++ two (DateFromTime t)
        ++ str "T" ++ two (HourFromTime t)
        ++ str ":" ++ two (MinFromTime t)
        ++ str ":" ++ two (SecFromTime t)
        ++ str "." ++ Date.pad 3 (msFromTime t) ++ str "Z").
Proof.
  unfold fourDigitYear. intros Hy. unfold toISOString.
  pose proof (MonthFromTime_range t). pose proof (DateFromTime_range t).
  pose proof (HourFromTime_range t). pose proof (MinFromTime_range t).
  pose proof (SecFromTime_range t).
  destruct (Z.leb_spec 0 (YearFromTime t)); [| lia].
  destruct (Z.leb_spec (YearFromTime t) 9999); [| lia].
  cbn [andb]. rewrite pad4_four, !pad2_two by lia. reflexivity.
Qed.

(** The compact timestamp of a date in a four-digit year is its ISO text
    without the punctuation and the milliseconds. *)
Lemma compact_toISOString (t : Z) :
  fourDigitYear t ->
  exists iso, toISOString (Num t) = Ok iso /\
              formatDateTo5545 (Num t) = compact iso.
Proof.
  intros Hy. eexists. split; [now apply toISOString_fields |].
  rewrite formatDateTo5545_fields.
  unfold fourDigitYear in Hy. rewrite toString_four by lia.
  reflexivity.
Qed.

End Agreement.

(** X12.  The two converters agree.  When the event start, the event end
    and the period end are valid dates in years 1000 to 9999,
    [parseTo8984] succeeds and the iCalendar block of [parseTo5545] is
    made of the fields of its object: DTSTART, DTEND and UNTIL are the
    ISO texts dtstart, dtend and until without punctuation and
    milliseconds, and BYDAY is byDay joined by commas. *)
Theorem X12_converters_agree (LocalTZA : Z -> bool -> Z)
  (periodStart periodEnd : Date.Date) (s : jsstring)
  (p : RecurrencePattern) (a b u : Z) :
  parseRecurrenceString s = Ok p ->
  setTime LocalTZA periodStart (hours (startTime p)) (minutes (startTime p))
  = Num a ->
  setTime LocalTZA periodStart (hours (endTime p)) (minutes (endTime p))
  = Num b ->
  periodEnd = Num u ->
  fourDigitYear a -> fourDigitYear b -> fourDigitYear u ->
  exists ev,
    parseTo8984 LocalTZA periodStart periodEnd s = Ok ev /\
    frequency (recurrence ev) = str "WEEKLY" /\
    parseTo5545 LocalTZA periodStart periodEnd s
    = Ok (Str.join
            [ str "BEGIN:VEVENT";
              str "DTSTART:" ++ compact (dtstart ev);
              str "DTEND:" ++ compact (dtend ev);
              str "RRULE:FREQ=WEEKLY;BYDAY="
              ++ Str.join (byDay (recurrence ev)) (str ",")
              ++ str ";UNTIL=" ++ compact (until (recurrence ev));
              str "END:VEVENT" ]
            [Chr.newline]).
Proof.
  intros H Ea Eb -> Ya Yb Yu.
  destruct (compact_toISOString a Ya) as (ia & Ia & Ca).
  destruct (compact_toISOString b Yb) as (ib & Ib & Cb).
  destruct (compact_toISOString u Yu) as (iu & Iu & Cu).
  exists (mkEvent ia ib (mkRule (str "WEEKLY") (days p) iu)).
  unfold parseTo8984, parseTo5545, rruleLine. rewrite H. cbn [bind].
  rewrite Ea, Eb, Ia, Ib, Iu, Ca, Cb, Cu. cbn [bind].
  repeat split; reflexivity.
Qed.

Lemma X12_converters_agree_witness :
  exists ev,
    parseTo8984 (Date.fixedOffsetHost (-4)) startDate endDate
      (str "TR 11am-12:15pm") = Ok ev /\
    frequency (recurrence ev) = str "WEEKLY" /\
    parseTo5545 (Date.fixedOffsetHost (-4)) startDate endDate
      (str "TR 11am-12:15pm")
    = Ok (Str.join
            [ str "BEGIN:VEVENT";
              str "DTSTART:" ++ compact (dtstart ev);
              str "DTEND:" ++ compact (dtend ev);
              str "RRULE:FREQ=WEEKLY;BYDAY="
              ++ Str.join (byDay (recurrence ev)) (str ",")
              ++ str ";UNTIL=" ++ compact (until (recurrence ev));
              str "END:VEVENT" ]
            [Chr.newline]).
Proof.
  apply (X12_converters_agree (Date.fixedOffsetHost (-4)) startDate endDate
           (str "TR 11am-12:15pm")
           (mkPattern [str "TU"; str "TH"] (mkClock (Num 11) (Num 0))
              (mkClock (Num 12) (Num 15)))
           1741532400000 1741536900000 1749599999000).
  - vm_compute. reflexivity.
  - vm_compute. reflexivity.
  - vm_compute. reflexivity.
  - vm_compute. reflexivity.
  - unfold fourDigitYear. vm_compute. split; discriminate.
  - unfold fourDigitYear. vm_compute. split; discriminate.
  - unfold fourDigitYear. vm_compute. split; discriminate.
Defined.
